(** * parserrtm: a shallow embedding of the RRTM input codec

    The Python sources embedded here are
      - [src/parserrtm/Input.py]     (class [Input]: record reader and writer,
                                      file bounds, write dispatch),
      - [src/parserrtm/longwave.py]  (class [InputLW]: schema and record orders),
      - [src/parserrtm/shortwave.py] (class [InputSW]: schema and record orders).

    An [Input] instance is a bag of attributes.  Attributes hold scalars
    (int, float, str) or references to mutable list objects, which live in a
    store shared by every instance; Python exceptions are results of the
    error type [exn]. *)

From Stdlib Require Import Floats ZArith Ascii String.
From stdpp Require Import gmap strings list pretty.

Local Open Scope string_scope.
Local Open Scope list_scope.
Local Open Scope Z_scope.

(** ** Values, list objects and exceptions *)

(** The scalars a Fortran record reader produces. *)
Inductive scalar :=
  | SInt (z : Z)
  | SFloat (f : float)
  | SStr (s : string).

(** A Python value held by an attribute or a list cell: a scalar, or a
    reference to a list object of the store. *)
Inductive pyval :=
  | Scalar (s : scalar)
  | Ref (l : nat).

(** The attribute dictionary of one instance, and the store of list objects
    (a list object is allocated at the end of the store and never freed). *)
Abbreviation obj := (gmap string pyval).
Abbreviation heap := (list (list pyval)).

Inductive exn :=
  | AttributeError
  | KeyError
  | TypeError
  | IndexError
  | NameError
  | UnboundLocalError
  | NotImplementedError
  | ValueError
  | IOError
  | ReaderError        (* whatever fortranformat's FortranRecordReader raises,
                          of any Python class (a ValueError, for a line it
                          cannot parse) *)
  | WriterError        (* whatever fortranformat's FortranRecordWriter raises *)
  | SystemError        (* a reference to a list object that does not exist;
                          no Python program can build one *)
  | Unfinished.        (* not a Python exception: a loop of the model stopped
                          by its fuel *)

Inductive result (A : Type) :=
  | Ok (a : A)
  | Raise (e : exn).
Arguments Ok {A} a.
Arguments Raise {A} e.

Definition rbind {A B} (m : result A) (k : A → result B) : result B :=
  match m with
  | Ok a => k a
  | Raise e => Raise e
  end.

Notation "'let?' x ':=' m 'in' k" := (rbind m (fun x => k))
  (at level 10, x name, m at level 100, k at level 200).

(** A [for] loop whose body may raise. *)
Fixpoint for_each {X S} (xs : list X) (body : X → S → result S) (s : S) : result S :=
  match xs with
  | [] => Ok s
  | x :: xs' => let? s' := body x s in for_each xs' body s'
  end.

(** [range(n)] for an int [n]. *)
Definition py_range (n : Z) : list nat := seq 0 (Z.to_nat n).

(** ** Python operators on attribute values *)

Definition getattr (a : obj) (name : string) : result pyval :=
  match a !! name with
  | Some v => Ok v
  | None => Raise AttributeError
  end.

(** The float of a small int constant of the source (0, 1, 2, 7, 10). *)
Definition float_of_const (c : Z) : float :=
  if c <? 0 then PrimFloat.opp (PrimFloat.of_uint63 (Uint63.of_Z (- c)))
  else PrimFloat.of_uint63 (Uint63.of_Z c).

(** [v == c] for an int constant [c]: never raises. *)
Definition py_eq (v : pyval) (c : Z) : bool :=
  match v with
  | Scalar (SInt z) => z =? c
  | Scalar (SFloat f) => PrimFloat.eqb f (float_of_const c)
  | Scalar (SStr _) => false
  | Ref _ => false
  end.

(** [v > c] for an int constant [c]: a str or a list raises TypeError. *)
Definition py_gt (v : pyval) (c : Z) : result bool :=
  match v with
  | Scalar (SInt z) => Ok (c <? z)
  | Scalar (SFloat f) => Ok (PrimFloat.ltb (float_of_const c) f)
  | Scalar (SStr _) => Raise TypeError
  | Ref _ => Raise TypeError
  end.

(** The int an argument of [range] must be ([abs(v)+1], [v-7] and [v+1]
    raise TypeError on a str or a list, and [range] does on a float). *)
Definition py_int (v : pyval) : result Z :=
  match v with
  | Scalar (SInt z) => Ok z
  | _ => Raise TypeError
  end.

(** [type(v) == list] *)
Definition is_list (v : pyval) : bool :=
  match v with
  | Ref _ => true
  | Scalar _ => false
  end.

(** [len(v)] *)
Definition py_len (h : heap) (v : pyval) : result nat :=
  match v with
  | Ref l => match h !! l with
             | Some xs => Ok (length xs)
             | None => Raise SystemError
             end
  | Scalar (SStr s) => Ok (String.length s)
  | Scalar _ => Raise TypeError
  end.

(** ** Record schemas: [get_format] and [get_fields] *)

Inductive variant := LW | SW.

(** A value of a schema dictionary: a constant, or a lambda of the instance. *)
Inductive entry (A : Type) :=
  | Static (x : A)
  | Dynamic (f : obj → result A).
Arguments Static {A} x.
Arguments Dynamic {A} f.

(** [d[k]] on a dict literal. *)
Fixpoint dict_get {A} (d : list (string * A)) (k : string) : result A :=
  match d with
  | [] => Raise KeyError
  | (k', x) :: d' => if String.eqb k' k then Ok x else dict_get d' k
  end.

(** [fmt(self)] when the entry is callable. *)
Definition eval_entry {A} (e : entry A) (a : obj) : result A :=
  match e with
  | Static x => Ok x
  | Dynamic f => f a
  end.

(** [f"{'8ES10.3' if self.<flag>==0 else '8ES15.7'}"] and its like. *)
Definition fmt_by_flag (flag pre a0 a1 post : string) : entry string :=
  Dynamic (fun a =>
    let? v := getattr a flag in
    Ok (pre +:+ (if py_eq v 0 then a0 else a1) +:+ post)).

Definition formats (v : variant) : list (string * entry string) :=
  match v with
  | LW =>
    [ ("1.1",   Static "(1A80)");
      ("1.2",   Static "(49X, I1, 19X, I1, 12X, I1, I2, 2X, I3, 4X, I1)");
      ("1.4",   Static "(F10.3,  1X, I1, 2X, I1, 16F5.3)");
      ("2.1",   Static "(1X,I1, I3, I5)");
      ("2.1.1", fmt_by_flag "IFORM" "(" "F10.4" "ES15.7"
                  ", F10.4, 23X, F8.3, F7.2,  7X, F8.3,   F7.2)");
      ("2.1.2", fmt_by_flag "IFORM" "(" "8ES10.3" "8ES15.7" ")");
      ("2.1.3", fmt_by_flag "IFORM" "(" "8ES10.3" "8ES15.7" ")");
      ("2.2",   Static "(I5)");
      ("2.2.1", Static "(7A10,(/,8A10))");
      ("2.2.2", Static "(1X,I1)");
      ("2.2.3", Static "(A1)");
      ("2.2.4", fmt_by_flag "IFRMX" "(" "7ES10.3" "7ES15.7" ")");
      ("2.2.5", fmt_by_flag "IFRMX" "(" "8ES10.3" "8ES15.7" ")");
      ("3.1",   Static "(I5, 5X, I5, 5X, I5, I5, I5, 3X, I2, F10.3, 20X, F10.3)");
      ("3.2",   Static "(F10.3,  F10.3)");
      ("3.3A",  Static "(F10.3,  F10.3,  F10.3, F10.3, F10.3)");
      ("3.3B",  Static "(8F10.3)");
      ("3.4",   Static "(I5, 3A8)");
      ("3.5",   Static "(F10.3, F10.3, F10.3, 5X, A1, A1, 3X, 28A1)");
      ("3.6.1", Static "(8ES10.3)");
      ("3.7",   Static "(I5, I5, I5)");
      ("3.7.1", Static "(7A10,(/,8A10))");
      ("3.8",   Static "(I5, I5, A50)");
      ("3.8.1", Static "(F10.3, 5X, 35A1)");
      ("3.8.2", Static "(8ES10.3)");
      ("C1.1",  Static "(3X, I2,  4X, I1,  4X, I1)");
      ("C1.2",  Static "(A1, 1X, I3, ES10.3, ES10.3, ES10.3, ES10.3, ES10.3)");
      ("C1.3",  Static "(A1, 1X, I3, ES10.3, ES10.3, ES10.3, ES10.3, ES10.3)");
      ("C1.3A", Static "(15X, E10.5, E10.5, 16E10.5)") ]
  | SW =>
    [ ("1.1",   Static "(1A80)");
      ("1.2",   Static "(18X, I2, 29X, I1, 32X, I1, 1X, I1, 2X, I3, 4X, I1, 3X, I1, I1)");
      ("1.2.1", Static "(12X, I3, F7.4, 4X, I1, 14F5.3)");
      ("1.4",   Static "(11X,  I1, 2X, I1, 14F5.3)");
      ("2.1",   Static "(1X,I1, I3, I5)");
      ("2.1.1", fmt_by_flag "IFORM" "(" "F10.4" "ES15.7"
                  ", F10.4, 23X, F8.3, F7.2,  7X, F8.3,   F7.2)");
      ("2.1.2", fmt_by_flag "IFORM" "(" "8ES10.3" "8ES15.7" ")");
      ("2.1.3", fmt_by_flag "IFORM" "(" "8ES10.3" "8ES15.7" ")");
      ("3.1",   Static "(I5, 5X, I5, 5X, I5, I5, I5, 3X, I2, F10.3, 20X, F10.3, F10.3)");
      ("3.2",   Static "(F10.3,  F10.3)");
      ("3.3A",  Static "(F10.3,  F10.3,  F10.3, F10.3, F10.3)");
      ("3.3B",  Static "(8F10.3)");
      ("3.4",   Static "(I5, 3A8)");
      ("3.5",   Static "(F10.3, F10.3, F10.3, 5X, A1, A1, 3X, 28A1)");
      ("3.6.1", Static "(8ES10.3)");
      ("3.8",   Static "(I5, I5, A50)");
      ("3.8.1", Static "(F10.3, 5X, 35A1)");
      ("3.8.2", Static "(8ES10.3)");
      ("C1.1",  Static "(4X, I1,  4X, I1,  4X, I1)");
      ("C1.2",  Static "(A1, 1X, I3, ES10.3, ES10.3, ES10.3, 16ES10.3)");
      ("C1.3",  Static "(A1, 1X, I3, ES10.3, ES10.3, ES10.3, ES10.3, ES10.3)");
      ("A1.1",  Static "(3X, I2)");
      ("A2.1",  Static "(3X, I2, 4X, I1, 4X, I1, 4X, I1, 3F8.2)");
      ("A2.1.1", fmt_by_flag "IAOD" "(2X, I3, " "F7.4" "14F7.4" ")");
      ("A2.2",  Static "(14F5.2)");
      ("A2.3",  Static "(14F5.2)") ]
  end.

Definition get_format (v : variant) (a : obj) (rec : string) : result string :=
  let? fmt := dict_get (formats v) rec in
  eval_entry fmt a.

(** An element of a field-name list: a str, or (record C1.3 of the shortwave
    table) a lambda that sits in the list uncalled. *)
Inductive key :=
  | Name (s : string)
  | Callable.

(** [f'{base}({I})'] *)
Definition indexed (base : string) (i : Z) : string :=
  base +:+ "(" +:+ pretty i +:+ ")".

(** [[f'{base}({I})' for I in range(lo, lo+len)]] *)
Definition indexed_names (base : string) (lo len : Z) : list key :=
  (fun i => Name (indexed base i)) <$> seqZ lo len.

(** [[f'{base}({I})' for I in range(1, self.<count>+1)]] *)
Definition names_upto (count base : string) : entry (list key) :=
  Dynamic (fun a =>
    let? v := getattr a count in
    let? n := py_int v in
    Ok (indexed_names base 1 n)).

(** [[f'PMOM({N})' for N in range(self.NSTR)]] behind a fixed head *)
Definition names_pmom (head : obj → result (list string)) : entry (list key) :=
  Dynamic (fun a =>
    let? hd := head a in
    let? v := getattr a "NSTR" in
    let? n := py_int v in
    Ok ((Name <$> hd) ++ indexed_names "PMOM" 0 n)).

Definition records_fields (v : variant) : list (string * entry (list key)) :=
  match v with
  | LW =>
    [ ("1.1",   Static [Name "CXID"]);
      ("1.2",   Static (Name <$> ["IATM"; "IXSECT"; "ISCAT"; "NUMANGS"; "IOUT"; "ICLD"]));
      ("1.4",   Static ((Name <$> ["TBOUND"; "IEMIS"; "IREFLECT"])
                        ++ indexed_names "SEMISS" 1 16));
      ("2.1",   Static (Name <$> ["IFORM"; "NLAYRS"; "NMOL"]));
      ("2.1.1", Static (Name <$> ["PAVE"; "TAVE"; "PZ(L-1)"; "TZ(L-1)"; "PZ(L)"; "TZ(L)"]));
      ("2.1.2", Static (Name <$> ["WKL(1,L)"; "WKL(2,L)"; "WKL(3,L)"; "WKL(4,L)";
                                  "WKL(5,L)"; "WKL(6,L)"; "WKL(7,L)"; "WBROAD(L)"]));
      ("2.1.3", Dynamic (fun a =>
                  let? v := getattr a "NMOL" in
                  let? n := py_int v in
                  Ok ((fun m => Name ("WKL(" +:+ pretty m +:+ ",L)")) <$> seqZ 0 (n - 7))));
      ("2.2",   Static [Name "IXMOLS"]);
      ("2.2.1", names_upto "IXMOLS" "XSNAME");
      ("2.2.2", Static [Name "IFRMX"]);
      ("2.2.3", Static [Name "_"]);
      ("2.2.4", Dynamic (fun _ => Ok (indexed_names "XAMNT" 1 7)));
      ("3.1",   Static (Name <$> ["MODEL"; "IBMAX"; "NOPRNT"; "NMOL"; "IPUNCH";
                                  "MUNITS"; "RE"; "CO2MX"]));
      ("3.2",   Static (Name <$> ["HBOUND"; "HTOA"]));
      ("3.3A",  Static (Name <$> ["AVTRAT"; "TDIFF1"; "TDIFF2"; "ALTD1"; "ALTD2"]));
      ("3.3B",  Dynamic (fun a =>
                  let? v := getattr a "IBMAX" in
                  let? n := py_int v in
                  Ok (indexed_names (if 0 <? n then "ZBND" else "PBND") 1 (Z.abs n))));
      ("3.4",   Static (Name <$> ["IMMAX"; "HMOD"]));
      ("3.5",   Static ((Name <$> ["ZM"; "PM"; "TM"; "JCHARP"; "JCHART"])
                        ++ indexed_names "JCHAR" 1 28));
      ("3.6.1", names_upto "NMOL" "VMOL");
      ("3.7",   Static (Name <$> ["IXMOLS"; "IPRFL"; "IXSBIN"]));
      ("3.7.1", names_upto "IXMOLS" "XSNAME");
      ("3.8",   Static (Name <$> ["LAYX"; "IZORP"; "XTITLE"]));
      ("3.8.1", Static (Name "ZORP" :: indexed_names "JCHARX" 1 28));
      ("3.8.2", names_upto "IXMOLS" "DENX");
      ("C1.1",  Static (Name <$> ["INFLAG"; "ICEFLAG"; "LIQFLAG"]));
      ("C1.2",  Static (Name <$> ["TESTCHAR"; "LAY"; "CLDFRAC"; "CWP"; "FRACICE";
                                  "EFFSIZEICE"; "EFFSIZELIQ"]));
      ("C1.3",  names_pmom (fun _ => Ok ["TESTCHAR"; "LAY"; "CLDFRAC"; "TAUCLD";
                                         "SINGLE-SCATTERING ALBEDO"]));
      ("C1.3A", names_pmom (fun _ => Ok ["TAUCLD"; "SINGLE-SCATTERING ALBEDO"])) ]
  | SW =>
    [ ("1.1",   Static [Name "CXID"]);
      ("1.2",   Static (Name <$> ["IAER"; "IATM"; "ISCAT"; "ISTRM"; "IOUT"; "ICLD";
                                  "IDELM"; "ICOS"]));
      ("1.2.1", Static ((Name <$> ["JULDAT"; "SZA"; "ISOLVAR"])
                        ++ indexed_names "SOLVAR" 16 14));
      ("1.4",   Static ((Name <$> ["IEMIS"; "IREFLECT"]) ++ indexed_names "SEMISS" 1 16));
      ("2.1",   Static (Name <$> ["IFORM"; "NLAYRS"; "NMOL"]));
      ("2.1.1", Static (Name <$> ["PAVE"; "TAVE"; "PZ(L-1)"; "TZ(L-1)"; "PZ(L)"; "TZ(L)"]));
      ("2.1.2", Static (Name <$> ["WKL(1,L)"; "WKL(2,L)"; "WKL(3,L)"; "WKL(4,L)";
                                  "WKL(5,L)"; "WKL(6,L)"; "WKL(7,L)"; "WBROAD(L)"]));
      ("2.1.3", Dynamic (fun a =>
                  let? v := getattr a "NMOL" in
                  let? n := py_int v in
                  Ok ((fun m => Name ("WKL(" +:+ pretty m +:+ ",L)")) <$> seqZ 0 (n - 7))));
      ("3.1",   Static (Name <$> ["MODEL"; "IBMAX"; "NOPRNT"; "NMOL"; "IPUNCH";
                                  "MUNITS"; "RE"; "CO2MX"; "REF_LAT"]));
      ("3.2",   Static (Name <$> ["HBOUND"; "HTOA"]));
      ("3.3A",  Static (Name <$> ["AVTRAT"; "TDIFF1"; "TDIFF2"; "ALTD1"; "ALTD2"]));
      ("3.3B",  Dynamic (fun a =>
                  let? v := getattr a "IBMAX" in
                  let? n := py_int v in
                  Ok (indexed_names (if 0 <? n then "ZBND" else "PBND") 1 (Z.abs n))));
      ("3.4",   Static (Name <$> ["IMMAX"; "HMOD"]));
      ("3.5",   Static ((Name <$> ["ZM"; "PM"; "TM"; "JCHARP"; "JCHART"])
                        ++ indexed_names "JCHAR" 1 28));
      ("3.6.1", names_upto "NMOL" "VMOL");
      ("3.8",   Static (Name <$> ["LAYX"; "IZORP"; "XTITLE"]));
      ("3.8.1", Static (Name "ZORP" :: indexed_names "JCHARX" 1 28));
      ("3.8.2", names_upto "IXMOLS" "DENX");
      ("C1.1",  Static (Name <$> ["INFLAG"; "ICEFLAG"; "LIQFLAG"]));
      ("C1.3",  Static [Name "TESTCHAR"; Name "LAY"; Name "CLDFRAC"; Callable;
                        Name "FRACICE"; Name "EFFSIZEICE"; Name "EFFSIZELIQ"]);
      ("C1.2",  names_pmom (fun a =>
                  let? v := getattr a "INFLAG" in
                  Ok ["TESTCHAR"; "LAY"; "CLDFRAC";
                      if py_eq v 0 then "TAUCLD" else "CWP";
                      "SINGLE-SCATTERING ALBEDO"]));
      ("A1.1",  Static [Name "NAER"]);
      ("A2.1",  Static (Name <$> ["NLAY"; "IAOD"; "ISSA"; "IPHA"; "AERPAR(1)";
                                  "AERPAR(2)"; "AERPAR(3)"]));
      ("A2.1.1", Dynamic (fun a =>
                  let? v := getattr a "IAOD" in
                  Ok (if py_eq v 0 then Name <$> ["LAY"; "AOD1"]
                      else Name "LAY" :: indexed_names "AOD" 16 14)));
      ("A2.2",  Static (indexed_names "SSA" 16 14));
      ("A2.3",  Static (indexed_names "PHASE" 16 14)) ]
  end.

Definition get_fields (v : variant) (a : obj) (rec : string) : result (list key) :=
  let? fields := dict_get (records_fields v) rec in
  eval_entry fields a.

(** ** Cardinality: [Input.islist] and [Input.record_len] *)

Definition islist (rec : string) : bool :=
  bool_decide (rec ∈ ["2.1.1"; "2.1.2"; "2.1.3"; "2.2.3"; "2.2.4"; "2.2.5"; "3.5";
                      "3.6.1"; "3.8.1"; "3.8.2"; "C1.2"; "C1.3"; "C1.3a"]).

(** [1 if type(self.LAY) != list else len(self.LAY)] *)
Definition cloud_layers (a : obj) (h : heap) : result nat :=
  let? lay := getattr a "LAY" in
  if negb (is_list lay) then Ok 1%nat else py_len h lay.

Definition lens : list (string * (obj → heap → result pyval)) :=
  let attr name := fun (a : obj) (_ : heap) => getattr a name in
  let cloud := fun a h =>
    let? n := cloud_layers a h in Ok (Scalar (SInt (Z.of_nat n))) in
  [ ("2.1.1", attr "NLAYRS"); ("2.1.2", attr "NLAYRS"); ("2.1.3", attr "NLAYRS");
    ("2.2.3", attr "NLAYRS"); ("2.2.4", attr "NLAYRS"); ("2.2.5", attr "NLAYRS");
    ("3.5", attr "IMMAX"); ("3.6.1", attr "IMMAX");
    ("3.8.1", attr "LAYX"); ("3.8.2", attr "LAYX");
    ("C1.2", cloud); ("C1.3", cloud);
    ("C1.3a", fun _ _ => Ok (Scalar (SInt 15))) ].

Definition record_len (a : obj) (h : heap) (rec : string) : result pyval :=
  let? f := dict_get lens rec in
  f a h.

(** ** Record orders (the two classes have the same text for both methods) *)

(** [records.append(r)] under [if self.<name> > 7:] *)
Definition append_if_gt7 (a : obj) (name r : string) (records : list string)
  : result (list string) :=
  let? v := getattr a name in
  let? c := py_gt v 7 in
  Ok (if c then records ++ [r] else records).

Definition get_logical_record_order (a : obj) (h : heap) (file : string)
  : result (list string) :=
  if String.eqb file "input_rrtm" then
    let records := ["1.1"; "1.2"; "1.4"] in
    let? iatm := getattr a "IATM" in
    if py_eq iatm 0 then
      let records := records ++ ["2.1"; "2.1.1"; "2.1.2"] in
      let? records := append_if_gt7 a "NMOL" "2.1.3" records in
      let? ixsect := getattr a "IXSECT" in
      if py_eq ixsect 1 then
        let records := records ++ ["2.2"; "2.2.1"; "2.2.2"; "2.2.3"; "2.2.4"] in
        append_if_gt7 a "IXMOLS" "2.2.5" records
      else Ok records
    else
      if py_eq iatm 1 then
        let records := records ++ ["3.1"; "3.2"] in
        let? ibmax := getattr a "IBMAX" in
        let records := records ++ [if py_eq ibmax 0 then "3.3A" else "3.3B"] in
        let? model := getattr a "MODEL" in
        let records :=
          if py_eq model 0 then records ++ ["3.4"; "3.5"; "3.6.1"] else records in
        let? ixsect := getattr a "IXSECT" in
        if py_eq ixsect 1 then
          let records := records ++ ["3.7"; "3.7.1"] in
          let? iprfl := getattr a "IPRFL" in
          Ok (if py_eq iprfl 0 then records ++ ["3.8"; "3.8.1"; "3.8.2"] else records)
        else Ok records
      else Ok records
  else if String.eqb file "in_cld_rrtm" then
    let records := ["C1.1"] in
    let? inflag := getattr a "INFLAG" in
    if py_eq inflag 1 || py_eq inflag 2 then
      Ok (records ++ ["C1.2"])
    else
      if py_eq inflag 0 || py_eq inflag 10 then
        let? lay := getattr a "LAY" in
        let? n := py_len h lay in
        for_each (seq 0 n) (fun _ records =>
          let records := records ++ ["C1.3"] in
          let? inflag := getattr a "INFLAG" in
          if py_eq inflag 10 then Raise NotImplementedError
          else Ok records) records
      else Ok records
  else Raise UnboundLocalError.

(** The body of [for i in range(self.<count>):] appending [rs] and then [r]
    under [if self.<name> > 7:]. *)
Definition layer_records (a : obj) (rs : list string) (name r : string)
  : nat → list string → result (list string) :=
  fun _ records => append_if_gt7 a name r (records ++ rs).

Definition get_explicit_record_order (a : obj) (h : heap) (file : string)
  : result (list string) :=
  if String.eqb file "input_rrtm" then
    let records := ["1.1"; "1.2"; "1.4"] in
    let? iatm := getattr a "IATM" in
    if py_eq iatm 0 then
      let records := records ++ ["2.1"] in
      let? nlayrs := getattr a "NLAYRS" in
      let? n := py_int nlayrs in
      let? records :=
        for_each (py_range n) (layer_records a ["2.1.1"; "2.1.2"] "NMOL" "2.1.3")
                 records in
      let? ixsect := getattr a "IXSECT" in
      if py_eq ixsect 1 then
        let records := records ++ ["2.2"; "2.2.1"; "2.2.2"] in
        let? nlayrs := getattr a "NLAYRS" in
        let? n := py_int nlayrs in
        for_each (py_range n) (layer_records a ["2.2.3"; "2.2.4"] "IXMOLS" "2.2.5")
                 records
      else Ok records
    else
      if py_eq iatm 1 then
        let records := records ++ ["3.1"; "3.2"] in
        let? ibmax := getattr a "IBMAX" in
        let records := records ++ [if py_eq ibmax 0 then "3.3A" else "3.3B"] in
        let? model := getattr a "MODEL" in
        let? records :=
          if py_eq model 0 then
            let records := records ++ ["3.4"] in
            let? immax := getattr a "IMMAX" in
            let? n := py_int immax in
            for_each (py_range n) (fun _ records => Ok (records ++ ["3.5"; "3.6.1"]))
                     records
          else Ok records in
        let? ixsect := getattr a "IXSECT" in
        if py_eq ixsect 1 then
          let records := records ++ ["3.7"; "3.7.1"] in
          let? iprfl := getattr a "IPRFL" in
          if py_eq iprfl 0 then
            let records := records ++ ["3.8"] in
            let? layx := getattr a "LAYX" in
            let? n := py_int layx in
            for_each (py_range n) (fun _ records => Ok (records ++ ["3.8.1"; "3.8.2"]))
                     records
          else Ok records
        else Ok records
      else Ok records
  else if String.eqb file "in_cld_rrtm" then
    let records := ["C1.1"] in
    let? inflag := getattr a "INFLAG" in
    if py_eq inflag 1 || py_eq inflag 2 then
      let? n := cloud_layers a h in
      for_each (seq 0 n) (fun _ records => Ok (records ++ ["C1.2"])) records
    else
      if py_eq inflag 0 || py_eq inflag 10 then
        let? n := cloud_layers a h in
        for_each (seq 0 n) (fun _ records =>
          let records := records ++ ["C1.3"] in
          let? inflag := getattr a "INFLAG" in
          if py_eq inflag 10 then Raise NotImplementedError
          else Ok records) records
      else Ok records
  else Raise UnboundLocalError.

(** ** The instance under a method call

    [attrs] is the attribute dictionary of [self] without the transient read
    cursor, which is kept apart: [lines] is [self.lines] ([None] when the
    attribute is not set) and [read_i] is [self.read_i].  [files] maps the
    directory and name of a file to its content, [cwd] is [Path.cwd()]. *)
Record world := World {
  attrs : obj;
  store : heap;
  lines : option (list string);
  read_i : nat;
  files : gmap (string * string) string;
  cwd : string
}.

Definition set_attrs (a : obj) (w : world) : world :=
  World a (store w) (lines w) (read_i w) (files w) (cwd w).
Definition set_store (h : heap) (w : world) : world :=
  World (attrs w) h (lines w) (read_i w) (files w) (cwd w).
Definition set_lines (ls : option (list string)) (w : world) : world :=
  World (attrs w) (store w) ls (read_i w) (files w) (cwd w).
Definition set_read_i (i : nat) (w : world) : world :=
  World (attrs w) (store w) (lines w) i (files w) (cwd w).
Definition set_files (fs : gmap (string * string) string) (w : world) : world :=
  World (attrs w) (store w) (lines w) (read_i w) fs (cwd w).

(** A method body: it returns or raises, and leaves a world either way. *)
Definition M (A : Type) : Type := world → result A * world.

Definition ret {A} (x : A) : M A := fun w => (Ok x, w).
Definition raise {A} (e : exn) : M A := fun w => (Raise e, w).
Definition bind {A B} (m : M A) (k : A → M B) : M B :=
  fun w => match m w with
           | (Ok x, w') => k x w'
           | (Raise e, w') => (Raise e, w')
           end.
Definition lift {A} (r : result A) : M A := fun w => (r, w).
Definition modify (f : world → world) : M unit := fun w => (Ok tt, f w).
(** An expression that reads [self] and the list objects. *)
Definition eval {A} (f : obj → heap → result A) : M A :=
  fun w => (f (attrs w) (store w), w).

Notation "'let!' x ':=' m 'in' k" := (bind m (fun x => k))
  (at level 10, x name, m at level 100, k at level 200).
Notation "m ';;' k" := (bind m (fun _ => k))
  (at level 100, k at level 200, right associativity).

Fixpoint for_eachM {X} (xs : list X) (body : X → M unit) : M unit :=
  match xs with
  | [] => ret tt
  | x :: xs' => body x;; for_eachM xs' body
  end.

(** [while self.read_i < end_i: body].  Every loop body of the source reads
    a record first, which moves [read_i] forward or raises, so a [fuel] equal
    to the distance to [end_i] is never used up; [Unfinished] marks a loop cut
    short by [fuel], and [read_in_cld_rrtm_finishes] shows it is never the
    outcome. *)
Fixpoint while_read (fuel : nat) (end_i : nat) (body : M unit) : M unit :=
  fun w =>
    if (read_i w <? end_i)%nat then
      match fuel with
      | O => (Raise Unfinished, w)
      | S fuel' =>
        match body w with
        | (Ok _, w') => while_read fuel' end_i body w'
        | (Raise e, w') => (Raise e, w')
        end
      end
    else (Ok tt, w).

(** *** Attribute and list-object primitives *)

(** [setattr(self, key, val)] *)
Definition setattr (k : key) (v : pyval) : M unit :=
  match k with
  | Name n => modify (fun w => set_attrs (<[n := v]> (attrs w)) w)
  | Callable => raise TypeError
  end.

(** [getattr(self, key)] *)
Definition getattr_key (k : key) : M pyval :=
  match k with
  | Name n => eval (fun a _ => getattr a n)
  | Callable => raise TypeError
  end.

(** [[x]]: a new list object. *)
Definition alloc (xs : list pyval) : M pyval :=
  fun w => (Ok (Ref (length (store w))), set_store (store w ++ [xs]) w).

(** [l if type(l) == list else [l]] *)
Definition as_list (l : pyval) : M pyval :=
  if is_list l then ret l else alloc [l].

Definition deref (l : nat) : M (list pyval) :=
  fun w => match store w !! l with
           | Some xs => (Ok xs, w)
           | None => (Raise SystemError, w)
           end.

(** [l.append(x)] on a list object. *)
Definition list_append (l : pyval) (x : pyval) : M unit :=
  match l with
  | Ref p =>
    let! xs := deref p in
    modify (fun w => set_store (<[p := xs ++ [x]]> (store w)) w)
  | Scalar _ => raise AttributeError
  end.

(** [l.pop(0)] on a list object. *)
Definition list_pop0 (p : nat) : M pyval :=
  let! xs := deref p in
  match xs with
  | [] => raise IndexError
  | x :: xs' => modify (fun w => set_store (<[p := xs']> (store w)) w);; ret x
  end.

(** [l[-1]] *)
Definition last_item (l : pyval) : M pyval :=
  match l with
  | Ref p =>
    let! xs := deref p in
    match last xs with
    | Some x => ret x
    | None => raise IndexError
    end
  | Scalar (SStr s) =>
    match last (String.list_ascii_of_string s) with
    | Some c => ret (Scalar (SStr (String c EmptyString)))
    | None => raise IndexError
    end
  | Scalar _ => raise TypeError
  end.

(** [l[-1] = x] *)
Definition set_last_item (l : pyval) (x : pyval) : M unit :=
  match l with
  | Ref p =>
    let! xs := deref p in
    match xs with
    | [] => raise IndexError
    | _ => modify (fun w => set_store (<[p := <[pred (length xs) := x]> xs]> (store w)) w)
    end
  | Scalar _ => raise TypeError
  end.

(** ** [Input.get_input_rrtm_file_bounds] *)

(** [[i for i,s in enumerate(lines) if s[0]==c]], counting from [i]. *)
Fixpoint sentinel_lines (c : ascii) (i : nat) (ls : list string) : result (list nat) :=
  match ls with
  | [] => Ok []
  | s :: rest =>
    match s with
    | EmptyString => Raise IndexError
    | String c0 _ =>
      let? r := sentinel_lines c (S i) rest in
      Ok (if Ascii.eqb c0 c then i :: r else r)
    end
  end.

(** [xs < ys] on lists of ints. *)
Fixpoint list_lt (xs ys : list nat) : bool :=
  match xs, ys with
  | [], [] => false
  | [], _ :: _ => true
  | _ :: _, [] => false
  | x :: xs', y :: ys' =>
    if (x <? y)%nat then true else if (y <? x)%nat then false else list_lt xs' ys'
  end.

(** The message of the [raise] statements of the source is an f-string over
    a name that is bound neither in the function nor in the module ([fpath]
    in the bounds check, [NUMANGS] in the cloud reader): evaluating it
    raises NameError before the exception of the statement is built. *)
Definition raise_with_unbound_name {A} (intended : exn) : result A := Raise NameError.

Definition get_input_rrtm_file_bounds (ls : list string) (file : string)
  : result (nat * nat) :=
  let? starts := sentinel_lines "$"%char 0 ls in
  let? ends := sentinel_lines "%"%char 0 ls in
  let starts := if String.eqb file "in_cld_rrtm" then [0%nat] else starts in
  if (length starts =? length ends)%nat && (length ends =? 1)%nat && list_lt starts ends
  then
    match starts, ends with
    | start_i :: _, end_i :: _ => Ok (start_i, end_i)
    | _, _ => Raise IndexError
    end
  else raise_with_unbound_name IOError.

(** ** Reading records *)

Inductive mode := New | Append | AppendDepth.

#[global] Instance key_eq_dec : EqDecision key.
Proof. solve_decision. Defined.

(** [record[key] = val] on an insertion-ordered dict. *)
Fixpoint dict_set (d : list (key * scalar)) (k : key) (x : scalar) : list (key * scalar) :=
  match d with
  | [] => [(k, x)]
  | (k', x') :: d' =>
    if decide (k' = k) then (k', x) :: d' else (k', x') :: dict_set d' k x
  end.

(** [for key,val in kvs: record[key] = val] *)
Definition dict_update (d : list (key * scalar)) (kvs : list (key * scalar))
  : list (key * scalar) :=
  fold_left (fun d kv => dict_set d kv.1 kv.2) kvs d.

Definition attr (name : string) : M pyval := eval (fun a _ => getattr a name).

(** [self.<name> > 7] *)
Definition attr_gt7 (name : string) : M bool :=
  let! x := attr name in lift (py_gt x 7).

(** [range(self.<name>)] *)
Definition attr_range (name : string) : M (list nat) :=
  let! x := attr name in
  let! n := lift (py_int x) in
  ret (py_range n).

(** [self.lines[self.read_i]] *)
Definition read_line : M string :=
  fun w => match lines w with
           | None => (Raise AttributeError, w)
           | Some ls => match ls !! read_i w with
                        | Some s => (Ok s, w)
                        | None => (Raise IndexError, w)
                        end
           end.

(** [self.read_i += 1] *)
Definition step_line : M unit := modify (fun w => set_read_i (S (read_i w)) w).

(** The three branches of the loop body of [read_record]. *)
Definition assign (md : mode) (k : key) (val : scalar) : M unit :=
  match md with
  | New => setattr k (Scalar val)
  | Append =>
    let! l := getattr_key k in
    let! l := as_list l in
    list_append l (Scalar val);;
    setattr k l
  | AppendDepth =>
    let! l := getattr_key k in
    let! l2 := last_item l in
    let! l2 := as_list l2 in
    list_append l2 (Scalar val);;
    set_last_item l l2;;
    setattr k l
  end.

(** *** [Input.copy]

    [copy.deepcopy] of the Python standard library, on an instance: every
    list object gets a copy at a new place of the store, the copies refer to
    each other as the originals do, and the attributes of the new instance
    refer to the copies. *)
Definition shift (n : nat) (x : pyval) : pyval :=
  match x with
  | Ref l => Ref (l + n)
  | Scalar _ => x
  end.

Definition copy : M obj :=
  fun w =>
    let n := length (store w) in
    let inst : obj := shift n <$> attrs w in
    let copies : heap := (fun xs : list pyval => shift n <$> xs) <$> store w in
    (Ok inst, set_store (store w ++ copies) w).

Section Codec.

(** [FortranRecordReader(fmt).read(s)] and [FortranRecordWriter(fmt).write(vals)]
    of the fortranformat package: [None] when the package raises. *)
Variable reader : string → string → option (list scalar).
Variable writer : string → list pyval → option string.

Variable v : variant.

Definition decode (fmt s : string) : M (list scalar) :=
  lift (match reader fmt s with
        | Some fields => Ok fields
        | None => Raise ReaderError
        end).

Definition read_record (rec : string) (md : mode) : M unit :=
  let! s := read_line in
  let! fmt := eval (fun a _ => get_format v a rec) in
  let! names := eval (fun a _ => get_fields v a rec) in
  let! fields := decode fmt s in
  for_eachM (zip names fields) (fun kv => assign md kv.1 kv.2);;
  step_line.

(** The [while] loop of [read_greedy_record] over the lines from [read_i]
    on; it returns the record and the new [read_i]. *)
Fixpoint greedy_loop (fmt : string) (inames : nat) (rest : list string)
    (names : list key) (record : list (key * scalar)) (i : nat)
  : result (list (key * scalar)) * nat :=
  if (length record <? inames)%nat then
    let names := filter (fun k => k ∉ record.*1) names in
    match rest with
    | [] => (Raise IndexError, i)
    | s :: rest' =>
      match reader fmt s with
      | None => (Raise ReaderError, i)
      | Some fields =>
        greedy_loop fmt inames rest' names (dict_update record (zip names fields)) (S i)
      end
    end
  else (Ok record, i).

Definition read_greedy_record (rec : string) : M unit :=
  let! s := read_line in
  let! fmt := eval (fun a _ => get_format v a rec) in
  let! names := eval (fun a _ => get_fields v a rec) in
  let inames := length names in
  let! fields := decode fmt s in
  let record := dict_update [] (zip names fields) in
  step_line;;
  let! record := (fun w =>
    match lines w with
    | None => (Raise AttributeError, w)
    | Some ls =>
      let '(r, i) := greedy_loop fmt inames (drop (read_i w) ls) names record (read_i w) in
      (r, set_read_i i w)
    end) in
  for_eachM record (fun kv => setattr kv.1 (Scalar kv.2)).

(** [mode='new' if i==0 else 'append'] *)
Definition mode_at (i : nat) : mode := if (i =? 0)%nat then New else Append.

(** The cross-section records of the layer branch of [read_input_rrtm]
    (its [if self.IXSECT == 1:] under [if self.IATM == 0:]). *)
Definition read_layer_cross_sections : M unit :=
  let! ixsect := attr "IXSECT" in
  if py_eq ixsect 1 then
    read_record "2.2" New;;
    read_record "2.2.1" New;;
    read_record "2.2.2" New;;
    let! layers := attr_range "NLAYRS" in
    for_eachM layers (fun i =>
      read_record "2.2.3" (mode_at i);;
      read_record "2.2.4" (mode_at i);;
      let! c := attr_gt7 "IXMOLS" in
      if c then read_record "2.2.5" (mode_at i) else ret tt)
  else ret tt.

Definition read_input_rrtm (flines : list string) : M unit :=
  modify (set_lines (Some flines));;
  let! bounds := lift (get_input_rrtm_file_bounds flines "input_rrtm") in
  modify (set_read_i bounds.1);;
  read_record "1.1" New;;
  read_record "1.2" New;;
  read_record "1.4" New;;
  let! iatm := attr "IATM" in
  (if py_eq iatm 0 then
     read_record "2.1" New;;
     let! layers := attr_range "NLAYRS" in
     for_eachM layers (fun i =>
       read_record "2.1.1" (mode_at i);;
       read_record "2.1.2" (mode_at i);;
       let! c := attr_gt7 "NMOL" in
       if c then read_record "2.1.3" (mode_at i) else ret tt);;
     read_layer_cross_sections
   else if py_eq iatm 1 then
     read_record "3.1" New;;
     read_record "3.2" New;;
     let! ibmax := attr "IBMAX" in
     (if py_eq ibmax 0 then read_record "3.3A" New else read_greedy_record "3.3B");;
     let! model := attr "MODEL" in
     (if py_eq model 0 then
        read_record "3.4" New;;
        let! levels := attr_range "IMMAX" in
        for_eachM levels (fun i =>
          read_record "3.5" (mode_at i);;
          read_record "3.6.1" (mode_at i))
      else ret tt);;
     let! ixsect := attr "IXSECT" in
     if py_eq ixsect 1 then
       read_record "3.7" New;;
       read_record "3.7.1" New;;
       let! iprfl := attr "IPRFL" in
       if py_eq iprfl 0 then
         read_record "3.8" New;;
         let! layers := attr_range "LAYX" in
         for_eachM layers (fun i =>
           read_record "3.8.1" (mode_at i);;
           read_record "3.8.2" (mode_at i))
       else ret tt
     else ret tt
   else ret tt);;
  (* [warnings.warn] when [read_i != end_i]: no effect on the instance *)
  modify (set_lines None).

(** The derived field NSTR of [read_in_cld_rrtm]. *)
Definition compute_NSTR : M unit :=
  setattr (Name "NSTR") (Scalar (SInt 0));;
  let! iscat := attr "ISCAT" in
  if py_eq iscat 1 || py_eq iscat 2 then
    let! numangs := attr "NUMANGS" in
    if py_eq numangs 0 then setattr (Name "NSTR") (Scalar (SInt 4))
    else if py_eq numangs 1 then setattr (Name "NSTR") (Scalar (SInt 8))
    else if py_eq numangs 2 then setattr (Name "NSTR") (Scalar (SInt 16))
    else lift (raise_with_unbound_name ValueError)
  else ret tt.

Definition read_in_cld_rrtm (flines : list string) : M unit :=
  modify (set_lines (Some flines));;
  let! bounds := lift (get_input_rrtm_file_bounds flines "in_cld_rrtm") in
  let end_i := bounds.2 in
  modify (set_read_i bounds.1);;
  compute_NSTR;;
  read_record "C1.1" New;;
  let! inflag := attr "INFLAG" in
  (if py_eq inflag 1 || py_eq inflag 2 then
     read_record "C1.2" New;;
     while_read end_i end_i (read_record "C1.2" Append)
   else if py_eq inflag 0 || py_eq inflag 10 then
     read_record "C1.3" New;;
     while_read end_i end_i
       (read_record "C1.3" Append;;
        let! inflag := attr "INFLAG" in
        if py_eq inflag 10 then
          for_eachM (seq 0 15) (fun _ => read_record "C1.3a" AppendDepth)
        else ret tt)
   else ret tt);;
  (* [warnings.warn] when [read_i != end_i]: no effect on the instance *)
  modify (set_lines None).

(** ** Writing records *)

Fixpoint mapM {X Y} (f : X → M Y) (xs : list X) : M (list Y) :=
  match xs with
  | [] => ret []
  | x :: xs' =>
    let! y := f x in
    let! ys := mapM f xs' in
    ret (y :: ys)
  end.

Definition encode (fmt : string) (vals : list pyval) : M string :=
  lift (match writer fmt vals with
        | Some line => Ok line
        | None => Raise WriterError
        end).

(** The value [write_record] takes from one field: it pops a list. *)
Definition take_value (k : key) : M pyval :=
  let! x := getattr_key k in
  match x with
  | Ref p => list_pop0 p
  | Scalar _ => ret x
  end.

Definition write_record (rec : string) : M string :=
  let! fmt := eval (fun a _ => get_format v a rec) in
  let! names := eval (fun a _ => get_fields v a rec) in
  let! vals := mapM take_value names in
  encode fmt vals.

(** The str ['\n']. *)
Definition newline : string := String "010"%char EmptyString.

(** [open(fpath,'w')] (the directory is taken to exist) and [f.write(text)]. *)
Definition fopen (fpath : string * string) : M unit :=
  modify (fun w => set_files (<[fpath := ""]> (files w)) w).
Definition fwrite (fpath : string * string) (text : string) : M unit :=
  modify (fun w => set_files (<[fpath := default "" (files w !! fpath) +:+ text]> (files w)) w).

(** A method called on another instance [inst] than [self]: it runs on the
    same list objects and files, and [self] keeps its attributes. *)
Definition call_on {A} (inst : obj) (m : M A) : M (A * obj) :=
  fun w =>
    let '(r, w') := m (set_attrs inst w) in
    (match r with
     | Ok x => Ok (x, attrs w')
     | Raise e => Raise e
     end, set_attrs (attrs w) w').

(** [for rec in records: line = rundupe.write_record(rec); f.write(line+'
')] *)
Fixpoint write_lines (fpath : string * string) (records : list string) (rundupe : obj)
  : M unit :=
  match records with
  | [] => ret tt
  | rec :: rest =>
    let! out := call_on rundupe (write_record rec) in
    fwrite fpath (out.1 +:+ newline);;
    write_lines fpath rest out.2
  end.

Definition write_input_rrtm (fpath : string * string) : M unit :=
  let! records := eval (fun a h => get_explicit_record_order a h "input_rrtm") in
  let! rundupe := copy in
  fopen fpath;;
  fwrite fpath newline;;
  fwrite fpath newline;;
  fwrite fpath ("file auto-generated by parserrtm" +:+ newline);;
  write_lines fpath records rundupe;;
  fwrite fpath "%".

Definition write_in_cld_rrtm (fpath : string * string) : M unit :=
  let! records := eval (fun a h => get_explicit_record_order a h "in_cld_rrtm") in
  let! rundupe := copy in
  fopen fpath;;
  write_lines fpath records rundupe;;
  fwrite fpath ("%" +:+ newline);;
  fwrite fpath "file auto-generated by parserrtm".

Definition write_in_aer_rrtm (fpath : string * string) : M unit :=
  let! records := eval (fun a h => get_explicit_record_order a h "in_aer_rrtm") in
  let! rundupe := copy in
  fopen fpath;;
  write_lines fpath records rundupe;;
  fwrite fpath ("%" +:+ newline);;
  fwrite fpath "file auto-generated by parserrtm".

(** [Input.write]; [fpath] is [None] or a directory. *)
Definition write (fpath : option string) (file : string) : M unit :=
  let! files :=
    (if String.eqb file "auto" then
       let files := ["input_rrtm"] in
       let! icld := attr "ICLD" in
       let! c := lift (py_gt icld 0) in
       let files := if c then files ++ ["in_cld_rrtm"] else files in
       let! iaer := attr "IAER" in
       let! c := lift (py_gt iaer 0) in
       ret (if c then files ++ ["in_aer_rrtm"] else files)
     else ret []) in
  let! fpath := match fpath with
                | None => fun w => (Ok (cwd w), w)
                | Some d => ret d
                end in
  let fpaths := [ ("input_rrtm",  (fpath, "INPUT_RRTM"));
                  ("in_cld_rrtm", (fpath, "IN_CLD_RRTM"));
                  ("in_aer_rrtm", (fpath, "IN_AER_RRTM")) ] in
  let methods := [ ("input_rrtm",  write_input_rrtm);
                   ("in_aer_rrtm", write_in_cld_rrtm);
                   ("in_cld_rrtm", write_in_aer_rrtm) ] in
  for_eachM files (fun file =>
    let! method := lift (dict_get methods file) in
    let! path := lift (dict_get fpaths file) in
    method path).

End Codec.

(** ** A plain-text codec for examples

    Stand-ins for the fortranformat package in closed examples: a line is a
    row of blank-separated tokens, a token of digits is an int. *)

Definition digits_to_Z (s : string) : option Z :=
  foldl (fun acc c => n ← acc; d ← Ascii.is_nat c; Some (10 * n + Z.of_nat d)%Z)
        (Some 0) (String.list_ascii_of_string s).

Definition token_value (s : string) : scalar :=
  match digits_to_Z s with
  | Some n => SInt n
  | None => SStr s
  end.

Definition demo_reader (fmt s : string) : option (list scalar) :=
  Some (token_value <$> String.words s).

Definition demo_show (x : pyval) : string :=
  match x with
  | Scalar (SInt z) => pretty z
  | Scalar (SStr s) => s
  | Scalar (SFloat _) => "float"
  | Ref _ => "list"
  end.

Definition demo_writer (fmt : string) (vals : list pyval) : option string :=
  Some (String.concat " " (demo_show <$> vals)).

(** A line without its final newline, and the plain-text reader on lines as
    [readlines] gives them. *)
Fixpoint chomp (s : string) : string :=
  match s with
  | EmptyString => EmptyString
  | String c EmptyString => if Ascii.eqb c "010" then EmptyString else s
  | String c s' => String c (chomp s')
  end.

Definition demo_line_reader (fmt s : string) : option (list scalar) :=
  demo_reader fmt (chomp s).

Definition int (z : Z) : pyval := Scalar (SInt z).

Definition empty_world : world := World ∅ [] None 0 ∅ ".".

(** A primary file with IATM=0, NLAYRS=2, NMOL=7 and ICLD=1. *)
Definition two_layer_file : list string :=
  [ "comment";
    "$ demo";
    "0 0 0 0 0 1";
    "300 0 0 1 1 1 1 1 1 1 1 1 1 1 1 1 1 1 1";
    "0 2 7";
    "11 12 13 14 15 16";
    "21 22 23 24 25 26 27 28";
    "31 32 33 34 35 36";
    "41 42 43 44 45 46 47 48";
    "%" ].

(** The longwave Document read from it, with IAER set as [from_dict] does. *)
Definition two_layer_world : world :=
  let w := (read_input_rrtm demo_reader LW two_layer_file empty_world).2 in
  set_attrs (<["IAER" := int 0]> (attrs w)) w.


(** A cloud file with INFLAG=10 and one cloudy layer. *)
Definition spectral_cloud_file : list string := ["10 0 0"; "A 1 5 6 7"; "%"].

(** A Document with INFLAG=10 and an empty list of cloudy layers. *)
Definition no_cloud_layers : obj := <["INFLAG" := int 10]> (<["LAY" := Ref 0]> ∅).

(** Two lines of eight boundary values each. *)
Definition boundary_lines : list string :=
  ["1 2 3 4 5 6 7 8"; "9 10 11 12 13 14 15 16"; "%"].

(** A Document with two cloudy layers. *)
Definition two_cloud_layers : obj := <["INFLAG" := int 0]> (<["LAY" := Ref 0]> ∅).
Definition two_cloud_store : heap := [[int 1; int 2]].

(** A Document whose scattering flags are out of range. *)
Definition bad_angles_world : world :=
  World (<["ISCAT" := int 1]> (<["NUMANGS" := int 3]> ∅)) [] None 0 ∅ ".".

(** How many lines a record of the logical order stands for: its resolved
    [record_len] when it is a repeated record, one line otherwise. *)
Definition occurrences (a : obj) (h : heap) (rec : string) : nat :=
  if islist rec then
    match record_len a h rec with
    | Ok (Scalar (SInt n)) => Z.to_nat n
    | _ => 0%nat
    end
  else 1%nat.

(** A Document with IATM=0 and no layer. *)
Definition no_layers : obj :=
  <["IATM" := int 0]> (<["NLAYRS" := int 0]> (<["NMOL" := int 7]>
    (<["IXSECT" := int 0]> ∅))).

(** No record order lists the sub-record C1.3a. *)
Definition no_C1_3a (records : list string) : Prop := "C1.3a" ∉ records.

#[local] Instance no_C1_3a_dec (records : list string) : Decision (no_C1_3a records).
Proof. unfold no_C1_3a. apply _. Defined.

(** The explicit order has one line for each record of the logical order
    that is not repeated and [record_len] lines for each that is: for the
    primary file, and for the cloud file when INFLAG is neither 0 nor 10. *)
Definition expanding (a : obj) (file : string) : Prop :=
  file = "input_rrtm"
  ∨ (file = "in_cld_rrtm"
     ∧ ∃ x, a !! "INFLAG" = Some x ∧ py_eq x 0 || py_eq x 10 = false).

(** The format of a per-layer record when IFORM is [iform]. *)
Definition layer_format (rec : string) (iform : scalar) : string :=
  match get_format LW (<["IFORM" := Scalar iform]> ∅) rec with
  | Ok fmt => fmt
  | Raise _ => ""
  end.

(** The field names of the records of the layer branch (longwave). *)
Definition names_1_1 : list string := ["CXID"].
Definition names_1_2 : list string :=
  ["IATM"; "IXSECT"; "ISCAT"; "NUMANGS"; "IOUT"; "ICLD"].
Definition names_1_4 : list string :=
  ["TBOUND"; "IEMIS"; "IREFLECT"] ++ (indexed "SEMISS" <$> seqZ 1 16).
Definition names_2_1 : list string := ["IFORM"; "NLAYRS"; "NMOL"].
Definition names_2_1_1 : list string :=
  ["PAVE"; "TAVE"; "PZ(L-1)"; "TZ(L-1)"; "PZ(L)"; "TZ(L)"].
Definition names_2_1_2 : list string :=
  ["WKL(1,L)"; "WKL(2,L)"; "WKL(3,L)"; "WKL(4,L)"; "WKL(5,L)"; "WKL(6,L)";
   "WKL(7,L)"; "WBROAD(L)"].

(** Field [name] holds a list of the two scalars [x] and [y]. *)
Definition holds_pair (w : world) (name : string) (x y : scalar) : Prop :=
  ∃ p, attrs w !! name = Some (Ref p) ∧ store w !! p = Some [Scalar x; Scalar y].

(** [w] agrees with [w0] on the fields [K] and on the list objects of [w0]
    from place [n0] on, and no other field of [w] refers to one of these. *)
Definition protects (K : list string) (n0 : nat) (w0 w : world) : Prop :=
  (∀ name, name ∈ K → attrs w !! name = attrs w0 !! name)
  ∧ (∀ p, (n0 ≤ p < length (store w0))%nat → store w !! p = store w0 !! p)
  ∧ (∀ name p, name ∉ K → attrs w !! name = Some (Ref p) →
       (p < n0 ∨ length (store w0) ≤ p)%nat)
  ∧ (length (store w0) ≤ length (store w))%nat.

(** Every list an attribute refers to exists. *)
Definition closed_attrs (w : world) : Prop :=
  ∀ name p, attrs w !! name = Some (Ref p) → (p < length (store w))%nat.

(** The per-layer fields and the control fields that select them. *)
Definition layer_fields : list string :=
  names_2_1_1 ++ names_2_1_2 ++ ["IATM"; "IXSECT"; "IFORM"; "NLAYRS"; "NMOL"].

(** How often record [rec] occurs in an order. *)
Definition occurs (rec : string) (records : list string) : nat :=
  length (filter (fun r => r = rec) records).

#[global] Instance exn_eq_dec : EqDecision exn.
Proof. solve_decision. Defined.

(** The exceptions reading a record can end in, and those reading a file can
    end in. *)
Definition record_exns : list exn :=
  [AttributeError; IndexError; KeyError; TypeError; ReaderError; SystemError].

Definition read_exns : list exn := NameError :: record_exns.

Definition raises_within {A} (allowed : list exn) (r : result A) : Prop :=
  match r with
  | Ok _ => True
  | Raise e => e ∈ allowed
  end.

(** A method body that leaves the read cursor ([lines] and [read_i]) alone,
    one that may only move [read_i] forward, and never past the last line,
    and one that does move it forward when it returns. *)
Definition steady {A} (m : M A) : Prop :=
  ∀ w, raises_within record_exns (m w).1
       ∧ read_i (m w).2 = read_i w
       ∧ lines (m w).2 = lines w.

Definition forward {A} (m : M A) : Prop :=
  ∀ w, raises_within record_exns (m w).1
       ∧ (read_i w ≤ read_i (m w).2)%nat
       ∧ lines (m w).2 = lines w
       ∧ (∀ ls, lines w = Some ls → (read_i w ≤ length ls)%nat →
            (read_i (m w).2 ≤ length ls)%nat).

Definition advancing (m : M unit) : Prop :=
  forward m ∧ ∀ w, (m w).1 = Ok tt → (read_i w < read_i (m w).2)%nat.

(** A method body that reads one line: [read_i] is one more when it returns
    and unchanged when it raises. *)
Definition stepping (m : M unit) : Prop :=
  ∀ w, lines (m w).2 = lines w
       ∧ match (m w).1 with
         | Ok _ => read_i (m w).2 = S (read_i w)
         | Raise e => read_i (m w).2 = read_i w ∧ e ∈ record_exns
         end.

(** A method body that leaves [self.lines] alone, and keeps [read_i] within
    the lines. *)
Definition quiet {A} (m : M A) : Prop :=
  ∀ w, raises_within read_exns (m w).1
       ∧ lines (m w).2 = lines w
       ∧ (∀ ls, lines w = Some ls → (read_i w ≤ length ls)%nat →
            (read_i (m w).2 ≤ length ls)%nat).

(** A reader body run while [self.lines] is [flines]: it deletes the
    attribute when it returns, with [read_i] within the lines, and leaves it
    when it raises. *)
Definition closing (flines : list string) (m : M unit) : Prop :=
  ∀ w, lines w = Some flines → (read_i w ≤ length flines)%nat →
       match (m w).1 with
       | Ok _ => lines (m w).2 = None ∧ (read_i (m w).2 ≤ length flines)%nat
       | Raise e => e ∈ read_exns ∧ lines (m w).2 = Some flines
       end.

(** [ceil(n / k)] *)
Definition ceil_div (n k : nat) : nat := ((n + k - 1) / k)%nat.

(** [for name,val in kvs: setattr(self,name,val)] on the attributes. *)
Definition assigned (a : obj) (kvs : list (string * scalar)) : obj :=
  foldl (fun a kv => <[kv.1 := Scalar kv.2]> a) a kvs.

(** [read_record] in mode 'append' on a field that holds a scalar [x]: the
    field becomes a new list [[x, val]]. *)
Definition append_one (ah : obj * heap) (kv : string * scalar) : obj * heap :=
  match ah.1 !! kv.1 with
  | Some (Scalar x) =>
    (<[kv.1 := Ref (length ah.2)]> ah.1, ah.2 ++ [[Scalar x; Scalar kv.2]])
  | _ => ah
  end.

Definition appended (ah : obj * heap) (kvs : list (string * scalar)) : obj * heap :=
  foldl append_one ah kvs.






(** The last character of a str. *)
Fixpoint last_char (s : string) : option ascii :=
  match s with
  | EmptyString => None
  | String c EmptyString => Some c
  | String _ s' => last_char s'
  end.

(** A method body that does not create the attribute [name], and one that
    raises whenever the instance has no attribute [name]. *)
Definition lacks (name : string) {A} (m : M A) : Prop :=
  ∀ w, attrs w !! name = None → attrs (m w).2 !! name = None.

Definition fails_without (name : string) {A} (m : M A) : Prop :=
  ∀ w, attrs w !! name = None → ∃ e, (m w).1 = Raise e.

(** ** [Input.from_dict] *)

(** [sub in s] on strs. *)
Fixpoint str_in (sub s : string) : bool :=
  String.prefix sub s
  || match s with
     | EmptyString => false
     | String _ s' => str_in sub s'
     end.

(** [hasattr(self, key)] *)
Definition hasattr (k : key) : M bool :=
  match k with
  | Name n => eval (fun a _ => Ok (bool_decide (is_Some (a !! n))))
  | Callable => raise TypeError
  end.

(** [if not hasattr(self,name): setattr(self,name,default)] *)
Definition set_default (k : key) (default : pyval) : M unit :=
  let! has := hasattr k in
  if has then ret tt else setattr k default.

(** [" " if 'CHAR' in name else 0] *)
Definition field_default (k : key) : pyval :=
  match k with
  | Name n => if str_in "CHAR" n then Scalar (SStr " ") else Scalar (SInt 0)
  | Callable => Scalar (SInt 0)
  end.

(** The block of [from_dict] that is written out once for each kind of file:
    every field of every record of the logical order gets its default when
    the instance does not have it. *)
Definition fill_fields (v : variant) (file : string) : M unit :=
  let! records := eval (fun a h => get_logical_record_order a h file) in
  for_eachM records (fun record =>
    let! names := eval (fun a _ => get_fields v a record) in
    for_eachM names (fun name => set_default name (field_default name))).

(** The [if not lazy:] block of [from_dict], which ends in [return self]. *)
Definition fill_defaults (v : variant) (file : string) : M bool :=
  for_eachM ["IATM"; "ICLD"; "IAER"; "NMOL"; "IXSECT"; "IXMOLS"; "IBMAX"; "MODEL";
             "IXSECT"; "IPRFL"]
    (fun name => set_default (Name name)
                   (Scalar (SInt (if String.eqb name "NMOL" then 7 else 0))));;
  fill_fields v "input_rrtm";;
  (if bool_decide (file ∈ ["cld"; "aercld"]) then
     for_eachM ["INFLAG"] (fun name => set_default (Name name) (Scalar (SInt 0)));;
     fill_fields v "in_cld_rrtm"
   else ret tt);;
  (if bool_decide (file ∈ ["aer"; "aercld"]) then
     for_eachM ["INFLAG"] (fun name => set_default (Name name) (Scalar (SInt 0)));;
     fill_fields v "in_aer_rrtm"
   else ret tt);;
  ret true.

(** [from_dict]; [args] is a dict keyed by str.  The method returns [self]
    ([true]) at the end of its [if not lazy:] block, and [None] ([false])
    when [lazy] is set.  A key 'lines' or 'read_i' of [args] is stored in
    [attrs] like any other; [from_dict] reads neither, and the read cursor of
    the model, which a reader sets anew, is kept apart from [attrs]. *)
Definition from_dict (v : variant) (args : list (string * pyval)) (file : string)
    (lazy : bool) : M bool :=
  for_eachM args (fun kv => setattr (Name kv.1) kv.2);;
  if lazy then ret false else fill_defaults v file.

(** The attributes after [for name,value in args.items(): setattr(self,name,value)]. *)
Definition supplied (a : obj) (args : list (string * pyval)) : obj :=
  foldl (fun a kv => <[kv.1 := kv.2]> a) a args.

(** The instance has every field of every record of the logical order of
    [file]. *)
Definition complete (v : variant) (w : world) (file : string) : Prop :=
  ∃ L, get_logical_record_order (attrs w) (store w) file = Ok L
       ∧ ∀ rec, rec ∈ L →
           ∃ names, get_fields v (attrs w) rec = Ok (Name <$> names)
                    ∧ ∀ n, n ∈ names → is_Some (attrs w !! n).

(** A method body that only adds attributes and touches nothing else. *)
Definition adding {A} (m : M A) : Prop :=
  ∀ w, attrs w ⊆ attrs (m w).2
       ∧ store (m w).2 = store w
       ∧ lines (m w).2 = lines w
       ∧ read_i (m w).2 = read_i w
       ∧ files (m w).2 = files w
       ∧ cwd (m w).2 = cwd w.

(** An instance without cloudy layers: no LAY, or the default a missing field
    gets, and INFLAG missing, 0 or 10. *)
Definition cloudless (a : obj) : Prop :=
  (a !! "LAY" = None ∨ a !! "LAY" = Some (int 0))
  ∧ (a !! "INFLAG" = None ∨ a !! "INFLAG" = Some (int 0) ∨ a !! "INFLAG" = Some (int 10)).

(** A method body that never returns. *)
Definition always_raises {A} (m : M A) : Prop := ∀ w, ∃ e, (m w).1 = Raise e.

(** A method body that raises on every instance with property [P], and one
    that keeps [P]. *)
Definition raises_on (P : obj → Prop) {A} (m : M A) : Prop :=
  ∀ w, P (attrs w) → ∃ e, (m w).1 = Raise e.

Definition preserves (P : obj → Prop) {A} (m : M A) : Prop :=
  ∀ w, P (attrs w) → P (attrs (m w).2).

(** ** [Input.broadcast_scalars] *)

(** [[val]*length]: a new list object; a length that is not an int raises
    TypeError, and a negative one gives the empty list. *)
Definition repeat_list (val length : pyval) : M pyval :=
  match length with
  | Scalar (SInt n) => alloc (replicate (Z.to_nat n) val)
  | _ => raise TypeError
  end.

(** The value of [files] the loop of [broadcast_scalars] runs over.  For
    'gas' it is the str ['input_rrtm'] (parentheses make no tuple), which the
    loop takes character by character; for 'aercld' the statement is a
    comparison [files == ...] on a name that is not bound yet. *)
Definition broadcast_files (file : string) : result (list string) :=
  if String.eqb file "cld" then Ok ["input_rrtm"; "in_cld_rrtm"]
  else if String.eqb file "gas" then
    Ok ((fun c => String c EmptyString) <$> String.list_ascii_of_string "input_rrtm")
  else if String.eqb file "aer" then Ok ["input_rrtm"; "in_aer_rrtm"]
  else if String.eqb file "aercld" then Raise UnboundLocalError
  else Ok [file].

(** The body of [for name in names:]. *)
Definition broadcast_field (length : pyval) (name : key) : M unit :=
  let! val := getattr_key name in
  if is_list val then ret tt
  else
    let! l := repeat_list val length in
    setattr name l.

Definition broadcast_scalars (v : variant) (file : string) : M unit :=
  let! files := lift (broadcast_files file) in
  for_eachM files (fun file =>
    let! records := eval (fun a h => get_logical_record_order a h file) in
    for_eachM records (fun record =>
      if islist record then
        let! length := eval (fun a h => record_len a h record) in
        let! names := eval (fun a _ => get_fields v a record) in
        for_eachM names (broadcast_field length)
      else ret tt)).

(** What broadcasting may do to the instance [w0]: the list objects of [w0]
    are as they were, a field that held a list holds the same list, a field
    that held a scalar holds it still or holds a new list of copies of it,
    and no field is added. *)
Definition broadcast_of (w0 w : world) : Prop :=
  (∀ p xs, store w0 !! p = Some xs → store w !! p = Some xs)
  ∧ (length (store w0) ≤ length (store w))%nat
  ∧ ∀ name,
      match attrs w0 !! name with
      | None => attrs w !! name = None
      | Some (Ref p) => attrs w !! name = Some (Ref p)
      | Some (Scalar x) =>
        attrs w !! name = Some (Scalar x)
        ∨ ∃ p n, attrs w !! name = Some (Ref p)
                 ∧ (length (store w0) ≤ p)%nat
                 ∧ store w !! p = Some (replicate n (Scalar x))
      end.

(** [s[0] == c] on a line that is not empty. *)
Definition starts_with (c : ascii) (s : string) : Prop :=
  match s with
  | String c0 _ => c0 = c
  | EmptyString => False
  end.

(** The deep copy of the instance, as the [self] of a method called on it. *)
Definition copied (w : world) : world :=
  let '(r, w1) := copy w in
  match r with
  | Ok inst => set_attrs inst w1
  | Raise _ => w1
  end.

(** A method body that neither reads nor writes a file. *)
Definition ignores_files {A} (m : M A) : Prop :=
  ∀ F w, m (set_files F w) = ((m w).1, set_files F (m w).2).

(** The text of a file made by the [f.write] calls with these arguments. *)
Definition text_of (pieces : list string) : string := foldr String.append "" pieces.

(** * Properties *)

(** ** Running method bodies *)

Lemma attr_run (w : world) (name : string) (x : pyval) :
  attrs w !! name = Some x → attr name w = (Ok x, w).
Proof. intros H. unfold attr, eval, getattr. by rewrite H. Qed.

Lemma attr_run_missing (w : world) (name : string) :
  attrs w !! name = None → attr name w = (Raise AttributeError, w).
Proof. intros H. unfold attr, eval, getattr. by rewrite H. Qed.

Lemma setattr_run (w : world) (name : string) (x : pyval) :
  setattr (Name name) x w = (Ok tt, set_attrs (<[name := x]> (attrs w)) w).
Proof. reflexivity. Qed.

(** ** Record orders *)

Lemma for_each_app {X S} (xs ys : list X) (body : X → S → result S) (s : S) :
  for_each (xs ++ ys) body s = let? s' := for_each xs body s in for_each ys body s'.
Proof.
  revert s; induction xs as [|x xs IH]; intros s; simpl; [done|].
  destruct (body x s); simpl; auto.
Qed.

(** For the primary file the logical order lists no record twice. *)
Lemma logical_order_primary_NoDup (a : obj) (h : heap) (L : list string) :
  get_logical_record_order a h "input_rrtm" = Ok L → NoDup L.
Proof.
  unfold get_logical_record_order, append_if_gt7; simpl.
  repeat match goal with
         | |- context [getattr a ?n] => destruct (getattr a n) as [?|?]; simpl
         | |- context [py_gt ?x ?c] => destruct (py_gt x c) as [[]|?]; simpl
         | |- context [py_eq ?x ?c] => destruct (py_eq x c); simpl
         end;
    intros [= <-] || discriminate;
    by apply (bool_decide_unpack _); vm_compute.
Qed.

(** C3 (code at the failing input): with INFLAG=0 and two cloudy layers the
    logical order of the cloud file lists record C1.3 twice, although the
    method documents that the logical order has no repeated records. *)
Lemma logical_order_repeats_cloud_record :
  get_logical_record_order two_cloud_layers two_cloud_store "in_cld_rrtm"
    = Ok ["C1.1"; "C1.3"; "C1.3"]
  ∧ ¬ NoDup ["C1.1"; "C1.3"; "C1.3"].
Proof.
  split; [reflexivity|].
  intros H; apply NoDup_cons in H as [_ H]; apply NoDup_cons in H as [H _].
  apply H; left.
Qed.

Lemma rbind_Ok {A B} (m : result A) (k : A → result B) (y : B) :
  rbind m k = Ok y → ∃ x, m = Ok x ∧ k x = Ok y.
Proof. destruct m; cbn; [eauto|discriminate]. Qed.

Lemma for_each_invariant {X S} (P : S → Prop) (xs : list X)
    (body : X → S → result S) (s s' : S) :
  (∀ x s1 s2, P s1 → body x s1 = Ok s2 → P s2) →
  P s → for_each xs body s = Ok s' → P s'.
Proof.
  intros Hbody. revert s; induction xs as [|x xs IH]; intros s Hs; cbn.
  - by intros [= <-].
  - intros (s1 & H1 & H2)%rbind_Ok. eauto.
Qed.


Lemma no_C1_3a_app (records rs : list string) :
  no_C1_3a records → bool_decide (no_C1_3a rs) = true → no_C1_3a (records ++ rs).
Proof.
  unfold no_C1_3a. intros H1 H2%bool_decide_eq_true. by apply not_elem_of_app.
Qed.

Lemma append_if_gt7_no_C1_3a (a : obj) (name r : string) (records L : list string) :
  bool_decide (no_C1_3a [r]) = true →
  no_C1_3a records → append_if_gt7 a name r records = Ok L → no_C1_3a L.
Proof.
  intros Hr Hrec. unfold append_if_gt7.
  intros (x & _ & (c & _ & [= <-])%rbind_Ok)%rbind_Ok.
  destruct c; [by apply no_C1_3a_app|done].
Qed.

Ltac order_step :=
  match goal with
  | H : append_if_gt7 _ _ _ _ = Ok ?L |- _ =>
    assert (no_C1_3a L);
    [revert H; apply append_if_gt7_no_C1_3a; [reflexivity|] | clear H]
  | H : layer_records _ _ _ _ _ _ = Ok ?L |- _ =>
    assert (no_C1_3a L);
    [revert H; apply append_if_gt7_no_C1_3a; [reflexivity|] | clear H]
  | H : for_each _ _ _ = Ok ?L |- _ =>
    assert (no_C1_3a L); [revert H; apply for_each_invariant | clear H]
  | H : (let? _ := _ in _) = Ok _ |- _ => apply rbind_Ok in H as (? & ? & ?)
  | H : (if ?b then _ else _) = Ok _ |- _ => destruct b
  | H : Ok _ = Ok _ |- _ => injection H as <-
  | H : Raise _ = Ok _ |- _ => discriminate H
  | |- context [getattr ?a ?n] => destruct (getattr a n) as [?|?]; cbn [rbind]
  | |- context [py_int ?x] => destruct (py_int x) as [?|?]; cbn [rbind]
  | |- context [py_len ?h ?x] => destruct (py_len h x) as [?|?]; cbn [rbind]
  | |- context [cloud_layers ?a ?h] => destruct (cloud_layers a h) as [?|?]; cbn [rbind]
  | |- context [py_eq ?x ?c] => destruct (py_eq x c); cbn [orb]
  | |- context [append_if_gt7 ?a ?n ?r ?rs] =>
    destruct (append_if_gt7 a n r rs) as [?|?] eqn:?; cbn [rbind]
  | |- context [for_each ?xs ?body ?s] =>
    destruct (for_each xs body s) as [?|?] eqn:?; cbn [rbind]
  | |- Ok _ = Ok _ → _ => intros [= <-]
  | |- Raise _ = Ok _ → _ => discriminate
  | |- no_C1_3a (_ ++ _) => apply no_C1_3a_app; [|reflexivity]
  | |- no_C1_3a _ => assumption
  | |- no_C1_3a _ => by apply (bool_decide_unpack _); vm_compute
  | |- ∀ _, _ => intro
  end.

Lemma orders_never_list_C1_3a (a : obj) (h : heap) (file : string) (L : list string) :
  get_logical_record_order a h file = Ok L ∨ get_explicit_record_order a h file = Ok L →
  no_C1_3a L.
Proof.
  unfold get_logical_record_order, get_explicit_record_order.
  destruct (String.eqb file "input_rrtm"); [|destruct (String.eqb file "in_cld_rrtm")];
    intros [H|H]; revert H; repeat order_step.
Qed.

Lemma get_format_C1_3a (v : variant) (a : obj) :
  get_format v a "C1.3a" = Raise KeyError.
Proof. by destruct v. Qed.

(** Where the orders do refuse the spectral cloud section: with INFLAG=10,
    [get_explicit_record_order] for the cloud file raises NotImplementedError
    when LAY is a scalar or a list that is not empty, and
    [get_logical_record_order] does when LAY is a list (or str) that is not
    empty; no order lists C1.3a, and [read_record] and [write_record] on the
    key 'C1.3a' raise before they decode or encode anything. *)
Theorem spectral_cloud_orders_not_implemented (a : obj) (h : heap) :
  a !! "INFLAG" = Some (int 10) →
  (∀ n, cloud_layers a h = Ok (S n) →
     get_explicit_record_order a h "in_cld_rrtm" = Raise NotImplementedError)
  ∧ (∀ lay n, a !! "LAY" = Some lay → py_len h lay = Ok (S n) →
     get_logical_record_order a h "in_cld_rrtm" = Raise NotImplementedError)
  ∧ (∀ a' h' file L,
       get_logical_record_order a' h' file = Ok L
       ∨ get_explicit_record_order a' h' file = Ok L →
       "C1.3a" ∉ L)
  ∧ (∀ reader writer v md w,
       (∃ e, read_record reader v "C1.3a" md w = (Raise e, w))
       ∧ write_record writer v "C1.3a" w = (Raise KeyError, w)).
Proof.
  intros Hflag. repeat split.
  - intros n Hn. unfold get_explicit_record_order.
    destruct (String.eqb_spec "in_cld_rrtm" "input_rrtm"); [discriminate|].
    destruct (String.eqb_spec "in_cld_rrtm" "in_cld_rrtm"); [|done].
    unfold getattr at 1. rewrite Hflag. cbn [rbind py_eq int Z.eqb orb].
    rewrite Hn. cbn [rbind seq for_each]. unfold getattr. by rewrite Hflag.
  - intros lay n Hlay Hn. unfold get_logical_record_order.
    destruct (String.eqb_spec "in_cld_rrtm" "input_rrtm"); [discriminate|].
    destruct (String.eqb_spec "in_cld_rrtm" "in_cld_rrtm"); [|done].
    unfold getattr at 1. rewrite Hflag. cbn [rbind py_eq int Z.eqb orb].
    unfold getattr at 1. rewrite Hlay. cbn [rbind]. rewrite Hn.
    cbn [rbind seq for_each]. unfold getattr. by rewrite Hflag.
  - intros a' h' file L. apply orders_never_list_C1_3a.
  - unfold read_record, bind, read_line, eval.
    destruct (lines w) as [ls|]; [|eauto].
    destruct (ls !! read_i w); [|eauto].
    rewrite get_format_C1_3a. eauto.
  - unfold write_record, bind, eval. by rewrite get_format_C1_3a.
Qed.

(** *** The explicit order expands the logical order *)

Lemma for_each_const_length {X} (xs : list X) (chunk s E : list string) :
  for_each xs (fun _ records => Ok (records ++ chunk)) s = Ok E →
  length E = (length s + length xs * length chunk)%nat.
Proof.
  revert s; induction xs as [|x xs IH]; intros s; cbn [for_each rbind].
  - intros [= <-]. cbn. lia.
  - intros ->%IH. rewrite length_app. cbn [length]. lia.
Qed.

Lemma for_each_layer_length (a : obj) (rs : list string) (name r : string)
    (x : pyval) (c : bool) (xs : list nat) (s E : list string) :
  getattr a name = Ok x → py_gt x 7 = Ok c →
  for_each xs (layer_records a rs name r) s = Ok E →
  length E = (length s + length xs * (length rs + if c then 1 else 0))%nat.
Proof.
  intros Hx Hc. revert s; induction xs as [|i xs IH]; intros s; cbn [for_each].
  - intros [= <-]. cbn. lia.
  - unfold layer_records at 1, append_if_gt7. rewrite Hx. cbn [rbind].
    rewrite Hc. cbn [rbind]. intros ->%IH.
    destruct c; rewrite ?length_app; cbn [length]; lia.
Qed.

Lemma py_int_Ok (x : pyval) (n : Z) : py_int x = Ok n → x = int n.
Proof. unfold int. destruct x as [[]|]; cbn; congruence. Qed.

Lemma length_py_range (n : Z) : length (py_range n) = Z.to_nat n.
Proof. apply length_seq. Qed.

Lemma record_len_attr (a : obj) (h : heap) :
  record_len a h "2.1.1" = getattr a "NLAYRS"
  ∧ record_len a h "2.1.2" = getattr a "NLAYRS"
  ∧ record_len a h "2.1.3" = getattr a "NLAYRS"
  ∧ record_len a h "2.2.3" = getattr a "NLAYRS"
  ∧ record_len a h "2.2.4" = getattr a "NLAYRS"
  ∧ record_len a h "2.2.5" = getattr a "NLAYRS"
  ∧ record_len a h "3.5" = getattr a "IMMAX"
  ∧ record_len a h "3.6.1" = getattr a "IMMAX"
  ∧ record_len a h "3.8.1" = getattr a "LAYX"
  ∧ record_len a h "3.8.2" = getattr a "LAYX"
  ∧ record_len a h "C1.2"
    = (let? n := cloud_layers a h in Ok (int (Z.of_nat n))).
Proof. repeat split; reflexivity. Qed.

Ltac expand_step HL HE :=
  let go t :=
    lazymatch t with
    | context [getattr ?a ?n] =>
      let H := fresh "Hattr" in
      destruct (getattr a n) as [?|?] eqn:H; cbn [rbind] in HL, HE
    | context [py_gt ?x ?c] =>
      let H := fresh "Hgt" in
      destruct (py_gt x c) as [?|?] eqn:H; cbn [rbind] in HL, HE
    | context [py_int ?x] =>
      let H := fresh "Hint" in
      destruct (py_int x) as [?|?] eqn:H; cbn [rbind] in HL, HE;
      [apply py_int_Ok in H; subst|]
    | context [cloud_layers ?a ?h] =>
      let H := fresh "Hcld" in
      destruct (cloud_layers a h) as [?|?] eqn:H; cbn [rbind] in HL, HE
    | context [py_eq ?x ?c] => destruct (py_eq x c); cbn [orb] in HL, HE
    | context [for_each ?xs ?body ?s] =>
      let H := fresh "Hloop" in
      destruct (for_each xs body s) as [?|?] eqn:H; cbn [rbind] in HL, HE
    end in
  try discriminate;
  first [ let t := type of HL in go t | let t := type of HE in go t ].

Lemma explicit_order_expands (a : obj) (h : heap) (file : string) (L E : list string) :
  expanding a file →
  get_logical_record_order a h file = Ok L →
  get_explicit_record_order a h file = Ok E →
  length E = sum_list_with (occurrences a h) L.
Proof.
  intros Hscope HL HE.
  destruct (record_len_attr a h) as (R1 & R2 & R3 & R4 & R5 & R6 & R7 & R8 & R9 & R10 & R11).
  unfold get_logical_record_order, get_explicit_record_order, append_if_gt7 in HL, HE.
  destruct Hscope as [->|(-> & x & Hx & Hflag)].
  - destruct (String.eqb_spec "input_rrtm" "input_rrtm"); [|done].
    repeat expand_step HL HE; try discriminate;
      injection HL as <-;
      repeat match goal with
             | H : for_each _ (layer_records _ _ _ _) _ = Ok _ |- _ =>
               eapply for_each_layer_length in H; [|eassumption..]
             | H : for_each _ _ _ = Ok _ |- _ => apply for_each_const_length in H
             end;
      try injection HE as <-;
      repeat match goal with b : bool |- _ => destruct b end;
      cbn [app sum_list_with]; unfold occurrences;
      repeat match goal with
             | |- context [islist ?r] =>
               let b := eval vm_compute in (islist r) in change (islist r) with b
             end;
      cbn iota; rewrite ?R1, ?R2, ?R3, ?R4, ?R5, ?R6, ?R7, ?R8, ?R9, ?R10;
      repeat match goal with H : getattr _ _ = Ok _ |- _ => rewrite H; clear H end;
      unfold int; rewrite ?length_app; cbn [length];
      repeat (match goal with H : length _ = _ |- _ => rewrite H; clear H end;
              rewrite ?length_app, ?length_py_range; cbn [length]);
      lia.
  - destruct (String.eqb_spec "in_cld_rrtm" "input_rrtm"); [discriminate|].
    destruct (String.eqb_spec "in_cld_rrtm" "in_cld_rrtm"); [|done].
    unfold getattr in HL, HE. rewrite Hx in HL, HE. cbn [rbind] in HL, HE.
    rewrite Hflag in HL, HE.
    destruct (py_eq x 1 || py_eq x 2).
    + injection HL as <-.
      destruct (cloud_layers a h) as [k|] eqn:Hk; [|done]. cbn [rbind] in HE.
      apply for_each_const_length in HE. rewrite HE, length_seq.
      cbn [app sum_list_with length]. unfold occurrences.
      change (islist "C1.1") with false. change (islist "C1.2") with true.
      cbn iota. rewrite R11. cbn [rbind int]. lia.
    + injection HL as <-. by injection HE as <-.
Qed.

Lemma sum_at_least_length {A} (f : A → nat) (l : list A) :
  (∀ x, x ∈ l → (1 ≤ f x)%nat) →
  (length l ≤ sum_list_with f l)%nat
  ∧ (sum_list_with f l = length l ↔ ∀ x, x ∈ l → (f x ≤ 1)%nat).
Proof.
  induction l as [|y l IH]; intros Hge; cbn [sum_list_with length].
  - split; [lia|]. split; [|done]. intros _ x Hx. by apply elem_of_nil in Hx.
  - assert (Hy : (1 ≤ f y)%nat) by (apply Hge; left).
    destruct IH as [IH1 IH2]; [intros x Hx; apply Hge; by right|].
    split; [lia|]. split.
    + intros Heq x [->|Hx]%elem_of_cons; [lia|]. apply IH2; [lia|done].
    + intros Hle. assert (f y ≤ 1)%nat by (apply Hle; left).
      assert (sum_list_with f l = length l); [|lia].
      apply IH2. intros x Hx. apply Hle. by right.
Qed.

(** C2 (amended): for the primary file, and for the cloud file when INFLAG is
    neither 0 nor 10, on a Document where both orders are defined and every
    repeated record of the logical order has a resolved length of at least 1,
    the explicit order is at least as long as the logical order, and they are
    equally long exactly when no repeated record of the logical order has a
    resolved length above 1. *)
Theorem explicit_order_length (a : obj) (h : heap) (file : string) (L E : list string) :
  expanding a file →
  get_logical_record_order a h file = Ok L →
  get_explicit_record_order a h file = Ok E →
  (∀ rec, rec ∈ L → islist rec = true →
     ∃ n, record_len a h rec = Ok (int n) ∧ 1 ≤ n) →
  (length L ≤ length E)%nat
  ∧ (length E = length L ↔
     ∀ rec n, rec ∈ L → islist rec = true → record_len a h rec = Ok (int n) → n ≤ 1).
Proof.
  intros Hscope HL HE Hge.
  rewrite (explicit_order_expands a h file L E Hscope HL HE).
  assert (Hocc : ∀ rec, rec ∈ L → (1 ≤ occurrences a h rec)%nat).
  { intros rec Hrec. unfold occurrences. destruct (islist rec) eqn:Hl; [|done].
    destruct (Hge rec Hrec Hl) as (n & -> & Hn). unfold int. lia. }
  destruct (sum_at_least_length (occurrences a h) L Hocc) as [Hlen Heq].
  split; [exact Hlen|]. rewrite Heq. split.
  - intros Hle rec n Hrec Hl Hn. specialize (Hle rec Hrec).
    unfold occurrences in Hle. rewrite Hl, Hn in Hle. unfold int in Hle. lia.
  - intros Hle rec Hrec. unfold occurrences. destruct (islist rec) eqn:Hl; [|done].
    destruct (Hge rec Hrec Hl) as (n & Hn & Hn1).
    specialize (Hle rec n Hrec Hl Hn). rewrite Hn. unfold int. lia.
Qed.

(** ** File bounds *)

(** What the bounds check computes from the two lists of sentinel lines. *)
Lemma get_input_rrtm_file_bounds_cases (ls : list string) (file : string)
    (starts ends : list nat) :
  sentinel_lines "$" 0 ls = Ok starts →
  sentinel_lines "%" 0 ls = Ok ends →
  get_input_rrtm_file_bounds ls file =
    match (if String.eqb file "in_cld_rrtm" then [0%nat] else starts), ends with
    | [start_i], [end_i] =>
      if (start_i <? end_i)%nat then Ok (start_i, end_i) else Raise NameError
    | _, _ => Raise NameError
    end.
Proof.
  intros Hs He; unfold get_input_rrtm_file_bounds; rewrite Hs, He; simpl.
  destruct (if String.eqb file "in_cld_rrtm" then [0%nat] else starts)
    as [|s [|s' ss]], ends as [|e [|e' es]]; simpl;
    rewrite ?andb_false_r; simpl; try reflexivity.
  destruct (s <? e)%nat eqn:Hlt; simpl; [reflexivity|].
  destruct (e <? s)%nat; reflexivity.
Qed.

(** The error the bounds check means to raise is never the one it raises. *)
Lemma get_input_rrtm_file_bounds_not_IOError (ls : list string) (file : string) :
  get_input_rrtm_file_bounds ls file ≠ Raise IOError.
Proof.
  unfold get_input_rrtm_file_bounds.
  assert (Hs : ∀ c i l, sentinel_lines c i l ≠ Raise IOError).
  { intros c i l; revert i; induction l as [|[|c0 s] l IH]; intros i; simpl; try done.
    specialize (IH (S i)); destruct (sentinel_lines c (S i) l); simpl; congruence. }
  pose proof (Hs "$"%char 0%nat ls) as H1; pose proof (Hs "%"%char 0%nat ls) as H2.
  destruct (sentinel_lines "$" 0 ls); simpl; [|congruence].
  destruct (sentinel_lines "%" 0 ls); simpl; [|congruence].
  destruct (_ && _); [|done].
  by destruct (if String.eqb file "in_cld_rrtm" then [0%nat] else a) as [|? ?], a0.
Qed.

(** C4 (code at the failing inputs): a primary file with two start lines, and
    one with no end line, make the bounds check raise NameError, from the
    unbound name in the message of its [raise IOError(...)]; a file with one
    start line before one end line gives their positions, and the cloud file
    starts on line 0. *)
Lemma bounds_error_is_NameError :
  get_input_rrtm_file_bounds ["$ a"; "$ b"; "%"] "input_rrtm" = Raise NameError
  ∧ get_input_rrtm_file_bounds ["$ a"; "b"] "input_rrtm" = Raise NameError
  ∧ get_input_rrtm_file_bounds ["x"; "$ a"; "b"; "%"] "input_rrtm" = Ok (1%nat, 3%nat)
  ∧ get_input_rrtm_file_bounds ["x"; "$ a"; "b"; "%"] "in_cld_rrtm" = Ok (0%nat, 3%nat).
Proof. repeat split; reflexivity. Qed.

(** ** The derived field NSTR *)

(** NSTR is 0 unless ISCAT is 1 or 2; then it is 4, 8 or 16 for NUMANGS 0, 1
    or 2, and any other NUMANGS ends in NameError. *)
Lemma compute_NSTR_cases (w : world) (iscat numangs : Z) :
  attrs w !! "ISCAT" = Some (int iscat) →
  attrs w !! "NUMANGS" = Some (int numangs) →
  compute_NSTR w =
    let nstr n := (Ok tt, set_attrs (<["NSTR" := int n]> (<["NSTR" := int 0]> (attrs w))) w) in
    if (iscat =? 1) || (iscat =? 2) then
      if numangs =? 0 then nstr 4
      else if numangs =? 1 then nstr 8
      else if numangs =? 2 then nstr 16
      else (Raise NameError, set_attrs (<["NSTR" := int 0]> (attrs w)) w)
    else (Ok tt, set_attrs (<["NSTR" := int 0]> (attrs w)) w).
Proof.
  intros Hi Hn. unfold compute_NSTR, bind.
  rewrite setattr_run, (attr_run _ "ISCAT" (int iscat))
    by (cbn [attrs set_attrs]; by rewrite lookup_insert_ne).
  cbn [py_eq int].
  destruct ((iscat =? 1) || (iscat =? 2)); [|reflexivity].
  rewrite (attr_run _ "NUMANGS" (int numangs))
    by (cbn [attrs set_attrs]; by rewrite lookup_insert_ne).
  cbn [py_eq int].
  destruct (numangs =? 0); [reflexivity|].
  destruct (numangs =? 1); [reflexivity|].
  destruct (numangs =? 2); reflexivity.
Qed.

(** C9 (code at the failing input): with ISCAT=1 and NUMANGS=3 the cloud
    reader stops in the NSTR precomputation, before any record is read, with
    NameError (the unbound name in the message of its [raise ValueError(...)])
    and not with ValueError. *)
Lemma read_in_cld_rrtm_bad_NUMANGS :
  read_in_cld_rrtm demo_reader LW ["0 0 0"; "A 1 5 6 7"; "%"] bad_angles_world
  = (Raise NameError,
     World (<["NSTR" := int 0]> (attrs bad_angles_world)) []
           (Some ["0 0 0"; "A 1 5 6 7"; "%"]) 0 ∅ ".").
Proof. reflexivity. Qed.

(** ** The write dispatch *)

(** C10: with any [file] argument other than 'auto' the list of files to
    write stays empty, and [write] returns without an error and without
    touching the Document or any file. *)
Theorem write_not_auto_does_nothing
    (writer : string → list pyval → option string) (v : variant)
    (fpath : option string) (file : string) (w : world) :
  file ≠ "auto" → write writer v fpath file w = (Ok tt, w).
Proof.
  intros Hfile. unfold write.
  destruct (String.eqb_spec file "auto") as [->|_]; [done|].
  by destruct fpath.
Qed.

Lemma write_not_auto_does_nothing_witness :
  "in_cld_rrtm" ≠ "auto"
  ∧ write demo_writer LW (Some "run") "in_cld_rrtm" two_layer_world
    = (Ok tt, two_layer_world).
Proof.
  split; [discriminate|].
  apply (write_not_auto_does_nothing demo_writer LW (Some "run") "in_cld_rrtm").
  discriminate.
Defined.

(** The aerosol writer asks for the explicit order of a file kind that no
    order method knows, and stops there. *)
Lemma write_in_aer_rrtm_raises
    (writer : string → list pyval → option string) (v : variant)
    (fpath : string * string) (w : world) :
  write_in_aer_rrtm writer v fpath w = (Raise UnboundLocalError, w).
Proof. reflexivity. Qed.

(** C7 (code at the failing input): on a Document with ICLD=1 and IAER=0,
    [write] with file='auto' writes INPUT_RRTM and then raises
    UnboundLocalError: the method table maps 'in_cld_rrtm' to the aerosol
    writer, so no file IN_CLD_RRTM is written. *)
Lemma write_auto_cloud_file_missing :
  let out := write demo_writer LW (Some "run") "auto" two_layer_world in
  attrs two_layer_world !! "ICLD" = Some (int 1)
  ∧ attrs two_layer_world !! "IAER" = Some (int 0)
  ∧ out.1 = Raise UnboundLocalError
  ∧ is_Some (files out.2 !! ("run", "INPUT_RRTM"))
  ∧ files out.2 !! ("run", "IN_CLD_RRTM") = None.
Proof. vm_compute. repeat split; eauto. Qed.

(** ** Writing is destructive on the instance it runs on, which is a copy *)



Lemma deref_run (w : world) (p : nat) :
  deref p w = (match store w !! p with
               | Some xs => Ok xs
               | None => Raise SystemError
               end, w).
Proof. unfold deref. by destruct (store w !! p). Qed.






Section WriterFacts.

Variable writer : string → list pyval → option string.
Variable v : variant.










End WriterFacts.



Lemma spectral_cloud_orders_not_implemented_witness :
  let a : obj := <["INFLAG" := int 10]> (<["LAY" := Ref 0]> ∅) in
  a !! "INFLAG" = Some (int 10)
  ∧ cloud_layers a [[int 1]] = Ok 1%nat
  ∧ get_explicit_record_order a [[int 1]] "in_cld_rrtm" = Raise NotImplementedError.
Proof.
  intros a.
  assert (Hflag : a !! "INFLAG" = Some (int 10)) by reflexivity.
  assert (Hlay : cloud_layers a [[int 1]] = Ok 1%nat) by reflexivity.
  split; [exact Hflag|]. split; [exact Hlay|].
  exact (proj1 (spectral_cloud_orders_not_implemented a [[int 1]] Hflag) 0%nat Hlay).
Defined.

(** C5 (code at the failing input): [read_in_cld_rrtm] does not refuse a
    cloud file with INFLAG=10.  With one cloud line it returns, with the C1.1
    and C1.3 records decoded.  With a further line, which in such a file is
    the first C1.3a sub-record, it decodes that line under the C1.3 schema in
    mode 'append' (TESTCHAR and LAY become lists of two) and then raises
    KeyError, not NotImplementedError, at [read_record('C1.3a')]: the schema
    tables spell the key 'C1.3A'.  And with INFLAG=10 and an empty LAY both
    orders return, the [raise] being inside the loop over the layers. *)
Lemma spectral_cloud_read_is_not_refused :
  let out := read_in_cld_rrtm demo_reader LW spectral_cloud_file two_layer_world in
  let out2 := read_in_cld_rrtm demo_reader LW ["10 0 0"; "A 1 5 6 7"; "S 99 8 9 3"; "%"]
                two_layer_world in
  out.1 = Ok tt
  ∧ attrs out.2 !! "INFLAG" = Some (int 10)
  ∧ attrs out.2 !! "TAUCLD" = Some (int 6)
  ∧ out2.1 = Raise KeyError
  ∧ holds_pair out2.2 "TESTCHAR" (SStr "A") (SStr "S")
  ∧ holds_pair out2.2 "LAY" (SInt 1) (SInt 99)
  ∧ get_explicit_record_order no_cloud_layers [[]] "in_cld_rrtm" = Ok ["C1.1"]
  ∧ get_logical_record_order no_cloud_layers [[]] "in_cld_rrtm" = Ok ["C1.1"].
Proof.
  intros out out2.
  assert (H1 : out.1 = Ok tt) by (vm_compute; reflexivity).
  assert (H2 : attrs out.2 !! "INFLAG" = Some (int 10)) by (vm_compute; reflexivity).
  assert (H3 : attrs out.2 !! "TAUCLD" = Some (int 6)) by (vm_compute; reflexivity).
  assert (H4 : out2.1 = Raise KeyError) by (vm_compute; reflexivity).
  assert (H5 : ∃ p q, (attrs out2.2 !! "TESTCHAR" = Some (Ref p)
                       ∧ store out2.2 !! p = Some [Scalar (SStr "A"); Scalar (SStr "S")])
                      ∧ attrs out2.2 !! "LAY" = Some (Ref q)
                      ∧ store out2.2 !! q = Some [Scalar (SInt 1); Scalar (SInt 99)]).
  { vm_compute. eexists _, _. repeat split; reflexivity. }
  destruct H5 as (p & q & H5 & H6).
  split; [exact H1|]. split; [exact H2|]. split; [exact H3|]. split; [exact H4|].
  split; [exists p; exact H5|]. split; [exists q; exact H6|].
  split; reflexivity.
Qed.

Lemma explicit_order_length_witness :
  let a := attrs two_layer_world in
  let h := store two_layer_world in
  let L := ["1.1"; "1.2"; "1.4"; "2.1"; "2.1.1"; "2.1.2"] in
  let E := ["1.1"; "1.2"; "1.4"; "2.1"; "2.1.1"; "2.1.2"; "2.1.1"; "2.1.2"] in
  expanding a "input_rrtm"
  ∧ get_logical_record_order a h "input_rrtm" = Ok L
  ∧ get_explicit_record_order a h "input_rrtm" = Ok E
  ∧ (length L ≤ length E)%nat.
Proof.
  intros a h L E.
  assert (Hscope : expanding a "input_rrtm") by (by left).
  assert (HL : get_logical_record_order a h "input_rrtm" = Ok L)
    by (vm_compute; reflexivity).
  assert (HE : get_explicit_record_order a h "input_rrtm" = Ok E)
    by (vm_compute; reflexivity).
  repeat split; try assumption.
  refine (proj1 (explicit_order_length a h "input_rrtm" L E Hscope HL HE _)).
  intros rec Hrec Hl. exists 2.
  assert (Hcases : rec = "2.1.1" ∨ rec = "2.1.2").
  { unfold L in Hrec. set_unfold in Hrec.
    destruct Hrec as [->|[->|[->|[->|[->|[->|[]]]]]]]; try discriminate Hl; auto. }
  split; [|lia]. destruct Hcases as [-> | ->]; vm_compute; reflexivity.
Defined.

(** C2 (counterexample): with IATM=0 and NLAYRS=0 both orders are defined and
    the explicit order, with no line for the two per-layer records, is
    shorter than the logical order. *)
Lemma explicit_order_shorter_without_layers :
  get_logical_record_order no_layers [] "input_rrtm"
    = Ok ["1.1"; "1.2"; "1.4"; "2.1"; "2.1.1"; "2.1.2"]
  ∧ get_explicit_record_order no_layers [] "input_rrtm"
    = Ok ["1.1"; "1.2"; "1.4"; "2.1"]
  ∧ ¬ (length ["1.1"; "1.2"; "1.4"; "2.1"; "2.1.1"; "2.1.2"]
       ≤ length ["1.1"; "1.2"; "1.4"; "2.1"])%nat.
Proof. repeat split; [reflexivity..|cbn; lia]. Qed.

(** ** The greedy record *)

Lemma ceil_div_0 (t k : nat) : (1 ≤ k)%nat → ceil_div t k = 0%nat → t = 0%nat.
Proof.
  unfold ceil_div. intros Hk H.
  apply Nat.div_small_iff in H; lia.
Qed.

Lemma ceil_div_S (t k : nat) :
  (1 ≤ k)%nat → (1 ≤ t)%nat → ceil_div t k = S (ceil_div (t - k) k).
Proof.
  unfold ceil_div. intros Hk Ht.
  destruct (decide (t ≤ k)%nat) as [Hle|Hgt].
  - replace (t - k + k - 1)%nat with (k - 1)%nat by lia.
    rewrite (Nat.div_small (k - 1)) by lia.
    replace (t + k - 1)%nat with ((t - 1) + 1 * k)%nat by lia.
    rewrite Nat.div_add by lia. rewrite Nat.div_small by lia. done.
  - replace (t + k - 1)%nat with ((t - k + k - 1) + 1 * k)%nat by lia.
    rewrite Nat.div_add by lia. lia.
Qed.

Lemma dict_set_fresh (d : list (key * scalar)) (k : key) (x : scalar) :
  k ∉ d.*1 → dict_set d k x = d ++ [(k, x)].
Proof.
  induction d as [|[k' x'] d IH]; cbn [dict_set fmap list_fmap fst app]; [done|].
  intros [Hne Hd]%not_elem_of_cons.
  rewrite decide_False by done. by rewrite IH.
Qed.

Lemma dict_update_fresh (d kvs : list (key * scalar)) :
  NoDup kvs.*1 → (∀ k, k ∈ kvs.*1 → k ∉ d.*1) → dict_update d kvs = d ++ kvs.
Proof.
  unfold dict_update. revert d; induction kvs as [|[k x] kvs IH]; intros d Hnd Hfresh;
    cbn [fold_left fmap list_fmap fst] in *.
  - by rewrite app_nil_r.
  - apply NoDup_cons in Hnd as [Hk Hnd].
    rewrite dict_set_fresh by (apply Hfresh; left).
    rewrite IH; [by rewrite <- app_assoc|done|].
    intros k' Hk'. rewrite fmap_app. cbn. intros [Hin|Hin%list_elem_of_singleton]%elem_of_app.
    + apply (Hfresh k'); [by right|done].
    + subst k'. done.
Qed.

Lemma zip_app_drop {A B} (l : list A) (r1 r2 : list B) :
  zip l (r1 ++ r2) = zip l r1 ++ zip (drop (length r1) l) r2.
Proof.
  revert r1; induction l as [|x l IH]; intros [|y r1]; cbn; try done.
  by rewrite IH.
Qed.

Lemma fst_zip_take {A B} (l : list A) (r : list B) :
  (zip l r).*1 = take (length r) l.
Proof.
  revert r; induction l as [|x l IH]; intros [|y r]; cbn; try done.
  by rewrite IH.
Qed.

Lemma filter_none (P : key → Prop) `{∀ x, Decision (P x)} (l : list key) :
  (∀ x, x ∈ l → ¬ P x) → filter P l = [].
Proof.
  induction l as [|x l IH]; intros Hl; [done|].
  rewrite filter_cons_False by (apply Hl; left). apply IH. intros y Hy. apply Hl. by right.
Qed.

Lemma filter_all (P : key → Prop) `{∀ x, Decision (P x)} (l : list key) :
  (∀ x, x ∈ l → P x) → filter P l = l.
Proof.
  induction l as [|x l IH]; intros Hl; [done|].
  rewrite filter_cons_True by (apply Hl; left). f_equal. apply IH. intros y Hy. apply Hl. by right.
Qed.

Lemma filter_after_prefix (done l1 l2 : list key) :
  NoDup (done ++ l1 ++ l2) →
  filter (fun key => key ∉ done ++ l1) (l1 ++ l2) = l2.
Proof.
  intros Hnd. rewrite filter_app.
  apply NoDup_app in Hnd as (_ & Hdisj & Hnd).
  apply NoDup_app in Hnd as (_ & Hdisj2 & _).
  rewrite filter_none, filter_all; [done| |].
  - intros x Hx [Hin|Hin]%elem_of_app.
    + apply (Hdisj x Hin). apply elem_of_app. by right.
    + by apply (Hdisj2 x Hin).
  - intros x Hx Hnot. apply Hnot, elem_of_app. by right.
Qed.

Lemma filter_after_take (done todo : list key) (k : nat) :
  NoDup (done ++ todo) →
  filter (fun key => key ∉ done ++ take k todo) todo = drop k todo.
Proof.
  intros Hnd. rewrite <- (take_drop k todo) in Hnd.
  rewrite <- (filter_after_prefix done (take k todo) (drop k todo) Hnd).
  by rewrite take_drop.
Qed.

Section Greedy.

Variable reader : string → string → option (list scalar).
Variable fmt : string.
Variable k : nat.
Hypothesis k_pos : (1 ≤ k)%nat.

Lemma greedy_loop_spec (rows : list (list scalar)) :
  ∀ (rest : list string) (done todo cur : list key) (record : list (key * scalar))
    (i : nat),
  NoDup (done ++ todo) →
  record.*1 = done →
  filter (fun key => key ∉ done) cur = todo →
  Forall (fun row => length row = k) rows →
  length rows = ceil_div (length todo) k →
  (∀ j row, rows !! j = Some row → ∃ s, rest !! j = Some s ∧ reader fmt s = Some row) →
  greedy_loop reader fmt (length (done ++ todo)) rest cur record i
  = (Ok (record ++ zip todo (concat rows)), (i + length rows)%nat).
Proof.
  induction rows as [|row rows IH]; intros rest done todo cur record i Hnd Hkeys Hcur Hk Hlen Hrows.
  - symmetry in Hlen. apply ceil_div_0 in Hlen; [|done].
    apply nil_length_inv in Hlen as ->. rewrite app_nil_r in *.
    destruct rest; cbn [greedy_loop].
    all: rewrite <- Hkeys, length_fmap, Nat.ltb_irrefl.
    all: by rewrite app_nil_r, Nat.add_0_r.
  - assert (Ht : (1 ≤ length todo)%nat).
    { destruct todo; [|cbn; lia]. cbn in Hlen. unfold ceil_div in Hlen.
      rewrite Nat.div_small in Hlen by lia. done. }
    destruct (Hrows 0%nat row eq_refl) as (s & Hs & Hread).
    destruct rest as [|s' rest]; [done|]. injection Hs as ->.
    apply Forall_cons in Hk as [Hrow Hk].
    cbn [greedy_loop].
    assert (Hlt : (length record <? length (done ++ todo))%nat = true).
    { apply Nat.ltb_lt. rewrite <- Hkeys, length_app, !length_fmap. lia. }
    rewrite Hlt, Hkeys, Hcur, Hread.
    rewrite dict_update_fresh.
    2: { rewrite fst_zip_take. apply NoDup_app in Hnd as (_ & _ & Hnd).
         rewrite <- (take_drop (length row) todo) in Hnd.
         by apply NoDup_app in Hnd as (Hnd & _). }
    2: { intros key Hkey. rewrite fst_zip_take in Hkey. rewrite Hkeys.
         apply NoDup_app in Hnd as (_ & Hdisj & _). intros Hin.
         apply (Hdisj key Hin). by eapply subseteq_take. }
    replace (length (done ++ todo)) with (length ((done ++ take k todo) ++ drop k todo))
      by (by rewrite <- app_assoc, take_drop).
    rewrite (IH rest (done ++ take k todo) (drop k todo)).
    + cbn [concat length]. rewrite zip_app_drop, Hrow, <- app_assoc.
      f_equal. lia.
    + by rewrite <- app_assoc, take_drop.
    + by rewrite fmap_app, Hkeys, fst_zip_take, Hrow.
    + by apply filter_after_take.
    + done.
    + rewrite length_drop. cbn [length] in Hlen.
      rewrite (ceil_div_S (length todo) k) in Hlen by done. lia.
    + intros j r Hr. apply (Hrows (S j) r Hr).
Qed.

End Greedy.

Lemma ceil_div_mul_ge (n k : nat) : (1 ≤ k)%nat → (n ≤ ceil_div n k * k)%nat.
Proof.
  unfold ceil_div. intros Hk.
  pose proof (Nat.div_mod_eq (n + k - 1) k) as Hdm.
  pose proof (Nat.mod_upper_bound (n + k - 1) k) as Hmod. nia.
Qed.

Lemma length_concat_rows (k : nat) (rows : list (list scalar)) :
  Forall (fun row => length row = k) rows → length (concat rows) = (length rows * k)%nat.
Proof.
  induction 1 as [|row rows Hrow _ IH]; cbn [concat length]; [done|].
  rewrite length_app, IH, Hrow. lia.
Qed.

Lemma assigned_other (names : list string) (vals : list scalar) (a : obj) (name : string) :
  name ∉ names → assigned a (zip names vals) !! name = a !! name.
Proof.
  unfold assigned. revert vals a; induction names as [|n names IH]; intros [|x vals] a Hn;
    cbn [zip zip_with foldl]; try done.
  apply not_elem_of_cons in Hn as [Hne Hn].
  rewrite IH by done. by rewrite lookup_insert_ne.
Qed.

Lemma assigned_lookup (names : list string) (vals : list scalar) (a : obj)
    (i : nat) (name : string) (x : scalar) :
  NoDup names → names !! i = Some name → vals !! i = Some x →
  assigned a (zip names vals) !! name = Some (Scalar x).
Proof.
  revert vals a i; induction names as [|n names IH]; intros [|y vals] a i Hnd Hi Hx;
    try done.
  apply NoDup_cons in Hnd as [Hn Hnd]. destruct i as [|i]; cbn in Hi, Hx.
  - injection Hi as ->. injection Hx as ->.
    change (assigned a (zip (name :: names) (x :: vals)))
      with (assigned (<[name := Scalar x]> a) (zip names vals)).
    rewrite assigned_other by done. apply lookup_insert_eq.
  - change (assigned a (zip (n :: names) (y :: vals)))
      with (assigned (<[n := Scalar y]> a) (zip names vals)).
    by eapply IH.
Qed.

Lemma set_attrs_id (w : world) : set_attrs (attrs w) w = w.
Proof. by destruct w. Qed.

Lemma assign_record (names : list string) (vals : list scalar) (w : world) :
  for_eachM (zip (Name <$> names) vals) (fun kv => setattr kv.1 (Scalar kv.2)) w
  = (Ok tt, set_attrs (assigned (attrs w) (zip names vals)) w).
Proof.
  revert vals w; induction names as [|n names IH]; intros [|x vals] w;
    cbn [fmap list_fmap zip zip_with for_eachM];
    try (unfold assigned; cbn [foldl]; by rewrite set_attrs_id).
  unfold bind. cbn [fst snd]. rewrite setattr_run, IH. reflexivity.
Qed.

Section GreedyRecord.

Variable reader : string → string → option (list scalar).
Variable v : variant.

(** C6: for a record with [n ≥ 1] distinct field names and lines
    that decode to [k ≥ 1] values each, [read_greedy_record] reads exactly
    [ceil(n/k)] consecutive lines from [read_i] on, and the i-th name of the
    field list gets the i-th value of those lines taken in order; no other
    attribute changes. *)
Theorem read_greedy_record_lines (rec fmt : string) (w : world) (ls : list string)
    (names : list string) (k : nat) (rows : list (list scalar)) :
  lines w = Some ls →
  get_format v (attrs w) rec = Ok fmt →
  get_fields v (attrs w) rec = Ok (Name <$> names) →
  NoDup names →
  (1 ≤ length names)%nat →
  (1 ≤ k)%nat →
  length rows = ceil_div (length names) k →
  (∀ j row, rows !! j = Some row →
     length row = k ∧ ∃ s, ls !! (read_i w + j)%nat = Some s ∧ reader fmt s = Some row) →
  let a' := assigned (attrs w) (zip names (concat rows)) in
  read_greedy_record reader v rec w
  = (Ok tt, World a' (store w) (lines w) (read_i w + length rows) (files w) (cwd w))
  ∧ (∀ i name, names !! i = Some name →
       ∃ x, concat rows !! i = Some x ∧ a' !! name = Some (Scalar x))
  ∧ (∀ name, name ∉ names → a' !! name = attrs w !! name).
Proof.
  intros Hlines Hfmt Hnames Hnd Hn Hk Hlen Hrows a'.
  assert (Hall : Forall (fun row => length row = k) rows).
  { apply Forall_lookup. intros j row Hj. by destruct (Hrows j row Hj). }
  split; [|split].
  - destruct rows as [|row0 rows].
    { cbn in Hlen. symmetry in Hlen. apply ceil_div_0 in Hlen; lia. }
    destruct (Hrows 0%nat row0 eq_refl) as (Hrow0 & s0 & Hs0 & Hread0).
    rewrite Nat.add_0_r in Hs0.
    apply Forall_cons in Hall as [_ Hall].
    set (N := Name <$> names).
    assert (HndN : NoDup N) by (apply NoDup_fmap_2; [intros ?? [=]; done|done]).
    unfold read_greedy_record, bind, read_line, eval, decode, lift, step_line, modify.
    rewrite Hlines, Hs0, Hfmt, Hnames, Hread0. cbn [lines set_read_i read_i].
    rewrite Hlines. fold N.
    rewrite dict_update_fresh;
      [|rewrite fst_zip_take; eapply sublist_NoDup; [done|apply sublist_take]
       |intros ? _; apply not_elem_of_nil].
    cbn [app].
    replace (length N) with (length (take k N ++ drop k N)) by (by rewrite take_drop).
    rewrite (greedy_loop_spec reader fmt k Hk rows).
    + rewrite <- Hrow0 at 1. rewrite <- zip_app_drop.
      cbn [concat]. unfold N. rewrite assign_record. cbn [length].
      unfold a'. cbn [concat].
      f_equal. unfold set_attrs, set_read_i; cbn. f_equal; first [done|lia].
    + by rewrite take_drop.
    + by rewrite fst_zip_take, Hrow0.
    + rewrite <- (app_nil_l (take k N)). apply filter_after_take. by rewrite app_nil_l.
    + done.
    + rewrite length_drop. unfold N. rewrite length_fmap. cbn [length] in Hlen.
      rewrite (ceil_div_S (length names) k) in Hlen by done. lia.
    + intros j row Hj. destruct (Hrows (S j) row Hj) as (_ & s & Hs & Hread).
      exists s. split; [|done]. rewrite lookup_drop. rewrite <- Hs. f_equal. lia.
  - intros i name Hi.
    assert (Hlt : (i < length (concat rows))%nat).
    { rewrite (length_concat_rows k) by done. rewrite Hlen.
      apply lookup_lt_Some in Hi. pose proof (ceil_div_mul_ge (length names) k Hk). lia. }
    apply lookup_lt_is_Some in Hlt as [x Hx]. exists x. split; [done|].
    by eapply assigned_lookup.
  - intros name Hname. by apply assigned_other.
Qed.

End GreedyRecord.

Lemma app_paren_inj (s1 s2 : string) : s1 +:+ ")" = s2 +:+ ")" → s1 = s2.
Proof.
  revert s2; induction s1 as [|c s1 IH]; intros [|c' s2]; cbn; try done.
  - intros [= _ H]. by destruct s2.
  - intros [= _ H]. by destruct s1.
  - intros [= -> H]. f_equal. by apply IH.
Qed.

#[local] Instance indexed_inj (base : string) : Inj (=) (=) (indexed base).
Proof.
  intros i j H. unfold indexed in H.
  apply (inj (String.app base)), (inj (String.app "(")) in H.
  apply app_paren_inj in H. by apply (inj pretty) in H.
Qed.

(** The field names of the greedy record 3.3B: one per boundary, distinct. *)
Lemma get_fields_3_3B (v : variant) (a : obj) (b : Z) :
  a !! "IBMAX" = Some (int b) →
  let names := indexed (if 0 <? b then "ZBND" else "PBND") <$> seqZ 1 (Z.abs b) in
  get_fields v a "3.3B" = Ok (Name <$> names)
  ∧ NoDup names
  ∧ length names = Z.to_nat (Z.abs b).
Proof.
  intros Hb names. split; [|split].
  - assert (H : get_fields v a "3.3B"
                = (let? x := getattr a "IBMAX" in
                   let? n := py_int x in
                   Ok (indexed_names (if 0 <? n then "ZBND" else "PBND") 1 (Z.abs n))))
      by (by destruct v).
    rewrite H. unfold getattr. rewrite Hb. cbn [rbind py_int int].
    unfold indexed_names, names. by rewrite <- list_fmap_compose.
  - apply NoDup_fmap_2; [apply _|apply NoDup_seqZ].
  - unfold names. by rewrite length_fmap, length_seqZ.
Qed.

Lemma read_greedy_record_lines_witness :
  let w := World (<["IBMAX" := int 10]> ∅) [] (Some boundary_lines) 0 ∅ "." in
  let rows := [SInt <$> [1; 2; 3; 4; 5; 6; 7; 8]; SInt <$> [9; 10; 11; 12; 13; 14; 15; 16]] in
  let names := indexed "ZBND" <$> seqZ 1 10 in
  length rows = ceil_div (length names) 8
  ∧ (read_greedy_record demo_reader LW "3.3B" w).1 = Ok tt
  ∧ read_i (read_greedy_record demo_reader LW "3.3B" w).2 = 2%nat
  ∧ attrs (read_greedy_record demo_reader LW "3.3B" w).2 !! "ZBND(10)" = Some (int 10).
Proof.
  intros w rows names.
  assert (Hnd : NoDup names) by (apply NoDup_fmap_2; [apply _|apply NoDup_seqZ]).
  assert (Hlen : length rows = ceil_div (length names) 8) by reflexivity.
  assert (Hrows : ∀ j row, rows !! j = Some row →
            length row = 8%nat
            ∧ ∃ s, boundary_lines !! (read_i w + j)%nat = Some s
                   ∧ demo_reader "(8F10.3)" s = Some row).
  { intros [|[|j]] row [= <-]; (split; [reflexivity|]); eexists; (split; [reflexivity|]);
      vm_compute; reflexivity. }
  destruct (read_greedy_record_lines demo_reader LW "3.3B" "(8F10.3)" w boundary_lines
              names 8 rows eq_refl eq_refl eq_refl Hnd
              ltac:(vm_compute; lia) ltac:(lia) Hlen Hrows) as (Hrun & Hvals & _).
  split; [exact Hlen|]. rewrite Hrun. cbn [fst snd read_i attrs].
  split; [done|]. split; [done|].
  destruct (Hvals 9%nat "ZBND(10)" eq_refl) as (x & Hx & Hattr).
  injection Hx as <-. exact Hattr.
Defined.

(** Off the reader's path: [read_input_rrtm] reads 3.3B only when IBMAX is
    not 0, so its field list is never empty there.  Called by hand with
    IBMAX=0, [read_greedy_record] reads one line for no name. *)
Lemma read_greedy_record_reads_a_line_for_no_name :
  let w := World (<["IBMAX" := int 0]> ∅) [] (Some boundary_lines) 0 ∅ "." in
  get_fields LW (attrs w) "3.3B" = Ok []
  ∧ read_greedy_record demo_reader LW "3.3B" w = (Ok tt, set_read_i 1 w)
  ∧ ceil_div 0 8 = 0%nat.
Proof. repeat split; reflexivity. Qed.

(** ** Reading the per-layer records *)

Lemma bind_run {A B} (m : M A) (k : A → M B) (w w' : world) (x : A) :
  m w = (Ok x, w') → bind m k w = k x w'.
Proof. intros H. unfold bind. by rewrite H. Qed.

Lemma bind_raise {A B} (m : M A) (k : A → M B) (w w' : world) (e : exn) :
  m w = (Raise e, w') → bind m k w = (Raise e, w').
Proof. intros H. unfold bind. by rewrite H. Qed.

Lemma appended_step (a : obj) (h : heap) (name : string) (y : scalar)
    (kvs : list (string * scalar)) :
  appended (a, h) ((name, y) :: kvs) = appended (append_one (a, h) (name, y)) kvs.
Proof. reflexivity. Qed.

Lemma appended_other (names : list string) (vals : list scalar) (a : obj) (h : heap)
    (name : string) :
  name ∉ names → (appended (a, h) (zip names vals)).1 !! name = a !! name.
Proof.
  revert vals a h; induction names as [|n names IH]; intros [|y vals] a h Hn; try done.
  apply not_elem_of_cons in Hn as [Hne Hn].
  change (zip (n :: names) (y :: vals)) with ((n, y) :: zip names vals).
  rewrite appended_step. unfold append_one. cbn [fst snd].
  destruct (a !! n) as [[x|p]|]; rewrite IH by done; try done.
  by rewrite lookup_insert_ne.
Qed.

Lemma appended_store (names : list string) (vals : list scalar) (a : obj) (h : heap)
    (p : nat) (xs : list pyval) :
  h !! p = Some xs → (appended (a, h) (zip names vals)).2 !! p = Some xs.
Proof.
  revert vals a h; induction names as [|n names IH]; intros [|y vals] a h Hp; try done.
  change (zip (n :: names) (y :: vals)) with ((n, y) :: zip names vals).
  rewrite appended_step. unfold append_one. cbn [fst snd].
  destruct (a !! n) as [[x|q]|]; apply IH; try done.
  by apply lookup_app_l_Some.
Qed.

Lemma appended_lookup (names : list string) (vals : list scalar) (a : obj) (h : heap)
    (j : nat) (name : string) (x y : scalar) :
  NoDup names → names !! j = Some name → vals !! j = Some y →
  (∀ n, n ∈ names → ∃ x, a !! n = Some (Scalar x)) →
  a !! name = Some (Scalar x) →
  ∃ p, (length h ≤ p)%nat
       ∧ (appended (a, h) (zip names vals)).1 !! name = Some (Ref p)
       ∧ (appended (a, h) (zip names vals)).2 !! p = Some [Scalar x; Scalar y].
Proof.
  revert vals a h j; induction names as [|n names IH]; intros [|y' vals] a h j Hnd Hj Hy Hall Hx;
    try done.
  apply NoDup_cons in Hnd as [Hn Hnd].
  change (zip (n :: names) (y' :: vals)) with ((n, y') :: zip names vals).
  rewrite appended_step. unfold append_one. cbn [fst snd].
  destruct j as [|j]; cbn in Hj, Hy.
  - injection Hj as ->. injection Hy as ->. rewrite Hx.
    exists (length h). rewrite appended_other by done.
    split; [done|]. split; [apply lookup_insert_eq|].
    apply appended_store. by rewrite lookup_app_r, Nat.sub_diag.
  - destruct (Hall n) as [x' Hx']; [left|]. rewrite Hx'.
    assert (Hne : n ≠ name).
    { intros ->. apply Hn. by eapply list_elem_of_lookup_2. }
    destruct (IH vals (<[n := Ref (length h)]> a) (h ++ [[Scalar x'; Scalar y']]) j)
      as (p & Hp & H1 & H2); try done.
    + intros n' Hn'. destruct (Hall n') as [x'' Hx'']; [by right|].
      exists x''. rewrite lookup_insert_ne; [done|]. intros ->. done.
    + by rewrite lookup_insert_ne.
    + exists p. rewrite length_app in Hp. split; [lia|done].
Qed.

Lemma assigned_ref (kvs : list (string * scalar)) (a : obj) (name : string) (p : nat) :
  assigned a kvs !! name = Some (Ref p) → a !! name = Some (Ref p).
Proof.
  unfold assigned. revert a; induction kvs as [|[k x] kvs IH]; intros a; [done|].
  cbn [foldl fst snd]. intros H%IH.
  destruct (decide (k = name)) as [->|Hne].
  - by rewrite lookup_insert_eq in H.
  - by rewrite lookup_insert_ne in H.
Qed.

Lemma as_list_scalar (x : scalar) (w : world) :
  as_list (Scalar x) w
  = (Ok (Ref (length (store w))), set_store (store w ++ [[Scalar x]]) w).
Proof. reflexivity. Qed.

Lemma assign_append_scalars (names : list string) (vals : list scalar) (w : world) :
  NoDup names →
  (∀ n, n ∈ names → ∃ x, attrs w !! n = Some (Scalar x)) →
  for_eachM (zip (Name <$> names) vals) (fun kv => assign Append kv.1 kv.2) w
  = (Ok tt,
     let ah := appended (attrs w, store w) (zip names vals) in
     World ah.1 ah.2 (lines w) (read_i w) (files w) (cwd w)).
Proof.
  revert vals w; induction names as [|n names IH]; intros [|y vals] w Hnd Hall;
    cbn [fmap list_fmap zip zip_with for_eachM];
    try (unfold appended; cbn [foldl fst snd]; by destruct w).
  apply NoDup_cons in Hnd as [Hn Hnd].
  destruct (Hall n) as [x Hx]; [left|].
  change (zip names vals) with (zip_with pair names vals).
  unfold bind at 1. cbn [fst snd assign].
  unfold bind at 1. unfold getattr_key, eval, getattr. rewrite Hx.
  unfold bind at 1. rewrite as_list_scalar.
  unfold bind at 1. unfold list_append, bind at 1. rewrite deref_run.
  cbn [store set_store]. rewrite lookup_app_r, Nat.sub_diag by done.
  cbn [lookup list_lookup modify]. rewrite setattr_run.
  cbn [attrs store set_attrs set_store].
  rewrite IH; [|done|].
  - cbn [attrs store lines read_i files cwd set_attrs set_store].
    rewrite appended_step. unfold append_one. cbn [fst snd]. rewrite Hx.
    rewrite insert_app_r_alt, Nat.sub_diag by done. reflexivity.
  - intros n' Hn'. destruct (Hall n') as [x' Hx']; [by right|]. exists x'.
    cbn [attrs set_attrs]. rewrite lookup_insert_ne; [done|]. by intros ->.
Qed.

Section ReadRecord.

Variable reader : string → string → option (list scalar).
Variable v : variant.

Lemma read_record_new_run (rec fmt s : string) (w : world) (ls : list string)
    (names : list string) (vals : list scalar) :
  lines w = Some ls → ls !! read_i w = Some s →
  get_format v (attrs w) rec = Ok fmt →
  get_fields v (attrs w) rec = Ok (Name <$> names) →
  reader fmt s = Some vals →
  read_record reader v rec New w
  = (Ok tt, World (assigned (attrs w) (zip names vals)) (store w) (lines w)
                  (S (read_i w)) (files w) (cwd w)).
Proof.
  intros Hls Hs Hfmt Hnames Hvals.
  unfold read_record, bind, read_line, eval, decode, lift, step_line, modify.
  rewrite Hls, Hs, Hfmt, Hnames, Hvals.
  change (fun kv : key * scalar => assign New kv.1 kv.2)
    with (fun kv : key * scalar => setattr kv.1 (Scalar kv.2)).
  rewrite assign_record.
  unfold set_read_i, set_attrs; cbn [attrs store lines read_i files cwd].
  by rewrite ?Hls.
Qed.

Lemma read_record_append_run (rec fmt s : string) (w : world) (ls : list string)
    (names : list string) (vals : list scalar) :
  lines w = Some ls → ls !! read_i w = Some s →
  get_format v (attrs w) rec = Ok fmt →
  get_fields v (attrs w) rec = Ok (Name <$> names) →
  reader fmt s = Some vals →
  NoDup names →
  (∀ n, n ∈ names → ∃ x, attrs w !! n = Some (Scalar x)) →
  read_record reader v rec Append w
  = (Ok tt,
     let ah := appended (attrs w, store w) (zip names vals) in
     World ah.1 ah.2 (lines w) (S (read_i w)) (files w) (cwd w)).
Proof.
  intros Hls Hs Hfmt Hnames Hvals Hnd Hall.
  unfold read_record, bind, read_line, eval, decode, lift, step_line, modify.
  rewrite Hls, Hs, Hfmt, Hnames, Hvals.
  rewrite assign_append_scalars by done.
  unfold set_read_i; cbn [attrs store lines read_i files cwd].
  by rewrite ?Hls.
Qed.

End ReadRecord.

(** *** Records that leave the per-layer fields alone *)

Lemma assign_protects (K : list string) (n0 : nat) (w0 w : world) (md : mode)
    (k : key) (val : scalar) :
  md ≠ AppendDepth →
  (∀ name, k = Name name → name ∉ K) →
  protects K n0 w0 w → protects K n0 w0 (assign md k val w).2.
Proof.
  intros Hmd Hk (Hattrs & Hstore & Hrefs & Hlen).
  destruct k as [name|]; [|by destruct md].
  specialize (Hk name eq_refl).
  destruct md; [| |done].
  - (* new *)
    cbn [assign]. rewrite setattr_run.
    unfold protects; cbn [snd attrs store set_attrs set_store].
    split; [|split; [|split]]; try done.
    + intros n Hn. rewrite lookup_insert_ne; [auto|]. by intros ->.
    + intros n p Hn.
      destruct (decide (name = n)) as [->|Hne].
      * by rewrite lookup_insert_eq.
      * rewrite lookup_insert_ne by done. by apply Hrefs.
  - (* append *)
    cbn [assign]. unfold bind at 1. unfold getattr_key, eval, getattr.
    destruct (attrs w !! name) as [[x|q]|] eqn:Hname; [| |done].
    + unfold bind at 1. rewrite as_list_scalar.
      unfold bind at 1. unfold list_append, bind at 1. rewrite deref_run.
      cbn [store set_store]. rewrite lookup_app_r, Nat.sub_diag by done.
      cbn [lookup list_lookup modify]. rewrite setattr_run.
      cbn [snd attrs store set_attrs set_store].
      rewrite insert_app_r_alt, Nat.sub_diag by done. cbn [insert list_insert].
      unfold protects; cbn [snd attrs store set_attrs set_store].
      split; [|split; [|split]].
      * intros n Hn. rewrite lookup_insert_ne; [auto|]. by intros ->.
      * intros p Hp. rewrite lookup_app_l by lia. auto.
      * intros n p Hn. destruct (decide (name = n)) as [->|Hne].
        -- rewrite lookup_insert_eq. intros [= <-]. right. lia.
        -- rewrite lookup_insert_ne by done. by apply Hrefs.
      * rewrite length_app. lia.
    + unfold bind at 1. cbn [as_list is_list ret].
      unfold bind at 1. unfold list_append, bind at 1. rewrite deref_run.
      destruct (store w !! q) as [xs|] eqn:Hq; [|done].
      cbn [modify]. rewrite setattr_run.
      unfold protects; cbn [snd attrs store set_attrs set_store].
      split; [|split; [|split]].
      * intros n Hn. rewrite lookup_insert_ne; [auto|]. by intros ->.
      * intros p Hp. rewrite list_lookup_insert_ne; [auto|].
        intros ->. destruct (Hrefs name p Hk Hname); lia.
      * intros n p Hn. destruct (decide (name = n)) as [->|Hne].
        -- rewrite lookup_insert_eq. intros [= <-]. eauto.
        -- rewrite lookup_insert_ne by done. by apply Hrefs.
      * by rewrite length_insert.
Qed.

Lemma for_eachM_assign_protects (K : list string) (n0 : nat) (w0 : world) (md : mode)
    (kvs : list (key * scalar)) (w : world) :
  md ≠ AppendDepth →
  (∀ name val, (Name name, val) ∈ kvs → name ∉ K) →
  protects K n0 w0 w →
  protects K n0 w0 (for_eachM kvs (fun kv => assign md kv.1 kv.2) w).2.
Proof.
  intros Hmd. revert w; induction kvs as [|[k val] kvs IH]; intros w Hk Hw; [done|].
  cbn [for_eachM]. unfold bind.
  assert (H1 : protects K n0 w0 (assign md k val w).2).
  { apply assign_protects; [done| |done]. intros name ->. apply (Hk name val). left. }
  cbn [fst snd]. destruct (assign md k val w) as [[[]|e] w1]; [|done].
  apply IH; [|done]. intros name val' Hin. apply (Hk name val'). by right.
Qed.

Section ReadFrame.

Variable reader : string → string → option (list scalar).
Variable v : variant.

Lemma read_record_protects (K : list string) (n0 : nat) (w0 w : world) (rec : string)
    (md : mode) :
  md ≠ AppendDepth →
  (∀ names name, get_fields v (attrs w) rec = Ok names → Name name ∈ names → name ∉ K) →
  protects K n0 w0 w → protects K n0 w0 (read_record reader v rec md w).2.
Proof.
  intros Hmd Hnames Hw.
  unfold read_record, bind, read_line, eval, decode, lift, step_line, modify.
  destruct (lines w) as [ls|]; [|done].
  destruct (ls !! read_i w) as [s|]; [|done].
  destruct (get_format v (attrs w) rec) as [fmt|]; [|done].
  destruct (get_fields v (attrs w) rec) as [names|]; [|done].
  destruct (reader fmt s) as [vals|]; [|done].
  pose proof (for_eachM_assign_protects K n0 w0 md (zip names vals) w Hmd) as H.
  destruct (for_eachM (zip names vals) _ w) as [[[]|e] w1]; cbn [snd] in *.
  - destruct H as (H1 & H2 & H3 & H4); [|done|by repeat split].
    intros name val Hin. apply (Hnames names name eq_refl).
    apply (list_elem_of_fmap_2 fst) in Hin. by rewrite fst_zip_take in Hin;
      apply subseteq_take in Hin.
  - apply H; [|done]. intros name val Hin. apply (Hnames names name eq_refl).
    apply (list_elem_of_fmap_2 fst) in Hin. by rewrite fst_zip_take in Hin;
      apply subseteq_take in Hin.
Qed.

End ReadFrame.

Lemma get_fields_static (v : variant) (rec : string) (names : list key) (a : obj) :
  dict_get (records_fields v) rec = Ok (Static names) → get_fields v a rec = Ok names.
Proof. intros H. unfold get_fields. by rewrite H. Qed.

Lemma get_format_static (v : variant) (rec fmt : string) (a : obj) :
  dict_get (formats v) rec = Ok (Static fmt) → get_format v a rec = Ok fmt.
Proof. intros H. unfold get_format. by rewrite H. Qed.

Lemma get_format_layer (a : obj) (rec : string) (iform : scalar) :
  a !! "IFORM" = Some (Scalar iform) →
  rec = "2.1.1" ∨ rec = "2.1.2" →
  get_format LW a rec = Ok (layer_format rec iform).
Proof.
  intros Hi [-> | ->]; unfold layer_format, get_format;
    cbn [formats dict_get String.eqb Ascii.eqb Bool.eqb rbind eval_entry fmt_by_flag];
    unfold getattr; by rewrite Hi, lookup_insert_eq.
Qed.

Lemma attr_range_run (w : world) (name : string) (n : Z) :
  attrs w !! name = Some (int n) → attr_range name w = (Ok (py_range n), w).
Proof. intros H. unfold attr_range, bind. by rewrite (attr_run w name (int n)). Qed.

Lemma attr_gt7_run (w : world) (name : string) (n : Z) :
  attrs w !! name = Some (int n) → attr_gt7 name w = (Ok (7 <? n), w).
Proof. intros H. unfold attr_gt7, bind. by rewrite (attr_run w name (int n)). Qed.

Lemma bind_assoc {A B C} (m : M A) (f : A → M B) (g : B → M C) (w : world) :
  bind (bind m f) g w = bind m (fun x => bind (f x) g) w.
Proof. unfold bind. by destruct (m w) as [[?|?] ?]. Qed.

Ltac closed_list_fact := (apply (bool_decide_unpack _); vm_compute; exact I).


Lemma indexed_not_layer_field (base : string) (i : Z) :
  base = "XSNAME" ∨ base = "XAMNT" → indexed base i ∉ layer_fields.
Proof.
  intros Hbase Hin. unfold layer_fields, names_2_1_1, names_2_1_2 in Hin.
  cbn [app] in Hin.
  repeat (apply elem_of_cons in Hin as [Hin|Hin];
          [destruct Hbase as [-> | ->]; discriminate Hin|]).
  by apply elem_of_nil in Hin.
Qed.

Lemma cross_section_fields (rec : string) (a : obj) (names : list key) (name : string) :
  rec ∈ ["2.2"; "2.2.1"; "2.2.2"; "2.2.3"; "2.2.4"; "2.2.5"] →
  get_fields LW a rec = Ok names → Name name ∈ names → name ∉ layer_fields.
Proof.
  intros Hrec. set_unfold in Hrec.
  destruct Hrec as [->|[->|[->|[->|[->|[->|[]]]]]]].
  - intros [= <-] [= ->]%list_elem_of_singleton. closed_list_fact.
  - assert (H : get_fields LW a "2.2.1"
                = (let? v := getattr a "IXMOLS" in
                   let? n := py_int v in Ok (indexed_names "XSNAME" 1 n))) by done.
    rewrite H. intros (x & _ & (n & _ & [= <-])%rbind_Ok)%rbind_Ok.
    unfold indexed_names. intros (i & [= ->] & _)%list_elem_of_fmap.
    apply indexed_not_layer_field. by left.
  - intros [= <-] [= ->]%list_elem_of_singleton. closed_list_fact.
  - intros [= <-] [= ->]%list_elem_of_singleton. closed_list_fact.
  - assert (H : get_fields LW a "2.2.4" = Ok (indexed_names "XAMNT" 1 7)) by done.
    rewrite H. intros [= <-].
    unfold indexed_names. intros (i & [= ->] & _)%list_elem_of_fmap.
    apply indexed_not_layer_field. by right.
  - by assert (get_fields LW a "2.2.5" = Raise KeyError) as -> by done.
Qed.

Lemma appended_length (kvs : list (string * scalar)) (ah : obj * heap) :
  (length ah.2 ≤ length (appended ah kvs).2)%nat.
Proof.
  unfold appended. revert ah; induction kvs as [|kv kvs IH]; intros ah; [done|].
  cbn [foldl]. etrans; [|apply IH].
  unfold append_one. destruct (ah.1 !! kv.1) as [[?|?]|]; cbn [snd];
    rewrite ?length_app; lia.
Qed.

Lemma attr_gt7_Ok (name : string) (w w' : world) (c : bool) :
  attr_gt7 name w = (Ok c, w') →
  w' = w ∧ ∃ x, attrs w !! name = Some x ∧ py_gt x 7 = Ok c.
Proof.
  unfold attr_gt7, bind, attr, eval, getattr, lift.
  destruct (attrs w !! name) as [x|]; [|done].
  destruct (py_gt x 7) as [c'|] eqn:Hc; [|done]. intros [= <- <-]. eauto.
Qed.

(** What the two orders are on a Document with IATM=0, NLAYRS=2, NMOL=7. *)
Lemma orders_of_two_layers (a : obj) (h : heap) (ixsect : pyval) :
  a !! "IATM" = Some (int 0) → a !! "NLAYRS" = Some (int 2) →
  a !! "NMOL" = Some (int 7) → a !! "IXSECT" = Some ixsect →
  (py_eq ixsect 1 = true → ∃ x, a !! "IXMOLS" = Some x ∧ py_gt x 7 = Ok false) →
  (∃ L, get_logical_record_order a h "input_rrtm" = Ok L ∧ "2.1.3" ∉ L)
  ∧ (∃ E, get_explicit_record_order a h "input_rrtm" = Ok E
          ∧ occurs "2.1.1" E = 2%nat ∧ occurs "2.1.2" E = 2%nat).
Proof.
  intros Hiatm Hnlayrs Hnmol Hixsect Hixmols.
  unfold get_logical_record_order, get_explicit_record_order.
  change (String.eqb "input_rrtm" "input_rrtm") with true. cbv iota.
  unfold layer_records, append_if_gt7, getattr.
  assert (Hcase : (py_eq ixsect 1 = true
                   ∧ ∃ x, a !! "IXMOLS" = Some x ∧ py_gt x 7 = Ok false)
                  ∨ py_eq ixsect 1 = false).
  { destruct (py_eq ixsect 1) eqn:E; [left; split; [done|by apply Hixmols]|by right]. }
  destruct Hcase as [[Hc (x & Hx & Hgt)]|Hc];
    repeat first
      [ rewrite Hiatm | rewrite Hnlayrs | rewrite Hnmol | rewrite Hixsect
      | rewrite Hc | rewrite Hx | rewrite Hgt
      | progress change (py_range 2) with [0%nat; 1%nat]
      | progress cbn [rbind py_eq py_gt py_int int for_each Z.eqb Z.ltb Z.compare
                      Pos.compare Pos.compare_cont] ];
    (split; eexists; (split; [reflexivity|]); [closed_list_fact|by vm_compute]).
Qed.

Section TwoLayers.

Variable reader : string → string → option (list scalar).
Variable flines : list string.
Variable w : world.
Variables s e : nat.
Variables l0 l1 l2 l3 l4 l5 l6 l7 : string.
Variables r11 r12 r14 r21 p1 q1 p2 q2 : list scalar.
Variables ixsect iform : scalar.

Hypothesis bounds : get_input_rrtm_file_bounds flines "input_rrtm" = Ok (s, e).
Hypothesis line0 : flines !! (0 + s)%nat = Some l0.
Hypothesis line1 : flines !! (1 + s)%nat = Some l1.
Hypothesis line2 : flines !! (2 + s)%nat = Some l2.
Hypothesis line3 : flines !! (3 + s)%nat = Some l3.
Hypothesis line4 : flines !! (4 + s)%nat = Some l4.
Hypothesis line5 : flines !! (5 + s)%nat = Some l5.
Hypothesis line6 : flines !! (6 + s)%nat = Some l6.
Hypothesis line7 : flines !! (7 + s)%nat = Some l7.
Hypothesis rec_1_1 : reader "(1A80)" l0 = Some r11.
Hypothesis rec_1_2 :
  reader "(49X, I1, 19X, I1, 12X, I1, I2, 2X, I3, 4X, I1)" l1
  = Some (SInt 0 :: ixsect :: r12).
Hypothesis rec_1_4 : reader "(F10.3,  1X, I1, 2X, I1, 16F5.3)" l2 = Some r14.
Hypothesis rec_2_1 : reader "(1X,I1, I3, I5)" l3 = Some (iform :: SInt 2 :: SInt 7 :: r21).
Hypothesis layer1_2_1_1 : reader (layer_format "2.1.1" iform) l4 = Some p1.
Hypothesis layer1_2_1_2 : reader (layer_format "2.1.2" iform) l5 = Some q1.
Hypothesis layer2_2_1_1 : reader (layer_format "2.1.1" iform) l6 = Some p2.
Hypothesis layer2_2_1_2 : reader (layer_format "2.1.2" iform) l7 = Some q2.
Hypothesis full_p1 : length p1 = 6%nat.
Hypothesis full_q1 : length q1 = 8%nat.
Hypothesis full_p2 : length p2 = 6%nat.
Hypothesis full_q2 : length q2 = 8%nat.
Hypothesis closed : closed_attrs w.

(** The attributes after the records 1.1, 1.2, 1.4 and 2.1, after the first
    layer, and the Document after the second layer. *)
Let a3 : obj :=
  assigned (assigned (assigned (attrs w) (zip names_1_1 r11))
    (zip names_1_2 (SInt 0 :: ixsect :: r12))) (zip names_1_4 r14).
Let a4 : obj := assigned a3 (zip names_2_1 (iform :: SInt 2 :: SInt 7 :: r21)).
Let a6 : obj := assigned (assigned a4 (zip names_2_1_1 p1)) (zip names_2_1_2 q1).
Let ah7 : obj * heap := appended (a6, store w) (zip names_2_1_1 p2).
Let ah8 : obj * heap := appended (ah7.1, ah7.2) (zip names_2_1_2 q2).
Let w8 : world := World ah8.1 ah8.2 (Some flines) (8 + s) (files w) (cwd w).

Lemma a3_control :
  a3 !! "IATM" = Some (int 0) ∧ a3 !! "IXSECT" = Some (Scalar ixsect).
Proof.
  unfold a3. split; rewrite assigned_other by closed_list_fact.
  - by apply (assigned_lookup names_1_2 _ _ 0); [closed_list_fact|..].
  - by apply (assigned_lookup names_1_2 _ _ 1); [closed_list_fact|..].
Qed.

Lemma a4_control :
  a4 !! "IATM" = Some (int 0) ∧ a4 !! "IXSECT" = Some (Scalar ixsect)
  ∧ a4 !! "IFORM" = Some (Scalar iform)
  ∧ a4 !! "NLAYRS" = Some (int 2) ∧ a4 !! "NMOL" = Some (int 7).
Proof.
  destruct a3_control as [Hiatm Hixsect].
  unfold a4. repeat split.
  - by rewrite assigned_other by closed_list_fact.
  - by rewrite assigned_other by closed_list_fact.
  - by apply (assigned_lookup names_2_1 _ _ 0); [closed_list_fact|..].
  - by apply (assigned_lookup names_2_1 _ _ 1); [closed_list_fact|..].
  - by apply (assigned_lookup names_2_1 _ _ 2); [closed_list_fact|..].
Qed.

Lemma layer_control (a : obj) (ps qs : list scalar) :
  let a' := assigned (assigned a (zip names_2_1_1 ps)) (zip names_2_1_2 qs) in
  ∀ name, name ∈ ["IATM"; "IXSECT"; "IFORM"; "NLAYRS"; "NMOL"] →
    a' !! name = a !! name
    ∧ assigned a (zip names_2_1_1 ps) !! name = a !! name.
Proof.
  intros a' name Hname. unfold a'.
  assert (name ∉ names_2_1_1 ∧ name ∉ names_2_1_2) as [H1 H2].
  { set_unfold in Hname.
    destruct Hname as [->|[->|[->|[->|[->|[]]]]]]; split; closed_list_fact. }
  by rewrite !assigned_other.
Qed.

Lemma control_not_layer (name : string) :
  name ∈ ["IATM"; "IXSECT"; "IFORM"; "NLAYRS"; "NMOL"] →
  name ∉ names_2_1_1 ∧ name ∉ names_2_1_2.
Proof.
  intros Hname. set_unfold in Hname.
  destruct Hname as [->|[->|[->|[->|[->|[]]]]]]; split; closed_list_fact.
Qed.

Lemma a5_control (name : string) :
  name ∈ ["IATM"; "IXSECT"; "IFORM"; "NLAYRS"; "NMOL"] →
  assigned a4 (zip names_2_1_1 p1) !! name = a4 !! name.
Proof. intros [H1 H2]%control_not_layer. by rewrite assigned_other. Qed.

Lemma a6_control (name : string) :
  name ∈ ["IATM"; "IXSECT"; "IFORM"; "NLAYRS"; "NMOL"] → a6 !! name = a4 !! name.
Proof. intros [H1 H2]%control_not_layer. unfold a6. by rewrite !assigned_other. Qed.

Lemma a7_control (name : string) :
  name ∈ ["IATM"; "IXSECT"; "IFORM"; "NLAYRS"; "NMOL"] → ah7.1 !! name = a4 !! name.
Proof.
  intros Hname. rewrite <- a6_control by done.
  apply control_not_layer in Hname as [H1 H2]. unfold ah7. by rewrite appended_other.
Qed.

Lemma a8_control (name : string) :
  name ∈ ["IATM"; "IXSECT"; "IFORM"; "NLAYRS"; "NMOL"] → ah8.1 !! name = a4 !! name.
Proof.
  intros Hname. rewrite <- a7_control by done.
  apply control_not_layer in Hname as [H1 H2]. unfold ah8. by rewrite appended_other.
Qed.

Lemma full_lookup (vals : list scalar) (names : list string) (j : nat) (name : string) :
  length vals = length names → names !! j = Some name → ∃ x, vals !! j = Some x.
Proof.
  intros Hlen Hj. apply lookup_lt_Some in Hj. apply lookup_lt_is_Some. lia.
Qed.

Lemma a6_layer_2_1_1 (j : nat) (name : string) :
  names_2_1_1 !! j = Some name → ∃ x, p1 !! j = Some x ∧ a6 !! name = Some (Scalar x).
Proof.
  intros Hj. destruct (full_lookup p1 names_2_1_1 j name full_p1 Hj) as [x Hx].
  exists x. split; [done|]. unfold a6. rewrite assigned_other.
  - by apply (assigned_lookup names_2_1_1 _ _ j); [closed_list_fact|..].
  - apply list_elem_of_lookup_2 in Hj. set_unfold in Hj.
    destruct Hj as [->|[->|[->|[->|[->|[->|[]]]]]]]; closed_list_fact.
Qed.

Lemma a6_layer_2_1_2 (j : nat) (name : string) :
  names_2_1_2 !! j = Some name → ∃ x, q1 !! j = Some x ∧ a6 !! name = Some (Scalar x).
Proof.
  intros Hj. destruct (full_lookup q1 names_2_1_2 j name full_q1 Hj) as [x Hx].
  exists x. split; [done|]. unfold a6.
  by apply (assigned_lookup names_2_1_2 _ _ j); [closed_list_fact|..].
Qed.

Lemma a7_layer_2_1_2 (j : nat) (name : string) :
  names_2_1_2 !! j = Some name → ∃ x, q1 !! j = Some x ∧ ah7.1 !! name = Some (Scalar x).
Proof.
  intros Hj. destruct (a6_layer_2_1_2 j name Hj) as (x & Hx & Ha). exists x.
  split; [done|]. unfold ah7. rewrite appended_other; [done|].
  apply list_elem_of_lookup_2 in Hj. set_unfold in Hj.
  destruct Hj as [->|[->|[->|[->|[->|[->|[->|[->|[]]]]]]]]]; closed_list_fact.
Qed.

Ltac world_simpl :=
  cbv beta; cbn [attrs store lines read_i files cwd set_read_i set_lines fst snd];
  rewrite ?bind_assoc.

Ltac read_new line dec names :=
  erewrite (bind_run (read_record reader LW _ New));
  [|eapply (read_record_new_run reader LW _ _ _ _ flines names);
    [reflexivity|exact line| |apply get_fields_static; vm_compute; reflexivity|exact dec]];
  world_simpl.

Lemma two_layers_prefix :
  read_input_rrtm reader LW flines w
  = (read_layer_cross_sections reader LW;; modify (set_lines None)) w8.
Proof.
  destruct a4_control as (Hiatm & Hixsect & Hiform & Hnlayrs & Hnmol).
  unfold read_input_rrtm.
  erewrite (bind_run (modify _)) by reflexivity.
  erewrite (bind_run (lift _)) by (unfold lift; by rewrite bounds).
  erewrite (bind_run (modify _)) by reflexivity.
  world_simpl.
  read_new line0 rec_1_1 names_1_1; [|by apply get_format_static].
  read_new line1 rec_1_2 names_1_2; [|by apply get_format_static].
  read_new line2 rec_1_4 names_1_4; [|by apply get_format_static].
  fold a3.
  erewrite (bind_run (attr "IATM")) by (apply attr_run; apply a3_control).
  change (py_eq (int 0) 0) with true. cbv iota.
  rewrite !bind_assoc.
  read_new line3 rec_2_1 names_2_1; [|by apply get_format_static].
  fold a4.
  erewrite (bind_run (attr_range "NLAYRS")) by (by apply attr_range_run).
  change (py_range 2) with [0%nat; 1%nat]. cbn [for_eachM mode_at Nat.eqb].
  rewrite !bind_assoc.
  erewrite (bind_run (read_record reader LW "2.1.1" New)).
  2: { eapply (read_record_new_run reader LW _ _ _ _ flines names_2_1_1);
       [reflexivity|exact line4|by apply get_format_layer; [|left]
       |apply get_fields_static; vm_compute; reflexivity|exact layer1_2_1_1]. }
  world_simpl.
  erewrite (bind_run (read_record reader LW "2.1.2" New)).
  2: { eapply (read_record_new_run reader LW _ _ _ _ flines names_2_1_2);
       [reflexivity|exact line5
       |apply get_format_layer; [cbn [attrs]; rewrite a5_control; [done|closed_list_fact]|by right]
       |apply get_fields_static; vm_compute; reflexivity|exact layer1_2_1_2]. }
  world_simpl. fold a6.
  erewrite (bind_run (attr_gt7 "NMOL"))
    by (apply attr_gt7_run; cbn [attrs]; rewrite a6_control; [done|closed_list_fact]).
  change (7 <? 7) with false. cbv iota.
  erewrite (bind_run (ret tt)) by reflexivity. rewrite ?bind_assoc.
  erewrite (bind_run (read_record reader LW "2.1.1" Append)).
  2: { eapply (read_record_append_run reader LW _ _ _ _ flines names_2_1_1);
       [reflexivity|exact line6
       |apply get_format_layer; [cbn [attrs]; rewrite a6_control; [done|closed_list_fact]|by left]
       |apply get_fields_static; vm_compute; reflexivity|exact layer2_2_1_1
       |closed_list_fact|].
       intros n [j Hj]%list_elem_of_lookup_1. cbn [attrs].
       destruct (a6_layer_2_1_1 j n Hj) as (x & _ & Hx). eauto. }
  world_simpl. fold ah7.
  erewrite (bind_run (read_record reader LW "2.1.2" Append)).
  2: { eapply (read_record_append_run reader LW _ _ _ _ flines names_2_1_2);
       [reflexivity|exact line7
       |apply get_format_layer; [cbn [attrs]; rewrite a7_control; [done|closed_list_fact]|by right]
       |apply get_fields_static; vm_compute; reflexivity|exact layer2_2_1_2
       |closed_list_fact|].
       intros n [j Hj]%list_elem_of_lookup_1. cbn [attrs].
       destruct (a7_layer_2_1_2 j n Hj) as (x & _ & Hx). eauto. }
  world_simpl. fold ah8.
  erewrite (bind_run (attr_gt7 "NMOL"))
    by (apply attr_gt7_run; cbn [attrs]; rewrite a8_control; [done|closed_list_fact]).
  change (7 <? 7) with false. cbv iota.
  erewrite (bind_run (ret tt)) by reflexivity.
  erewrite (bind_run (ret tt)) by reflexivity.
  reflexivity.
Qed.

Lemma w8_layer_2_1_1 (j : nat) (name : string) :
  names_2_1_1 !! j = Some name →
  ∃ x y p, p1 !! j = Some x ∧ p2 !! j = Some y
    ∧ (length (store w) ≤ p)%nat
    ∧ attrs w8 !! name = Some (Ref p) ∧ store w8 !! p = Some [Scalar x; Scalar y].
Proof.
  intros Hj. destruct (a6_layer_2_1_1 j name Hj) as (x & Hx & Ha).
  destruct (full_lookup p2 names_2_1_1 j name full_p2 Hj) as [y Hy].
  destruct (appended_lookup names_2_1_1 p2 a6 (store w) j name x y) as (p & Hp & H1 & H2);
    [closed_list_fact|done|done| |done|].
  { intros n [j' Hj']%list_elem_of_lookup_1.
    destruct (a6_layer_2_1_1 j' n Hj') as (x' & _ & Hx'). eauto. }
  exists x, y, p. repeat split; try done; cbn [attrs store w8]; unfold ah8.
  - rewrite appended_other; [done|].
    apply list_elem_of_lookup_2 in Hj. set_unfold in Hj.
    destruct Hj as [->|[->|[->|[->|[->|[->|[]]]]]]]; closed_list_fact.
  - by apply appended_store.
Qed.

Lemma w8_layer_2_1_2 (j : nat) (name : string) :
  names_2_1_2 !! j = Some name →
  ∃ x y p, q1 !! j = Some x ∧ q2 !! j = Some y
    ∧ (length (store w) ≤ p)%nat
    ∧ attrs w8 !! name = Some (Ref p) ∧ store w8 !! p = Some [Scalar x; Scalar y].
Proof.
  intros Hj. destruct (a7_layer_2_1_2 j name Hj) as (x & Hx & Ha).
  destruct (full_lookup q2 names_2_1_2 j name full_q2 Hj) as [y Hy].
  destruct (appended_lookup names_2_1_2 q2 ah7.1 ah7.2 j name x y) as (p & Hp & H1 & H2);
    [closed_list_fact|done|done| |done|].
  { intros n [j' Hj']%list_elem_of_lookup_1.
    destruct (a7_layer_2_1_2 j' n Hj') as (x' & _ & Hx'). eauto. }
  exists x, y, p. repeat split; try done.
  pose proof (appended_length (zip names_2_1_1 p2) (a6, store w)) as Hlen.
  fold ah7 in Hlen. cbn [snd] in Hlen. lia.
Qed.

Lemma w8_protects : protects layer_fields (length (store w)) w8 w8.
Proof.
  repeat split; try done. intros name p Hname Hp. left.
  assert (name ∉ names_2_1_1 ∧ name ∉ names_2_1_2) as [H1 H2].
  { unfold layer_fields in Hname. rewrite !not_elem_of_app in Hname. tauto. }
  cbn [attrs w8] in Hp. unfold ah8, ah7 in Hp.
  rewrite !appended_other in Hp by done. unfold a6, a4, a3 in Hp.
  do 6 apply assigned_ref in Hp. by eapply closed.
Qed.

Lemma w8_control (name : string) :
  name ∈ ["IATM"; "IXSECT"; "IFORM"; "NLAYRS"; "NMOL"] → name ∈ layer_fields.
Proof. intros H. unfold layer_fields. rewrite !elem_of_app. auto. Qed.

Lemma step_protected (rec : string) (md : mode) (k : unit → M unit) (wa wt : world) :
  md ≠ AppendDepth →
  rec ∈ ["2.2"; "2.2.1"; "2.2.2"; "2.2.3"; "2.2.4"; "2.2.5"] →
  protects layer_fields (length (store w)) w8 wa →
  bind (read_record reader LW rec md) k wa = (Ok tt, wt) →
  ∃ wb, protects layer_fields (length (store w)) w8 wb ∧ k tt wb = (Ok tt, wt).
Proof.
  intros Hmd Hrec Hwa. unfold bind.
  pose proof (read_record_protects reader LW layer_fields (length (store w)) w8 wa rec md Hmd) as H.
  destruct (read_record reader LW rec md wa) as [[[]|err] wb]; [|done].
  intros Hk. exists wb. split; [|done]. apply H; [|done].
  intros names name. by apply cross_section_fields.
Qed.

Lemma step_gt7 (k : bool → M unit) (wa wt : world) :
  bind (attr_gt7 "IXMOLS") k wa = (Ok tt, wt) →
  ∃ x c, attrs wa !! "IXMOLS" = Some x ∧ py_gt x 7 = Ok c ∧ k c wa = (Ok tt, wt).
Proof.
  unfold bind. destruct (attr_gt7 "IXMOLS" wa) as [[c|err] wb] eqn:Hc; [|done].
  apply attr_gt7_Ok in Hc as (-> & x & Hx & Hgt). eauto.
Qed.

Lemma no_2_2_5 (md : mode) (k : unit → M unit) (wa wt : world) :
  bind (read_record reader LW "2.2.5" md) k wa ≠ (Ok tt, wt).
Proof.
  unfold bind, read_record, bind, read_line, eval.
  destruct (lines wa) as [ls|]; [|done].
  destruct (ls !! read_i wa); [|done].
  destruct (get_format LW (attrs wa) "2.2.5"); [|done].
  by assert (get_fields LW (attrs wa) "2.2.5" = Raise KeyError) as -> by done.
Qed.

Lemma cross_sections_outcome (wt : world) :
  read_layer_cross_sections reader LW w8 = (Ok tt, wt) →
  protects layer_fields (length (store w)) w8 wt
  ∧ (py_eq (Scalar ixsect) 1 = true →
     ∃ x, attrs wt !! "IXMOLS" = Some x ∧ py_gt x 7 = Ok false).
Proof.
  unfold read_layer_cross_sections.
  erewrite (bind_run (attr "IXSECT"))
    by (apply attr_run; cbn [attrs w8]; rewrite a8_control; [apply a4_control|closed_list_fact]).
  destruct (py_eq (Scalar ixsect) 1).
  2: { intros [= <-]. split; [apply w8_protects|done]. }
  intros H.
  apply step_protected in H as (w9 & P9 & H); [|done|closed_list_fact|apply w8_protects].
  apply step_protected in H as (w10 & P10 & H); [|done|closed_list_fact|done].
  apply step_protected in H as (w11 & P11 & H); [|done|closed_list_fact|done].
  erewrite (bind_run (attr_range "NLAYRS")) in H.
  2: { apply attr_range_run. destruct P11 as (P11 & _).
       rewrite P11 by (apply w8_control; closed_list_fact).
       cbn [attrs w8]. rewrite a8_control; [apply a4_control|closed_list_fact]. }
  change (py_range 2) with [0%nat; 1%nat] in H.
  cbn [for_eachM mode_at Nat.eqb] in H. rewrite !bind_assoc in H.
  apply step_protected in H as (w12 & P12 & H); [|done|closed_list_fact|done].
  rewrite !bind_assoc in H.
  apply step_protected in H as (w13 & P13 & H); [|done|closed_list_fact|done].
  rewrite !bind_assoc in H.
  apply step_gt7 in H as (x & [] & Hx & Hgt & H); [by apply no_2_2_5 in H|].
  erewrite (bind_run (ret tt)) in H by reflexivity. rewrite !bind_assoc in H.
  apply step_protected in H as (w14 & P14 & H); [|done|closed_list_fact|done].
  rewrite !bind_assoc in H.
  apply step_protected in H as (w15 & P15 & H); [|done|closed_list_fact|done].
  rewrite !bind_assoc in H.
  apply step_gt7 in H as (x' & [] & Hx' & Hgt' & H); [by apply no_2_2_5 in H|].
  erewrite (bind_run (ret tt)) in H by reflexivity.
  injection H as <-. split; [done|]. eauto.
Qed.

(** C1: for a longwave primary file whose records 1.2 and 2.1 decode to
    IATM=0, NLAYRS=2 and NMOL=7 and whose four per-layer lines decode to full
    records, [read_input_rrtm] returns when the file has no cross-section
    records (IXSECT is not 1), and whenever it returns, every field of the
    records 2.1.1 and 2.1.2 of the Document is a list of two values, the
    value of the first layer line and then the value of the second; the
    logical order of the Document does not list 2.1.3, and its explicit order
    lists 2.1.1 and 2.1.2 twice each. *)
Theorem read_input_rrtm_two_layers :
  (py_eq (Scalar ixsect) 1 = false →
   (read_input_rrtm reader LW flines w).1 = Ok tt)
  ∧ (∀ w', read_input_rrtm reader LW flines w = (Ok tt, w') →
       (∀ j name, names_2_1_1 !! j = Some name →
          ∃ x y, p1 !! j = Some x ∧ p2 !! j = Some y ∧ holds_pair w' name x y)
       ∧ (∀ j name, names_2_1_2 !! j = Some name →
          ∃ x y, q1 !! j = Some x ∧ q2 !! j = Some y ∧ holds_pair w' name x y)
       ∧ (∃ L, get_logical_record_order (attrs w') (store w') "input_rrtm" = Ok L
               ∧ "2.1.3" ∉ L)
       ∧ (∃ E, get_explicit_record_order (attrs w') (store w') "input_rrtm" = Ok E
               ∧ occurs "2.1.1" E = 2%nat ∧ occurs "2.1.2" E = 2%nat)).
Proof.
  rewrite two_layers_prefix. split.
  - intros Hx. unfold bind at 1, read_layer_cross_sections.
    erewrite (bind_run (attr "IXSECT"))
      by (apply attr_run; cbn [attrs w8]; rewrite a8_control;
          [apply a4_control|closed_list_fact]).
    by rewrite Hx.
  - intros w'. unfold bind at 1.
    destruct (read_layer_cross_sections reader LW w8) as [[[]|err] wt] eqn:Htail; [|done].
    apply cross_sections_outcome in Htail as [(Hattrs & Hstore & _ & _) Hixmols].
    intros [= <-]. cbn [attrs store set_lines].
    assert (Hlayer : ∀ name x y p,
              name ∈ layer_fields → (length (store w) ≤ p)%nat →
              attrs w8 !! name = Some (Ref p) →
              store w8 !! p = Some [Scalar x; Scalar y] →
              holds_pair (set_lines None wt) name x y).
    { intros name x y p Hname Hp Ha Hs. exists p. cbn [attrs store set_lines].
      rewrite Hattrs by done. split; [done|]. rewrite Hstore; [done|].
      split; [done|]. by eapply lookup_lt_Some. }
    assert (Hctl : ∀ name, name ∈ ["IATM"; "IXSECT"; "IFORM"; "NLAYRS"; "NMOL"] →
              attrs wt !! name = a4 !! name).
    { intros name Hname. rewrite Hattrs by by apply w8_control.
      cbn [attrs w8]. by apply a8_control. }
    destruct a4_control as (Hiatm & Hixsect & _ & Hnlayrs & Hnmol).
    split; [|split].
    + intros j name Hj. destruct (w8_layer_2_1_1 j name Hj) as (x & y & p & ? & ? & ? & ? & ?).
      exists x, y. repeat split; try done. eapply Hlayer; try done.
      unfold layer_fields. apply elem_of_app. left. by eapply list_elem_of_lookup_2.
    + intros j name Hj. destruct (w8_layer_2_1_2 j name Hj) as (x & y & p & ? & ? & ? & ? & ?).
      exists x, y. repeat split; try done. eapply Hlayer; try done.
      unfold layer_fields. apply elem_of_app. right. apply elem_of_app. left.
      by eapply list_elem_of_lookup_2.
    + apply (orders_of_two_layers (attrs wt) (store wt) (Scalar ixsect)).
      * rewrite Hctl; [done|closed_list_fact].
      * rewrite Hctl; [done|closed_list_fact].
      * rewrite Hctl; [done|closed_list_fact].
      * rewrite Hctl; [done|closed_list_fact].
      * done.
Qed.

End TwoLayers.

Lemma read_input_rrtm_two_layers_witness :
  let out := read_input_rrtm demo_reader LW two_layer_file empty_world in
  out.1 = Ok tt
  ∧ holds_pair out.2 "PAVE" (SInt 11) (SInt 31)
  ∧ holds_pair out.2 "WBROAD(L)" (SInt 28) (SInt 48).
Proof.
  intros out.
  destruct (read_input_rrtm_two_layers demo_reader two_layer_file empty_world 1 9
    "$ demo" "0 0 0 0 0 1" "300 0 0 1 1 1 1 1 1 1 1 1 1 1 1 1 1 1 1" "0 2 7"
    "11 12 13 14 15 16" "21 22 23 24 25 26 27 28"
    "31 32 33 34 35 36" "41 42 43 44 45 46 47 48"
    [SStr "$"; SStr "demo"]
    (SInt <$> [0; 0; 0; 1])
    (SInt <$> [300; 0; 0; 1; 1; 1; 1; 1; 1; 1; 1; 1; 1; 1; 1; 1; 1; 1; 1])
    []
    (SInt <$> [11; 12; 13; 14; 15; 16])
    (SInt <$> [21; 22; 23; 24; 25; 26; 27; 28])
    (SInt <$> [31; 32; 33; 34; 35; 36])
    (SInt <$> [41; 42; 43; 44; 45; 46; 47; 48])
    (SInt 0) (SInt 0)
    ltac:(vm_compute; reflexivity)
    ltac:(reflexivity) ltac:(reflexivity) ltac:(reflexivity) ltac:(reflexivity)
    ltac:(reflexivity) ltac:(reflexivity) ltac:(reflexivity) ltac:(reflexivity)
    ltac:(vm_compute; reflexivity) ltac:(vm_compute; reflexivity)
    ltac:(vm_compute; reflexivity) ltac:(vm_compute; reflexivity)
    ltac:(vm_compute; reflexivity) ltac:(vm_compute; reflexivity)
    ltac:(vm_compute; reflexivity) ltac:(vm_compute; reflexivity)
    ltac:(reflexivity) ltac:(reflexivity) ltac:(reflexivity) ltac:(reflexivity)
    ltac:(intros name p H; discriminate H)) as [Hrun Hprops].
  specialize (Hrun eq_refl). fold out in Hrun.
  split; [exact Hrun|].
  destruct (Hprops out.2) as (H1 & H2 & _).
  { fold out. destruct out as [r w']. cbn [fst] in Hrun. by rewrite Hrun. }
  destruct (H1 0%nat "PAVE" eq_refl) as (x & y & [= <-] & [= <-] & Hp).
  destruct (H2 7%nat "WBROAD(L)" eq_refl) as (x & y & [= <-] & [= <-] & Hq).
  by split.
Defined.

(** ** The read cursor, and what the readers can raise *)

Ltac in_exns :=
  cbn [raises_within];
  first [exact I | (apply (bool_decide_unpack _); vm_compute; exact I)].

Lemma steady_forward {A} (m : M A) : steady m → forward m.
Proof.
  intros Hm w. destruct (Hm w) as (H1 & H2 & H3).
  repeat split; [done|lia|done|intros; lia].
Qed.

Lemma steady_bind {A B} (m : M A) (k : A → M B) :
  steady m → (∀ x, steady (k x)) → steady (bind m k).
Proof.
  intros Hm Hk w. unfold bind. destruct (Hm w) as (H1 & H2 & H3).
  destruct (m w) as [[x|e] w1]; cbn [fst snd] in *; [|done].
  destruct (Hk x w1) as (H4 & H5 & H6). repeat split; [done|congruence..].
Qed.

Lemma forward_bind {A B} (m : M A) (k : A → M B) :
  forward m → (∀ x, forward (k x)) → forward (bind m k).
Proof.
  intros Hm Hk w. unfold bind. destruct (Hm w) as (H1 & H2 & H3 & H4).
  destruct (m w) as [[x|e] w1]; cbn [fst snd] in *; [|done].
  destruct (Hk x w1) as (H5 & H6 & H7 & H8).
  repeat split; [done|lia|congruence|].
  intros ls Hls Hle. apply H8; [congruence|by apply (H4 ls)].
Qed.

Lemma advancing_bind (m : M unit) (k : unit → M unit) :
  advancing m → (∀ x, forward (k x)) → advancing (bind m k).
Proof.
  intros [Hm Hlt] Hk. split; [by apply forward_bind|].
  intros w. specialize (Hlt w). unfold bind.
  destruct (m w) as [[[]|e] w1]; cbn [fst snd] in *; [|done].
  destruct (Hk tt w1) as (_ & H5 & _). intros _. specialize (Hlt eq_refl). lia.
Qed.

Lemma steady_ret {A} (x : A) : steady (ret x).
Proof. by intros w. Qed.

Lemma steady_raise {A} (e : exn) : e ∈ record_exns → steady (raise (A:=A) e).
Proof. by intros He w. Qed.

Lemma steady_lift {A} (r : result A) : raises_within record_exns r → steady (lift r).
Proof. by intros Hr w. Qed.

Lemma steady_eval {A} (f : obj → heap → result A) :
  (∀ a h, raises_within record_exns (f a h)) → steady (eval f).
Proof. intros Hf w. split; [apply Hf|done]. Qed.

Lemma steady_modify (f : world → world) :
  (∀ w, read_i (f w) = read_i w ∧ lines (f w) = lines w) → steady (modify f).
Proof. intros Hf w. split; [done|apply Hf]. Qed.

Lemma steady_for_eachM {X} (xs : list X) (body : X → M unit) :
  (∀ x, steady (body x)) → steady (for_eachM xs body).
Proof.
  intros Hbody. induction xs as [|x xs IH]; [apply steady_ret|].
  cbn [for_eachM]. apply steady_bind; [apply Hbody|done].
Qed.

Lemma forward_for_eachM {X} (xs : list X) (body : X → M unit) :
  (∀ x, forward (body x)) → forward (for_eachM xs body).
Proof.
  intros Hbody. induction xs as [|x xs IH]; [apply steady_forward, steady_ret|].
  cbn [for_eachM]. apply forward_bind; [apply Hbody|done].
Qed.

Ltac steady_step :=
  match goal with
  | |- steady (bind _ _) => apply steady_bind; [|intros ?]
  | |- steady (ret _) => apply steady_ret
  | |- steady (raise _) => apply steady_raise; in_exns
  | |- steady (modify _) => apply steady_modify; intros ?; split; reflexivity
  | |- steady (match ?x with _ => _ end) => destruct x
  | |- steady (if ?x then _ else _) => destruct x
  end.

Lemma steady_getattr_key (k : key) : steady (getattr_key k).
Proof.
  destruct k; [|apply steady_raise; in_exns].
  apply steady_eval. intros a h. unfold getattr. destruct (a !! s); in_exns.
Qed.

Lemma steady_attr (name : string) : steady (attr name).
Proof.
  apply steady_eval. intros a h. unfold getattr. destruct (a !! name); in_exns.
Qed.

Lemma steady_deref (p : nat) : steady (deref p).
Proof.
  intros w. unfold deref. destruct (store w !! p); cbn [fst snd]; repeat split; in_exns.
Qed.

Lemma steady_setattr (k : key) (x : pyval) : steady (setattr k x).
Proof. unfold setattr. repeat steady_step. Qed.

Lemma steady_as_list (x : pyval) : steady (as_list x).
Proof. unfold as_list. destruct (is_list x); [apply steady_ret|]. by intros w. Qed.

Lemma steady_list_append (l x : pyval) : steady (list_append l x).
Proof. unfold list_append. repeat first [apply steady_deref | steady_step]. Qed.

Lemma steady_last_item (l : pyval) : steady (last_item l).
Proof. unfold last_item. repeat first [apply steady_deref | steady_step]. Qed.

Lemma steady_set_last_item (l x : pyval) : steady (set_last_item l x).
Proof. unfold set_last_item. repeat first [apply steady_deref | steady_step]. Qed.

Lemma steady_assign (md : mode) (k : key) (val : scalar) : steady (assign md k val).
Proof.
  unfold assign. destruct md;
    repeat first [ apply steady_setattr | apply steady_getattr_key | apply steady_as_list
                 | apply steady_list_append | apply steady_last_item
                 | apply steady_set_last_item | steady_step ].
Qed.

Lemma dict_get_raises {A} (d : list (string * A)) (k : string) (e : exn) :
  dict_get d k = Raise e → e = KeyError.
Proof.
  induction d as [|[k' x] d IH]; cbn [dict_get]; [congruence|].
  by destruct (String.eqb k' k).
Qed.

Lemma dict_get_elem {A} (d : list (string * A)) (k : string) (x : A) :
  dict_get d k = Ok x → (k, x) ∈ d.
Proof.
  induction d as [|[k' y] d IH]; cbn [dict_get]; [done|].
  destruct (String.eqb_spec k' k) as [->|_]; [intros [= ->]; left|intros H; right; auto].
Qed.

Ltac entry_raises a :=
  cbn [snd eval_entry fmt_by_flag names_upto names_pmom]; unfold getattr;
  repeat match goal with
         | |- context [a !! ?n] => destruct (a !! n) as [[[]|]|]; cbn [rbind py_int]
         end;
  in_exns.

Lemma formats_raise (v : variant) :
  Forall (fun kv => ∀ a, raises_within record_exns (eval_entry kv.2 a)) (formats v).
Proof.
  destruct v; unfold formats;
    repeat (apply Forall_cons; split; [intros a; entry_raises a|]); by apply Forall_nil.
Qed.

Lemma records_fields_raise (v : variant) :
  Forall (fun kv => ∀ a, raises_within record_exns (eval_entry kv.2 a)) (records_fields v).
Proof.
  destruct v; unfold records_fields;
    repeat (apply Forall_cons; split; [intros a; entry_raises a|]); by apply Forall_nil.
Qed.

Lemma get_format_raises (v : variant) (a : obj) (rec : string) :
  raises_within record_exns (get_format v a rec).
Proof.
  unfold get_format. destruct (dict_get (formats v) rec) as [entry|e] eqn:H; cbn [rbind].
  - apply dict_get_elem in H.
    exact (proj1 (Forall_forall _ _) (formats_raise v) _ H a).
  - apply dict_get_raises in H as ->. in_exns.
Qed.

Lemma get_fields_raises (v : variant) (a : obj) (rec : string) :
  raises_within record_exns (get_fields v a rec).
Proof.
  unfold get_fields. destruct (dict_get (records_fields v) rec) as [entry|e] eqn:H;
    cbn [rbind].
  - apply dict_get_elem in H.
    exact (proj1 (Forall_forall _ _) (records_fields_raise v) _ H a).
  - apply dict_get_raises in H as ->. in_exns.
Qed.

Lemma forward_quiet {A} (m : M A) : forward m → quiet m.
Proof.
  intros Hm w. destruct (Hm w) as (H1 & _ & H3 & H4). repeat split; [|done..].
  destruct (m w).1; [done|]. cbn [raises_within] in *. by right.
Qed.

Lemma quiet_bind {A B} (m : M A) (k : A → M B) :
  quiet m → (∀ x, quiet (k x)) → quiet (bind m k).
Proof.
  intros Hm Hk w. unfold bind. destruct (Hm w) as (H1 & H2 & H3).
  destruct (m w) as [[x|e] w1]; cbn [fst snd] in *; [|done].
  destruct (Hk x w1) as (H4 & H5 & H6). repeat split; [done|congruence|].
  intros ls Hls Hle. apply H6; [congruence|by apply (H3 ls)].
Qed.

Lemma closing_bind {A} (flines : list string) (m : M A) (k : A → M unit) :
  quiet m → (∀ x, closing flines (k x)) → closing flines (bind m k).
Proof.
  intros Hm Hk w Hls Hle. unfold bind. destruct (Hm w) as (H1 & H2 & H3).
  destruct (m w) as [[x|e] w1]; cbn [fst snd] in *.
  - apply Hk; [congruence|by apply H3].
  - split; [done|congruence].
Qed.

Lemma closing_del_lines (flines : list string) :
  closing flines (modify (set_lines None)).
Proof. intros w Hls Hle. by split. Qed.

Lemma steady_read_line : steady read_line.
Proof.
  intros w. unfold read_line. destruct (lines w) as [ls|] eqn:Hls; cbn [fst snd];
    [destruct (ls !! read_i w)|]; cbn [fst snd]; repeat split; try done; in_exns.
Qed.

Lemma steady_attr_gt7 (name : string) : steady (attr_gt7 name).
Proof.
  unfold attr_gt7. apply steady_bind; [apply steady_attr|].
  intros [[]|]; apply steady_lift; cbn [py_gt]; in_exns.
Qed.

Lemma steady_attr_range (name : string) : steady (attr_range name).
Proof.
  unfold attr_range. apply steady_bind; [apply steady_attr|].
  intros x. apply steady_bind; [|intros n; apply steady_ret].
  apply steady_lift. destruct x as [[]|]; cbn [py_int]; in_exns.
Qed.

Lemma stepping_bind {A} (m : M A) (k : A → M unit) :
  steady m → (∀ x, stepping (k x)) → stepping (bind m k).
Proof.
  intros Hm Hk w. unfold bind. destruct (Hm w) as (H1 & H2 & H3).
  destruct (m w) as [[x|e] w1]; cbn [fst snd] in *; [|done].
  destruct (Hk x w1) as (H4 & H5). split; [congruence|].
  destruct (k x w1).1; [congruence|]. destruct H5. split; [congruence|done].
Qed.

Lemma stepping_step_line : stepping step_line.
Proof. by intros w. Qed.

Lemma sentinel_lines_lt (c : ascii) (ls : list string) (i : nat) (l : list nat) :
  sentinel_lines c i ls = Ok l → ∀ x, x ∈ l → (i ≤ x < i + length ls)%nat.
Proof.
  revert i l; induction ls as [|[|c0 s] ls IH]; intros i l; cbn [sentinel_lines length].
  - intros [= <-] x Hx. by apply elem_of_nil in Hx.
  - discriminate.
  - destruct (sentinel_lines c (S i) ls) as [r|] eqn:Hr; cbn [rbind]; [|discriminate].
    intros [= <-] x Hx. specialize (IH (S i) r Hr).
    destruct (Ascii.eqb c0 c).
    + apply elem_of_cons in Hx as [->|Hx]; [lia|]. specialize (IH x Hx). lia.
    + specialize (IH x Hx). lia.
Qed.

Lemma get_input_rrtm_file_bounds_Ok (ls : list string) (file : string) (s e : nat) :
  get_input_rrtm_file_bounds ls file = Ok (s, e) → (s < e < length ls)%nat.
Proof.
  unfold get_input_rrtm_file_bounds.
  destruct (sentinel_lines "$" 0 ls) as [starts|] eqn:H1; cbn [rbind]; [|discriminate].
  destruct (sentinel_lines "%" 0 ls) as [ends|] eqn:H2; cbn [rbind]; [|discriminate].
  pose proof (sentinel_lines_lt _ _ _ _ H2) as He.
  destruct (if String.eqb file "in_cld_rrtm" then [0%nat] else starts) as [|s0 [|? ?]];
    destruct ends as [|e0 [|? ?]]; cbn [length Nat.eqb andb list_lt];
    rewrite ?andb_false_r; cbn [andb]; try discriminate.
  destruct (s0 <? e0)%nat eqn:Hlt; [|destruct (e0 <? s0)%nat; discriminate].
  intros [= <- <-]. apply Nat.ltb_lt in Hlt. specialize (He e0 ltac:(left)). lia.
Qed.

Lemma get_input_rrtm_file_bounds_raises (ls : list string) (file : string) :
  raises_within read_exns (get_input_rrtm_file_bounds ls file).
Proof.
  unfold get_input_rrtm_file_bounds.
  assert (Hs : ∀ c i l, raises_within read_exns (sentinel_lines c i l)).
  { intros c i l; revert i; induction l as [|[|c0 s] l IH]; intros i;
      cbn [sentinel_lines]; try in_exns.
    specialize (IH (S i)). by destruct (sentinel_lines c (S i) l). }
  pose proof (Hs "$"%char 0%nat ls) as H1; pose proof (Hs "%"%char 0%nat ls) as H2.
  destruct (sentinel_lines "$" 0 ls) as [a|]; cbn [rbind]; [|done].
  destruct (sentinel_lines "%" 0 ls) as [a0|]; cbn [rbind]; [|done].
  unfold raise_with_unbound_name. destruct (_ && _); [|in_exns].
  destruct (if String.eqb file "in_cld_rrtm" then [0%nat] else a) as [|? ?], a0;
    in_exns.
Qed.

Lemma quiet_compute_NSTR : quiet compute_NSTR.
Proof.
  unfold compute_NSTR.
  apply quiet_bind; [apply forward_quiet, steady_forward, steady_setattr|intros _].
  apply quiet_bind; [apply forward_quiet, steady_forward, steady_attr|intros iscat].
  destruct (_ || _); [|apply forward_quiet, steady_forward, steady_ret].
  apply quiet_bind; [apply forward_quiet, steady_forward, steady_attr|intros numangs].
  repeat match goal with
         | |- quiet (if ?c then _ else _) => destruct c
         | |- quiet (setattr _ _) => apply forward_quiet, steady_forward, steady_setattr
         end.
  intros w. unfold raise_with_unbound_name, lift. cbn [fst snd]. repeat split; try done.
  in_exns.
Qed.

Lemma while_read_forward (fuel end_i : nat) (body : M unit) :
  advancing body →
  ∀ w, (end_i - read_i w ≤ fuel)%nat →
       raises_within record_exns (while_read fuel end_i body w).1
       ∧ (read_i w ≤ read_i (while_read fuel end_i body w).2)%nat
       ∧ lines (while_read fuel end_i body w).2 = lines w
       ∧ (∀ ls, lines w = Some ls → (read_i w ≤ length ls)%nat →
            (read_i (while_read fuel end_i body w).2 ≤ length ls)%nat).
Proof.
  intros [Hfw Hlt]. induction fuel as [|fuel IH]; intros w Hfuel; cbn [while_read].
  - destruct (read_i w <? end_i)%nat eqn:Hc; [apply Nat.ltb_lt in Hc; lia|].
    cbn [fst snd]. repeat split; [lia|auto].
  - destruct (read_i w <? end_i)%nat eqn:Hc;
      [|cbn [fst snd]; repeat split; [lia|auto]].
    destruct (Hfw w) as (H1 & H2 & H3 & H4). specialize (Hlt w).
    destruct (body w) as [[[]|e] w1]; cbn [fst snd] in *.
    + specialize (Hlt eq_refl).
      destruct (IH w1) as (H5 & H6 & H7 & H8); [lia|].
      repeat split; [done|lia|congruence|].
      intros ls Hls Hle. apply H8; [congruence|by apply H4].
    + by repeat split.
Qed.

Lemma forward_while_read (end_i : nat) (body : M unit) :
  advancing body → forward (while_read end_i end_i body).
Proof. intros Hbody w. apply while_read_forward; [done|lia]. Qed.

Ltac cursor_done :=
  cbn [fst snd read_i lines set_read_i] in *; repeat split;
  first [done | in_exns | lia | (intros; simplify_eq; lia)].

Section Cursor.

Variable reader : string → string → option (list scalar).
Variable v : variant.

Lemma steady_decode (fmt s : string) : steady (decode reader fmt s).
Proof. unfold decode. apply steady_lift. destruct (reader fmt s); in_exns. Qed.

Lemma stepping_read_record (rec : string) (md : mode) :
  stepping (read_record reader v rec md).
Proof.
  unfold read_record.
  apply stepping_bind; [apply steady_read_line|intros s].
  apply stepping_bind; [apply steady_eval; intros; apply get_format_raises|intros fmt].
  apply stepping_bind; [apply steady_eval; intros; apply get_fields_raises|intros names].
  apply stepping_bind; [apply steady_decode|intros fields].
  apply stepping_bind; [|intros _; apply stepping_step_line].
  apply steady_for_eachM. intros kv. apply steady_assign.
Qed.

Lemma read_record_Ok_line (rec : string) (md : mode) (w : world) :
  (read_record reader v rec md w).1 = Ok tt →
  ∃ ls s, lines w = Some ls ∧ ls !! read_i w = Some s.
Proof.
  unfold read_record. unfold bind at 1. unfold read_line.
  destruct (lines w) as [ls|]; [|discriminate].
  destruct (ls !! read_i w) as [s|] eqn:Hs; [intros _; eauto|discriminate].
Qed.

(** X2: [read_record] leaves [self.lines] alone.  When it returns, the line
    at [read_i] exists and [read_i] is one more than before.  When it raises,
    [read_i] is unchanged and the exception is an AttributeError, IndexError,
    KeyError or TypeError of the method, or an error raised by the
    fortranformat reader ([SystemError] stands for a reference to a list
    object that does not exist). *)
Theorem read_record_cursor (rec : string) (md : mode) (w : world) :
  let out := read_record reader v rec md w in
  lines out.2 = lines w
  ∧ match out.1 with
    | Ok _ => read_i out.2 = S (read_i w)
              ∧ ∃ ls s, lines w = Some ls ∧ ls !! read_i w = Some s
    | Raise e => read_i out.2 = read_i w
                 ∧ e ∈ [AttributeError; IndexError; KeyError; TypeError; ReaderError;
                        SystemError]
    end.
Proof.
  intros out. destruct (stepping_read_record rec md w) as [Hl Hc].
  split; [exact Hl|]. pose proof (read_record_Ok_line rec md w) as Hline.
  fold out in Hc, Hline. destruct out.1 as [[]|e]; [|exact Hc].
  split; [exact Hc|by apply Hline].
Qed.

Lemma advancing_read_record (rec : string) (md : mode) :
  advancing (read_record reader v rec md).
Proof.
  split.
  - intros w. destruct (stepping_read_record rec md w) as [Hl Hc].
    pose proof (read_record_Ok_line rec md w) as Hline.
    destruct (read_record reader v rec md w).1 as [[]|e].
    + destruct Hline as (ls & s & Hls & Hs); [done|]. apply lookup_lt_Some in Hs.
      repeat split; [lia|done|]. intros ls' Hls' _. rewrite Hc. simplify_eq. lia.
    + destruct Hc as [Hc He]. repeat split; [done|lia|done|]. intros; lia.
  - intros w Hok. destruct (stepping_read_record rec md w) as [_ Hc].
    rewrite Hok in Hc. lia.
Qed.

Lemma forward_read_record (rec : string) (md : mode) :
  forward (read_record reader v rec md).
Proof. apply advancing_read_record. Qed.

Lemma greedy_loop_forward (fmt : string) (inames : nat) (rest : list string)
    (names : list key) (record : list (key * scalar)) (i : nat) :
  raises_within record_exns (greedy_loop reader fmt inames rest names record i).1
  ∧ (i ≤ (greedy_loop reader fmt inames rest names record i).2 ≤ i + length rest)%nat.
Proof.
  revert names record i. induction rest as [|s rest IH]; intros names record i;
    cbn [greedy_loop length];
    destruct (length record <? inames)%nat; cbn [fst snd]; try (split; [in_exns|lia]).
  destruct (reader fmt s) as [fields|]; cbn [fst snd]; [|split; [in_exns|lia]].
  destruct (IH (filter (fun k => k ∉ record.*1) names)
               (dict_update record (zip (filter (fun k => k ∉ record.*1) names) fields))
               (S i)) as [H1 H2].
  split; [done|lia].
Qed.

Lemma forward_read_greedy_record (rec : string) :
  forward (read_greedy_record reader v rec).
Proof.
  intros w. remember (read_greedy_record reader v rec w) as out eqn:Hout.
  revert Hout. unfold read_greedy_record. unfold bind at 1. unfold read_line.
  destruct (lines w) as [ls|] eqn:Hls; [|intros ->; cursor_done].
  destruct (ls !! read_i w) as [s|] eqn:Hs; [|intros ->; cursor_done].
  apply lookup_lt_Some in Hs.
  unfold bind at 1, eval at 1.
  pose proof (get_format_raises v (attrs w) rec) as Hfmt.
  destruct (get_format v (attrs w) rec) as [fmt|e]; [|intros ->; cursor_done].
  unfold bind at 1, eval at 1.
  pose proof (get_fields_raises v (attrs w) rec) as Hnames.
  destruct (get_fields v (attrs w) rec) as [names|e]; [|intros ->; cursor_done].
  unfold bind at 1, decode, lift.
  destruct (reader fmt s) as [fields|]; [|intros ->; cursor_done].
  unfold bind at 1, step_line, modify. unfold bind at 1.
  cbn [lines read_i set_read_i]. rewrite Hls.
  pose proof (greedy_loop_forward fmt (length names) (drop (S (read_i w)) ls) names
                (dict_update [] (zip names fields)) (S (read_i w))) as [Hr Hi].
  rewrite length_drop in Hi.
  destruct (greedy_loop reader fmt (length names) (drop (S (read_i w)) ls) names
              (dict_update [] (zip names fields)) (S (read_i w))) as [[record|e] i];
    cbn [fst snd] in Hr, Hi; [|intros ->; cursor_done].
  destruct (steady_for_eachM record (fun kv => setattr kv.1 (Scalar kv.2))
              (fun kv => steady_setattr _ _)
              (set_read_i i (set_read_i (S (read_i w)) w))) as (H1 & H2 & H3).
  intros ->. repeat split; [done|rewrite H2; cbn; lia|by rewrite H3|].
  intros ls' Hls' _. rewrite H2. cbn [read_i set_read_i]. simplify_eq. lia.
Qed.

End Cursor.

Section FileReaders.

Variable reader : string → string → option (list scalar).
Variable v : variant.

Ltac forward_step :=
  match goal with
  | |- forward (bind _ _) => apply forward_bind; [|intros ?]
  | |- forward (read_record _ _ _ _) => apply forward_read_record
  | |- forward (read_greedy_record _ _ _) => apply forward_read_greedy_record
  | |- forward (attr _) => apply steady_forward, steady_attr
  | |- forward (attr_range _) => apply steady_forward, steady_attr_range
  | |- forward (attr_gt7 _) => apply steady_forward, steady_attr_gt7
  | |- forward (ret _) => apply steady_forward, steady_ret
  | |- forward (for_eachM _ _) => apply forward_for_eachM; intros ?
  | |- forward (while_read _ _ _) => apply forward_while_read
  | |- forward (if ?c then _ else _) => destruct c
  | |- advancing (bind _ _) => apply advancing_bind; [|intros ?]
  | |- advancing (read_record _ _ _ _) => apply advancing_read_record
  end.

Lemma forward_read_layer_cross_sections :
  forward (read_layer_cross_sections reader v).
Proof. unfold read_layer_cross_sections. repeat forward_step. Qed.

Ltac closing_step :=
  match goal with
  | |- closing _ (bind _ _) => apply closing_bind; [apply forward_quiet|intros ?]
  | |- closing _ (modify (set_lines None)) => apply closing_del_lines
  end.

Lemma open_lines (flines : list string) (file : string) (k : nat * nat → M unit)
    (w : world) :
  (∀ bounds, closing flines (k bounds)) →
  let out := (modify (set_lines (Some flines));;
              let! bounds := lift (get_input_rrtm_file_bounds flines file) in
              modify (set_read_i bounds.1);; k bounds) w in
  match out.1 with
  | Ok _ => lines out.2 = None ∧ (read_i out.2 ≤ length flines)%nat
  | Raise e => e ∈ read_exns ∧ lines out.2 = Some flines
  end.
Proof.
  intros Hk. unfold bind, modify, lift.
  pose proof (get_input_rrtm_file_bounds_raises flines file) as Hr.
  pose proof (get_input_rrtm_file_bounds_Ok flines file) as Hb.
  destruct (get_input_rrtm_file_bounds flines file) as [[s e]|err]; cbn [fst snd].
  - specialize (Hb s e eq_refl). apply Hk; cbn [lines read_i set_read_i set_lines]; [done|lia].
  - by split.
Qed.

(** X3: [read_input_rrtm] from the point where the file is open and its
    lines are read ([flines] is what [f.readlines()] gave), with
    [warnings.warn] warning and not raising.  Whatever the
    lines and the Document, the method returns, or one of its own statements
    raises AttributeError, IndexError, KeyError, TypeError or NameError, or
    the fortranformat reader raises ([ReaderError], of whatever Python
    class; [SystemError] stands for a reference to a list object that does
    not exist).  When it returns, the attribute [lines] is deleted and
    [read_i] is at most the number of lines; when it raises, [lines] still
    holds the lines of the file. *)
Theorem read_input_rrtm_outcome (flines : list string) (w : world) :
  let out := read_input_rrtm reader v flines w in
  match out.1 with
  | Ok _ => lines out.2 = None ∧ (read_i out.2 ≤ length flines)%nat
  | Raise e => e ∈ [NameError; AttributeError; IndexError; KeyError; TypeError;
                    ReaderError; SystemError]
               ∧ lines out.2 = Some flines
  end.
Proof.
  unfold read_input_rrtm. apply open_lines. intros bounds.
  repeat closing_step; repeat forward_step.
  apply forward_read_layer_cross_sections.
Qed.

(** X1: [read_in_cld_rrtm] from the point where the file is open and its
    lines are read ([flines] is what [f.readlines()] gave), with
    [warnings.warn] warning and not raising.  Its [while]
    loops end, because each round reads a record, which moves [read_i]
    forward or raises: whatever the lines and the Document, the method
    returns, or one of its own statements raises AttributeError, IndexError,
    KeyError, TypeError or NameError, or the fortranformat reader raises
    ([ReaderError], of whatever Python class; [SystemError] stands for a
    reference to a list object that does not exist).  When it returns, the
    attribute [lines] is deleted and [read_i] is at most the number of
    lines; when it raises, [lines] still holds the lines of the file. *)
Theorem read_in_cld_rrtm_finishes (flines : list string) (w : world) :
  let out := read_in_cld_rrtm reader v flines w in
  match out.1 with
  | Ok _ => lines out.2 = None ∧ (read_i out.2 ≤ length flines)%nat
  | Raise e => e ∈ [NameError; AttributeError; IndexError; KeyError; TypeError;
                    ReaderError; SystemError]
               ∧ lines out.2 = Some flines
  end.
Proof.
  unfold read_in_cld_rrtm. apply open_lines. intros bounds.
  apply closing_bind; [apply quiet_compute_NSTR|intros _].
  repeat closing_step; repeat forward_step.
Qed.

End FileReaders.

(** ** The shortwave class has no field IXSECT *)

Lemma last_char_app (s t : string) : t ≠ "" → last_char (s +:+ t) = last_char t.
Proof.
  intros Ht. induction s as [|c s IH]; [done|].
  change (String c s +:+ t) with (String c (s +:+ t)). cbn [last_char].
  rewrite IH. destruct (s +:+ t) eqn:Hst; [|done].
  destruct s; [by cbn in Hst|discriminate].
Qed.

Lemma last_char_indexed (base : string) (i : Z) : last_char (indexed base i) = Some ")"%char.
Proof.
  unfold indexed. rewrite last_char_app by (cbn; discriminate).
  change ("(" +:+ pretty i +:+ ")") with (String "(" (pretty i +:+ ")")).
  cbn [last_char]. destruct (pretty i +:+ ")") eqn:H; [by destruct (pretty i)|].
  rewrite <- H. apply last_char_app. discriminate.
Qed.

Lemma last_char_WKL (m : Z) : last_char ("WKL(" +:+ pretty m +:+ ",L)") = Some ")"%char.
Proof.
  change ("WKL(" +:+ pretty m +:+ ",L)") with ("WKL(" +:+ (pretty m +:+ ",L)")).
  rewrite last_char_app by (by destruct (pretty m)).
  by rewrite last_char_app.
Qed.

Lemma lacks_bind (name : string) {A B} (m : M A) (k : A → M B) :
  lacks name m → (∀ x, lacks name (k x)) → lacks name (bind m k).
Proof.
  intros Hm Hk w Hw. unfold bind. specialize (Hm w Hw).
  destruct (m w) as [[x|e] w1]; cbn [fst snd] in *; [by apply Hk|done].
Qed.

Lemma lacks_same (name : string) {A} (m : M A) :
  (∀ w, attrs (m w).2 = attrs w) → lacks name m.
Proof. intros Hm w Hw. by rewrite Hm. Qed.

Lemma lacks_for_eachM (name : string) {X} (xs : list X) (body : X → M unit) :
  (∀ x, x ∈ xs → lacks name (body x)) → lacks name (for_eachM xs body).
Proof.
  induction xs as [|x xs IH]; intros Hbody; [by apply lacks_same|].
  cbn [for_eachM]. apply lacks_bind; [apply Hbody; left|intros _].
  apply IH. intros y Hy. apply Hbody. by right.
Qed.

Lemma lacks_setattr (name : string) (k : key) (x : pyval) :
  k ≠ Name name → lacks name (setattr k x).
Proof.
  intros Hk w Hw. destruct k as [n|]; [|done].
  cbn [setattr modify snd attrs set_attrs]. rewrite lookup_insert_ne; [done|congruence].
Qed.

Ltac lacks_step :=
  match goal with
  | |- lacks _ (bind _ _) => apply lacks_bind; [|intros ?]
  | |- lacks _ (setattr _ _) => by apply lacks_setattr
  | |- lacks _ (match ?x with _ => _ end) => destruct x
  | |- lacks _ (if ?x then _ else _) => destruct x
  | |- lacks _ _ => apply lacks_same; intros ?; reflexivity
  end.

Lemma lacks_deref (name : string) (p : nat) : lacks name (deref p).
Proof. apply lacks_same. intros w. unfold deref. by destruct (store w !! p). Qed.

Lemma lacks_getattr_key (name : string) (k : key) : lacks name (getattr_key k).
Proof. apply lacks_same. intros w. by destruct k. Qed.

Lemma lacks_assign (name : string) (md : mode) (k : key) (val : scalar) :
  k ≠ Name name → lacks name (assign md k val).
Proof.
  intros Hk. unfold assign, as_list, list_append, last_item, set_last_item, alloc.
  destruct md; repeat first [apply lacks_deref | apply lacks_getattr_key | lacks_step].
Qed.

Lemma Name_last_char (s t : string) : Name s = Name t → last_char s = last_char t.
Proof. by intros [= ->]. Qed.

(** No field list of [entry] has the plain name of the goal. *)
Ltac entry_lacks :=
  cbn [snd eval_entry];
  first
    [ (intros [= <-]; closed_list_fact)
    | (unfold names_upto, names_pmom, indexed_names; cbn [eval_entry];
       let Hn := fresh "Hn" in
       intros Hn;
       repeat match type of Hn with
              | rbind _ _ = Ok _ => apply rbind_Ok in Hn as (? & ? & Hn)
              end;
       injection Hn as <-;
       repeat match goal with
              | H : rbind _ _ = Ok _ |- _ => apply rbind_Ok in H as (? & ? & H)
              | H : Ok _ = Ok _ |- _ => injection H as <-
              end;
       rewrite ?elem_of_app, ?list_elem_of_fmap;
       repeat match goal with
              | |- context [if ?c then _ else _] => destruct c
              end;
       try closed_list_fact;
       let H := fresh "H" in
       intros H;
       repeat match goal with
              | H : _ ∨ _ |- _ => destruct H as [H|H]
              | H : ∃ _, _ |- _ => destruct H as (? & H & ?)
              end;
       first
         [ (apply Name_last_char in H;
            rewrite ?last_char_indexed, ?last_char_WKL in H; vm_compute in H;
            discriminate H)
         | (injection H as <-;
            match goal with
            | H' : _ ∈ _ |- _ => revert H'; closed_list_fact
            end) ]) ].

Lemma sw_fields_lack_IXSECT (a : obj) (rec : string) (names : list key) :
  get_fields SW a rec = Ok names → Name "IXSECT" ∉ names.
Proof.
  unfold get_fields.
  destruct (dict_get (records_fields SW) rec) as [entry|] eqn:H; cbn [rbind]; [|done].
  apply dict_get_elem in H. revert a names.
  assert (Hall : Forall (fun kv => ∀ a names, eval_entry kv.2 a = Ok names →
                                   Name "IXSECT" ∉ names) (records_fields SW)).
  2:{ exact (proj1 (Forall_forall _ _) Hall _ H). }
  clear. unfold records_fields.
  repeat (apply Forall_cons; split; [intros a names; entry_lacks|]).
  by apply Forall_nil.
Qed.

Lemma dict_set_keys (d : list (key * scalar)) (k k' : key) (x : scalar) :
  k' ∈ (dict_set d k x).*1 → k' ∈ d.*1 ∨ k' = k.
Proof.
  induction d as [|[k0 x0] d IH]; cbn [dict_set fmap list_fmap fst].
  - intros [->|[]%elem_of_nil]%elem_of_cons. by right.
  - destruct (decide (k0 = k)) as [->|Hne]; cbn [fmap list_fmap fst].
    + by left.
    + intros [->|Hin]%elem_of_cons; [left; left|].
      destruct (IH Hin) as [H|H]; [left; by right|by right].
Qed.

Lemma dict_update_keys (d kvs : list (key * scalar)) (k : key) :
  k ∈ (dict_update d kvs).*1 → k ∈ d.*1 ∨ k ∈ kvs.*1.
Proof.
  unfold dict_update. revert d. induction kvs as [|[k0 x0] kvs IH]; intros d;
    cbn [fold_left fmap list_fmap fst snd]; [by left|].
  intros [[H| ->]%dict_set_keys|H]%IH; [by left|right; left|right; by right].
Qed.

Lemma zip_keys {A B} (names : list A) (fields : list B) (k : A) :
  k ∈ (zip names fields).*1 → k ∈ names.
Proof. rewrite fst_zip_take. apply subseteq_take. Qed.

Lemma greedy_loop_keys (reader : string → string → option (list scalar))
    (fmt : string) (inames : nat) (rest : list string) (names : list key)
    (record record' : list (key * scalar)) (i i' : nat) (k : key) :
  greedy_loop reader fmt inames rest names record i = (Ok record', i') →
  k ∈ record'.*1 → k ∈ record.*1 ∨ k ∈ names.
Proof.
  revert names record i. induction rest as [|s rest IH]; intros names record i;
    cbn [greedy_loop]; destruct (length record <? inames)%nat;
    try (intros [= <- <-]; by left); try discriminate.
  destruct (reader fmt s) as [fields|]; [|discriminate].
  intros Hrun Hk. destruct (IH _ _ _ Hrun Hk) as [H|H].
  - apply dict_update_keys in H as [H|H]; [by left|right].
    apply zip_keys in H. by apply list_elem_of_filter in H as [_ H].
  - right. by apply list_elem_of_filter in H as [_ H].
Qed.

Lemma bind_Ok {A B} (m : M A) (k : A → M B) (w w' : world) (y : B) :
  bind m k w = (Ok y, w') → ∃ x w1, m w = (Ok x, w1) ∧ k x w1 = (Ok y, w').
Proof. unfold bind. destruct (m w) as [[x|e] w1]; [eauto|discriminate]. Qed.

Lemma fails_bind_l (name : string) {A B} (m : M A) (k : A → M B) :
  fails_without name m → fails_without name (bind m k).
Proof.
  intros Hm w Hw. destruct (Hm w Hw) as [e He]. exists e. unfold bind.
  destruct (m w) as [[x|e'] w1]; cbn [fst snd] in *; [discriminate|congruence].
Qed.

Lemma fails_bind_r (name : string) {A B} (m : M A) (k : A → M B) :
  lacks name m → (∀ x, fails_without name (k x)) → fails_without name (bind m k).
Proof.
  intros Hm Hk w Hw. specialize (Hm w Hw). unfold bind.
  destruct (m w) as [[x|e] w1]; cbn [fst snd] in *; [by apply Hk|by exists e].
Qed.

Lemma fails_attr (name : string) : fails_without name (attr name).
Proof. intros w Hw. exists AttributeError. by rewrite attr_run_missing. Qed.

Section Shortwave.

Variable reader : string → string → option (list scalar).

Lemma lacks_read_record_SW (rec : string) (md : mode) :
  lacks "IXSECT" (read_record reader SW rec md).
Proof.
  intros w Hw. unfold read_record, bind, read_line, eval, decode, lift.
  destruct (lines w) as [ls|]; [|done].
  destruct (ls !! read_i w) as [s|]; [|done].
  destruct (get_format SW (attrs w) rec) as [fmt|]; [|done].
  destruct (get_fields SW (attrs w) rec) as [names|] eqn:Hnames; [|done].
  destruct (reader fmt s) as [fields|]; [|done].
  apply sw_fields_lack_IXSECT in Hnames.
  assert (Hbody : lacks "IXSECT"
            (for_eachM (zip names fields) (fun kv => assign md kv.1 kv.2))).
  { apply lacks_for_eachM. intros [k x] Hin. cbn [fst snd]. apply lacks_assign. intros ->.
    apply Hnames, (zip_keys names fields). apply list_elem_of_fmap. by exists (Name "IXSECT", x). }
  specialize (Hbody w Hw).
  by destruct (for_eachM (zip names fields) (fun kv => assign md kv.1 kv.2) w)
    as [[[]|e] w1].
Qed.

Lemma lacks_read_greedy_record_SW (rec : string) :
  lacks "IXSECT" (read_greedy_record reader SW rec).
Proof.
  intros w Hw. unfold read_greedy_record, bind, read_line, eval, decode, lift,
    step_line, modify.
  destruct (lines w) as [ls|] eqn:Hls; [|done].
  destruct (ls !! read_i w) as [s|]; [|done].
  destruct (get_format SW (attrs w) rec) as [fmt|]; [|done].
  destruct (get_fields SW (attrs w) rec) as [names|] eqn:Hnames; [|done].
  destruct (reader fmt s) as [fields|]; [|done].
  apply sw_fields_lack_IXSECT in Hnames.
  cbn [lines set_read_i read_i]. rewrite Hls.
  destruct (greedy_loop reader fmt (length names) (drop (S (read_i w)) ls) names
              (dict_update [] (zip names fields)) (S (read_i w)))
    as [[record|e] i] eqn:Hloop; [|done].
  assert (Hbody : lacks "IXSECT"
            (for_eachM record (fun kv => setattr kv.1 (Scalar kv.2)))).
  { apply lacks_for_eachM. intros [k x] Hin. cbn [fst snd]. apply lacks_setattr. intros ->.
    apply Hnames.
    assert (Hk : Name "IXSECT" ∈ record.*1)
      by (apply list_elem_of_fmap; by exists (Name "IXSECT", x)).
    destruct (greedy_loop_keys _ _ _ _ _ _ _ _ _ _ Hloop Hk) as [H|H]; [|done].
    apply dict_update_keys in H as [[]%elem_of_nil|H]. by apply zip_keys in H. }
  by apply Hbody.
Qed.

Ltac fails_step :=
  match goal with
  | |- fails_without _ (bind (attr "IXSECT") _) => apply fails_bind_l, fails_attr
  | |- fails_without _ (bind _ _) => apply fails_bind_r; [|intros ?]
  | |- lacks _ (bind _ _) => apply lacks_bind; [|intros ?]
  | |- lacks _ (read_record _ _ _ _) => apply lacks_read_record_SW
  | |- lacks _ (read_greedy_record _ _ _) => apply lacks_read_greedy_record_SW
  | |- lacks _ (for_eachM _ _) => apply lacks_for_eachM; intros ? _
  | |- lacks _ (if ?c then _ else _) => destruct c
  | |- lacks _ _ => apply lacks_same; intros ?; reflexivity
  end.

Lemma lacks_attr_range (name field : string) : lacks name (attr_range field).
Proof.
  apply lacks_same. intros w. unfold attr_range, bind, attr, eval, lift.
  destruct (getattr (attrs w) field) as [x|]; [|done]. by destruct (py_int x).
Qed.

Lemma lacks_attr_gt7 (name field : string) : lacks name (attr_gt7 field).
Proof.
  apply lacks_same. intros w. unfold attr_gt7, bind, attr, eval, lift.
  destruct (getattr (attrs w) field) as [x|]; [|done]. by destruct (py_gt x 7).
Qed.

(** X4: the shortwave class has no field named IXSECT, and the reader tests
    [self.IXSECT] in both of its branches: on an instance that has no
    attribute IXSECT, [InputSW.read_input_rrtm] returns only for a file whose
    IATM is neither 0 nor 1, for which it reads the records 1.1, 1.2 and 1.4
    only; with IATM 0 or 1 it raises. *)
Theorem read_input_rrtm_SW_needs_IXSECT (flines : list string) (w w' : world) :
  attrs w !! "IXSECT" = None →
  read_input_rrtm reader SW flines w = (Ok tt, w') →
  ∃ s e x, get_input_rrtm_file_bounds flines "input_rrtm" = Ok (s, e)
           ∧ read_i w' = (s + 3)%nat
           ∧ attrs w' !! "IATM" = Some x ∧ py_eq x 0 = false ∧ py_eq x 1 = false.
Proof.
  intros Hw Hrun. unfold read_input_rrtm in Hrun.
  apply bind_Ok in Hrun as ([] & w1 & [= <-] & Hrun).
  apply bind_Ok in Hrun as ([s e] & w2 & Hb & Hrun).
  unfold lift in Hb. injection Hb as Hb <-.
  apply bind_Ok in Hrun as ([] & w3 & [= <-] & Hrun).
  apply bind_Ok in Hrun as ([] & w4 & H4 & Hrun).
  apply bind_Ok in Hrun as ([] & w5 & H5 & Hrun).
  apply bind_Ok in Hrun as ([] & w6 & H6 & Hrun).
  pose proof (lacks_read_record_SW "1.1" New
                (set_read_i s (set_lines (Some flines) w)) Hw) as Hw4.
  rewrite H4 in Hw4. cbn [snd] in Hw4.
  pose proof (lacks_read_record_SW "1.2" New w4 Hw4) as Hw5.
  rewrite H5 in Hw5. cbn [snd] in Hw5.
  pose proof (lacks_read_record_SW "1.4" New w5 Hw5) as Hw6.
  rewrite H6 in Hw6. cbn [snd] in Hw6.
  pose proof (stepping_read_record reader SW "1.1" New
                (set_read_i s (set_lines (Some flines) w))) as [_ Hs4].
  rewrite H4 in Hs4.
  pose proof (stepping_read_record reader SW "1.2" New w4) as [_ Hs5]. rewrite H5 in Hs5.
  pose proof (stepping_read_record reader SW "1.4" New w5) as [_ Hs6]. rewrite H6 in Hs6.
  cbn [fst snd read_i set_read_i] in Hs4, Hs5, Hs6.
  apply bind_Ok in Hrun as (iatm & w7 & H7 & Hrun).
  unfold attr, eval, getattr in H7.
  destruct (attrs w6 !! "IATM") as [x|] eqn:Hiatm; [|discriminate].
  injection H7 as <- <-.
  apply bind_Ok in Hrun as ([] & w8 & Hbranch & [= <-]).
  exists s, e, x. split; [done|].
  destruct (py_eq x 0) eqn:H0.
  { exfalso. revert Hbranch.
    assert (Hf : fails_without "IXSECT"
              (read_record reader SW "2.1" New;;
               let! layers := attr_range "NLAYRS" in
               for_eachM layers (fun i =>
                 read_record reader SW "2.1.1" (mode_at i);;
                 read_record reader SW "2.1.2" (mode_at i);;
                 let! c := attr_gt7 "NMOL" in
                 if c then read_record reader SW "2.1.3" (mode_at i) else ret tt);;
               read_layer_cross_sections reader SW)).
    { unfold read_layer_cross_sections.
      repeat first [apply lacks_attr_range | apply lacks_attr_gt7 | fails_step]. }
    destruct (Hf w6 Hw6) as [err Herr]. intros Hbranch. rewrite Hbranch in Herr.
    discriminate Herr. }
  destruct (py_eq x 1) eqn:H1.
  { exfalso. revert Hbranch.
    match goal with |- ?m w6 = _ → _ => assert (Hf : fails_without "IXSECT" m) end.
    { repeat first [apply lacks_attr_range | apply lacks_attr_gt7 | fails_step]. }
    destruct (Hf w6 Hw6) as [err Herr]. intros Hbranch. rewrite Hbranch in Herr.
    discriminate Herr. }
  injection Hbranch as <-. cbn [read_i attrs set_lines]. repeat split; [lia|done].
Qed.

End Shortwave.

Lemma read_input_rrtm_SW_needs_IXSECT_witness :
  let flines := ["$ demo"; "0 2 0 0 0 0 0 0"; "0 0 1 1 1 1 1 1 1 1 1 1 1 1 1 1"; "%"] in
  let out := read_input_rrtm demo_reader SW flines empty_world in
  attrs empty_world !! "IXSECT" = None
  ∧ out.1 = Ok tt
  ∧ read_i out.2 = 3%nat
  ∧ attrs out.2 !! "IATM" = Some (int 2).
Proof.
  intros flines out.
  assert (Hw : attrs empty_world !! "IXSECT" = None) by reflexivity.
  assert (Hrun : out = (Ok tt, out.2)) by (vm_compute; reflexivity).
  destruct (read_input_rrtm_SW_needs_IXSECT demo_reader flines empty_world out.2 Hw Hrun)
    as (s & e & x & Hb & Hi & Hx & _).
  assert (Hse : get_input_rrtm_file_bounds flines "input_rrtm" = Ok (0%nat, 3%nat))
    by reflexivity.
  rewrite Hse in Hb. injection Hb as <- <-.
  split; [exact Hw|]. split; [by rewrite Hrun|]. split; [exact Hi|].
  vm_compute. reflexivity.
Defined.

(** ** [from_dict] *)

Lemma adding_bind {A B} (m : M A) (k : A → M B) :
  adding m → (∀ x, adding (k x)) → adding (bind m k).
Proof.
  intros Hm Hk w. unfold bind. destruct (Hm w) as (H1 & H2 & H3 & H4 & H5 & H6).
  destruct (m w) as [[x|e] w1]; cbn [fst snd] in *; [|done].
  destruct (Hk x w1) as (H1' & H2' & H3' & H4' & H5' & H6').
  repeat split; [by etrans|congruence..].
Qed.

Lemma adding_same {A} (m : M A) : (∀ w, (m w).2 = w) → adding m.
Proof. intros Hm w. by rewrite Hm. Qed.

Lemma adding_for_eachM {X} (xs : list X) (body : X → M unit) :
  (∀ x, adding (body x)) → adding (for_eachM xs body).
Proof.
  intros Hbody. induction xs as [|x xs IH]; [by apply adding_same|].
  cbn [for_eachM]. by apply adding_bind.
Qed.

Lemma adding_set_default (k : key) (d : pyval) : adding (set_default k d).
Proof.
  intros w. unfold set_default, hasattr, bind. destruct k as [n|]; [|done].
  unfold eval. case_bool_decide as Hn; [done|].
  cbn [setattr modify snd attrs store lines read_i files cwd set_attrs].
  repeat split. apply insert_subseteq. by apply eq_None_not_Some.
Qed.

Lemma adding_eval {A} (f : obj → heap → result A) : adding (eval f).
Proof. by apply adding_same. Qed.

Lemma adding_fill_fields (v : variant) (file : string) : adding (fill_fields v file).
Proof.
  unfold fill_fields. apply adding_bind; [apply adding_eval|intros records].
  apply adding_for_eachM. intros record.
  apply adding_bind; [apply adding_eval|intros names].
  apply adding_for_eachM. intros name. apply adding_set_default.
Qed.

Lemma supplied_run (args : list (string * pyval)) (w : world) :
  for_eachM args (fun kv => setattr (Name kv.1) kv.2) w
  = (Ok tt, set_attrs (supplied (attrs w) args) w).
Proof.
  revert w. induction args as [|[n x] args IH]; intros w; cbn [for_eachM supplied foldl].
  - by rewrite set_attrs_id.
  - unfold bind. rewrite setattr_run, IH. by cbn [attrs set_attrs fst snd].
Qed.

Lemma adding_fill_defaults (v : variant) (file : string) :
  adding (fill_defaults v file).
Proof.
  unfold fill_defaults.
  repeat first
    [ apply adding_fill_fields
    | apply adding_set_default
    | (apply adding_for_eachM; intros ?)
    | (apply adding_bind; [|intros ?])
    | match goal with |- adding (if ?c then _ else _) => destruct c end
    | (by apply adding_same) ].
Qed.

(** X5: [from_dict] first stores every key of [args], and after that it only
    adds attributes: every attribute the instance has once [args] is stored
    (those of [args], and those it had before under other names) still has
    that value when the method returns or raises, and the list objects and
    the files are untouched.  With [lazy] set, the method stores [args],
    does nothing else, and returns [None], not [self]. *)
Theorem from_dict_only_adds (v : variant) (args : list (string * pyval)) (file : string)
    (lazy : bool) (w : world) :
  let out := from_dict v args file lazy w in
  (∀ name x, supplied (attrs w) args !! name = Some x → attrs out.2 !! name = Some x)
  ∧ store out.2 = store w
  ∧ files out.2 = files w
  ∧ (lazy = true → out.1 = Ok false ∧ attrs out.2 = supplied (attrs w) args).
Proof.
  assert (Hrun : from_dict v args file lazy w
                 = (if lazy then ret false else fill_defaults v file)
                     (set_attrs (supplied (attrs w) args) w)).
  { unfold from_dict, bind. by rewrite supplied_run. }
  intros out. subst out. rewrite Hrun. destruct lazy.
  - by cbn [ret fst snd attrs store lines read_i files set_attrs].
  - destruct (adding_fill_defaults v file (set_attrs (supplied (attrs w) args) w))
      as (H1 & H2 & H3 & H4 & H5 & _).
    cbn [attrs store lines read_i files set_attrs] in *.
    repeat split; try done.
    intros name x Hx. by apply (lookup_weaken _ _ _ _ Hx).
Qed.

Lemma getattr_mono (a a' : obj) (name : string) (x : pyval) :
  a ⊆ a' → getattr a name = Ok x → getattr a' name = Ok x.
Proof.
  intros Hsub. unfold getattr. destruct (a !! name) as [y|] eqn:Hy; [|discriminate].
  intros [= <-]. by rewrite (lookup_weaken _ _ _ _ Hy Hsub).
Qed.

(** A step in showing that what a schema or order function returns on [a]
    it returns on every [a'] above [a]. *)
Ltac mono_step a a' Hsub :=
  match goal with
  | |- context [getattr a ?n] =>
    let E := fresh "E" in
    destruct (getattr a n) as [?|?] eqn:E; cbn [rbind]; [|discriminate];
    let E' := fresh "E" in
    pose proof (getattr_mono a a' n _ Hsub E) as E';
    destruct (getattr a' n); [injection E' as ->|discriminate E']; cbn [rbind]
  | |- context [py_int ?x] => destruct (py_int x) as [?|?]; cbn [rbind]; [|discriminate]
  | |- context [py_gt ?x ?c] => destruct (py_gt x c) as [[]|?]; cbn [rbind]; [| |discriminate]
  | |- context [py_len ?h ?x] => destruct (py_len h x) as [?|?]; cbn [rbind]; [|discriminate]
  | |- context [if ?c then _ else _] => destruct c
  | |- _ = _ → _ => done
  end.

Lemma get_logical_record_order_mono (a a' : obj) (h : heap) (file : string)
    (L : list string) :
  a ⊆ a' →
  get_logical_record_order a h file = Ok L → get_logical_record_order a' h file = Ok L.
Proof.
  intros Hsub. unfold get_logical_record_order, append_if_gt7.
  repeat mono_step a a' Hsub.
Qed.

Lemma eval_entry_mono_table {A} (table : list (string * entry A)) (rec : string) :
  Forall (fun kv => ∀ a a' x, a ⊆ a' → eval_entry kv.2 a = Ok x → eval_entry kv.2 a' = Ok x)
         table →
  ∀ a a' x, a ⊆ a' →
    (let? e := dict_get table rec in eval_entry e a) = Ok x →
    (let? e := dict_get table rec in eval_entry e a') = Ok x.
Proof.
  intros Hall a a' x Hsub. destruct (dict_get table rec) as [e|] eqn:H; cbn [rbind]; [|done].
  apply dict_get_elem in H. exact (proj1 (Forall_forall _ _) Hall _ H a a' x Hsub).
Qed.

Lemma get_fields_mono (v : variant) (a a' : obj) (rec : string) (names : list key) :
  a ⊆ a' → get_fields v a rec = Ok names → get_fields v a' rec = Ok names.
Proof.
  intros Hsub. unfold get_fields. apply eval_entry_mono_table; [|done].
  clear. destruct v; unfold records_fields;
    repeat (apply Forall_cons; split;
            [intros a a' x Hsub; cbn [snd eval_entry];
             unfold names_upto, names_pmom; cbn [eval_entry];
             repeat mono_step a a' Hsub|]);
    by apply Forall_nil.
Qed.

Lemma adding_run {A} (m : M A) (w w' : world) (r : result A) :
  adding m → m w = (r, w') → attrs w ⊆ attrs w' ∧ store w' = store w.
Proof. intros Hm Hrun. destruct (Hm w) as (H1 & H2 & _). by rewrite Hrun in H1, H2. Qed.

Lemma set_default_Ok (k : key) (d : pyval) (w w' : world) :
  set_default k d w = (Ok tt, w') → ∃ n, k = Name n ∧ is_Some (attrs w' !! n).
Proof.
  unfold set_default, hasattr, bind. destruct k as [n|]; [|discriminate].
  unfold eval. case_bool_decide as Hn.
  - intros [= <-]. eauto.
  - intros [= <-]. exists n. split; [done|].
    cbn [attrs set_attrs]. rewrite lookup_insert_eq. eauto.
Qed.

Lemma fill_names_Ok (names : list key) (w w' : world) :
  for_eachM names (fun name => set_default name (field_default name)) w = (Ok tt, w') →
  ∃ ns, names = Name <$> ns ∧ ∀ n, n ∈ ns → is_Some (attrs w' !! n).
Proof.
  revert w. induction names as [|k names IH]; intros w; cbn [for_eachM].
  - intros _. exists []. split; [done|]. by intros n Hn%elem_of_nil.
  - intros ([] & w1 & Hk & Hrest)%bind_Ok.
    destruct (set_default_Ok _ _ _ _ Hk) as (n & -> & Hn).
    destruct (IH _ Hrest) as (ns & -> & Hns).
    exists (n :: ns). split; [done|].
    intros n' [->|Hin]%elem_of_cons; [|by apply Hns].
    assert (Hadd : adding (for_eachM (Name <$> ns)
                             (fun name => set_default name (field_default name))))
      by (apply adding_for_eachM; intros; apply adding_set_default).
    destruct (adding_run _ _ _ _ Hadd Hrest) as [Hsub _].
    destruct Hn as [x Hx]. exists x. by apply (lookup_weaken _ _ _ _ Hx).
Qed.

Lemma fill_records_Ok (v : variant) (records : list string) (w w' : world) :
  for_eachM records (fun record =>
    let! names := eval (fun a _ => get_fields v a record) in
    for_eachM names (fun name => set_default name (field_default name))) w
  = (Ok tt, w') →
  ∀ rec, rec ∈ records →
    ∃ names, get_fields v (attrs w') rec = Ok (Name <$> names)
             ∧ ∀ n, n ∈ names → is_Some (attrs w' !! n).
Proof.
  revert w. induction records as [|r records IH]; intros w; cbn [for_eachM].
  - intros _ rec Hrec. by apply elem_of_nil in Hrec.
  - intros ([] & w1 & Hr & Hrest)%bind_Ok rec [->|Hin]%elem_of_cons; [|by eapply IH].
    apply bind_Ok in Hr as (names & w0 & Hnames & Hfill).
    unfold eval in Hnames.
    destruct (get_fields v (attrs w) r) as [names'|] eqn:Hf; [|discriminate].
    injection Hnames as -> <-.
    destruct (fill_names_Ok _ _ _ Hfill) as (ns & -> & Hns).
    assert (Hadd1 : adding (for_eachM (Name <$> ns)
                              (fun name => set_default name (field_default name))))
      by (apply adding_for_eachM; intros; apply adding_set_default).
    destruct (adding_run _ _ _ _ Hadd1 Hfill) as [Hsub1 _].
    match type of Hrest with
    | for_eachM _ ?body _ = _ =>
      assert (Hadd2 : adding (for_eachM records body))
    end.
    { apply adding_for_eachM. intros record.
      apply adding_bind; [apply adding_eval|intros names].
      apply adding_for_eachM. intros name. apply adding_set_default. }
    destruct (adding_run _ _ _ _ Hadd2 Hrest) as [Hsub2 _].
    exists ns. split.
    + apply (get_fields_mono v (attrs w)); [by etrans|done].
    + intros n Hn. destruct (Hns n Hn) as [x Hx]. exists x.
      by apply (lookup_weaken _ _ _ _ Hx).
Qed.

Lemma fill_fields_complete (v : variant) (file : string) (w w' : world) :
  fill_fields v file w = (Ok tt, w') → complete v w' file.
Proof.
  intros Hrun. destruct (adding_run _ _ _ _ (adding_fill_fields v file) Hrun) as [Hsub Hst].
  unfold fill_fields in Hrun. apply bind_Ok in Hrun as (L & w0 & HL & Hrun).
  unfold eval in HL.
  destruct (get_logical_record_order (attrs w) (store w) file) as [L'|] eqn:Ho;
    [|discriminate].
  injection HL as -> <-. exists L. split.
  - rewrite Hst. by apply (get_logical_record_order_mono (attrs w)).
  - by apply (fill_records_Ok v L w).
Qed.

Lemma complete_mono (v : variant) (file : string) (w w' : world) :
  attrs w ⊆ attrs w' → store w' = store w → complete v w file → complete v w' file.
Proof.
  intros Hsub Hst (L & HL & Hall). exists L. split.
  - rewrite Hst. by apply (get_logical_record_order_mono (attrs w)).
  - intros rec Hrec. destruct (Hall rec Hrec) as (names & Hnames & Hset).
    exists names. split; [by apply (get_fields_mono v (attrs w))|].
    intros n Hn. destruct (Hset n Hn) as [x Hx]. exists x.
    by apply (lookup_weaken _ _ _ _ Hx).
Qed.

(** X6: when [from_dict] returns (with [lazy] not set), the instance has
    every field of every record of its logical order for the primary file,
    and with file='cld' also for the cloud file: the logical order is
    defined, the field list of each of its records is defined and holds only
    names, and each name is an attribute. *)
Theorem from_dict_complete (v : variant) (args : list (string * pyval)) (file : string)
    (w w' : world) (r : bool) :
  from_dict v args file false w = (Ok r, w') →
  r = true
  ∧ complete v w' "input_rrtm"
  ∧ (file = "cld" → complete v w' "in_cld_rrtm").
Proof.
  unfold from_dict. intros ([] & w0 & _ & Hrun)%bind_Ok. unfold fill_defaults in Hrun.
  apply bind_Ok in Hrun as ([] & w1 & _ & Hrun).
  apply bind_Ok in Hrun as ([] & w2 & Hinput & Hrun).
  apply bind_Ok in Hrun as ([] & w3 & Hcld & Hrun).
  apply bind_Ok in Hrun as ([] & w4 & Haer & [= <- <-]).
  apply fill_fields_complete in Hinput.
  assert (Hblock : ∀ (b : bool) (kind : string),
            adding (if b then
                      for_eachM ["INFLAG"]
                        (fun name => set_default (Name name) (Scalar (SInt 0)));;
                      fill_fields v kind
                    else ret tt)).
  { intros [] kind; [|apply adding_same; intros ?; reflexivity].
    apply adding_bind; [|intros _; apply adding_fill_fields].
    apply adding_for_eachM. intros. apply adding_set_default. }
  pose proof (adding_run _ _ _ _ (Hblock _ _) Hcld) as Hadd3.
  pose proof (adding_run _ _ _ _ (Hblock _ _) Haer) as Hadd4.
  destruct Hadd3 as [Hs3 Hh3], Hadd4 as [Hs4 Hh4].
  split; [done|]. split.
  - apply (complete_mono v _ w2); [by etrans|congruence|done].
  - intros ->. rewrite bool_decide_eq_true_2 in Hcld by (left).
    rewrite bool_decide_eq_false_2 in Haer by (by intros [[=]|[[=]|[]%elem_of_nil]%elem_of_cons]%elem_of_cons).
    injection Haer as <-.
    apply bind_Ok in Hcld as ([] & w2' & _ & Hcld).
    by apply fill_fields_complete in Hcld.
Qed.

Lemma from_dict_complete_witness :
  let out := from_dict LW [("NLAYRS", int 2)] "gas" false empty_world in
  out.1 = Ok true ∧ complete LW out.2 "input_rrtm".
Proof.
  intros out.
  assert (Hrun : out = (Ok true, out.2)) by (vm_compute; reflexivity).
  destruct (from_dict_complete LW [("NLAYRS", int 2)] "gas" empty_world out.2 true Hrun)
    as (_ & Hc & _).
  split; [by rewrite Hrun|exact Hc].
Defined.

Lemma raises_on_bind_l (P : obj → Prop) {A B} (m : M A) (k : A → M B) :
  raises_on P m → raises_on P (bind m k).
Proof.
  intros Hm w Hw. destruct (Hm w Hw) as [e He]. exists e. unfold bind.
  destruct (m w) as [[x|e'] w1]; cbn [fst snd] in *; [discriminate|congruence].
Qed.

Lemma raises_on_bind_r (P : obj → Prop) {A B} (m : M A) (k : A → M B) :
  preserves P m → (∀ x, raises_on P (k x)) → raises_on P (bind m k).
Proof.
  intros Hm Hk w Hw. specialize (Hm w Hw). unfold bind.
  destruct (m w) as [[x|e] w1]; cbn [fst snd] in *; [by apply Hk|by exists e].
Qed.

Lemma preserves_bind (P : obj → Prop) {A B} (m : M A) (k : A → M B) :
  preserves P m → (∀ x, preserves P (k x)) → preserves P (bind m k).
Proof.
  intros Hm Hk w Hw. specialize (Hm w Hw). unfold bind.
  destruct (m w) as [[x|e] w1]; cbn [fst snd] in *; [by apply Hk|done].
Qed.

Lemma preserves_for_eachM (P : obj → Prop) {X} (xs : list X) (body : X → M unit) :
  (∀ x, preserves P (body x)) → preserves P (for_eachM xs body).
Proof.
  intros Hbody. induction xs as [|x xs IH]; [by intros w|].
  cbn [for_eachM]. by apply preserves_bind.
Qed.

Lemma preserves_eval (P : obj → Prop) {A} (f : obj → heap → result A) :
  preserves P (eval f).
Proof. by intros w. Qed.

Lemma set_default_cloudless (k : key) (d : pyval) :
  (k = Name "LAY" → d = int 0) → (k = Name "INFLAG" → d = int 0) →
  preserves cloudless (set_default k d).
Proof.
  intros Hlay Hflag w [Hl Hf]. unfold set_default, hasattr, bind.
  destruct k as [n|]; [|done]. unfold eval. case_bool_decide as Hn; [done|].
  apply eq_None_not_Some in Hn.
  cbn [setattr modify snd attrs set_attrs]. unfold cloudless.
  destruct (decide (n = "LAY")) as [->|Hn1].
  - rewrite lookup_insert_eq, lookup_insert_ne by done. rewrite Hlay by done.
    split; [by right|done].
  - rewrite (lookup_insert_ne _ n "LAY") by done. split; [done|].
    destruct (decide (n = "INFLAG")) as [->|Hn2].
    + rewrite lookup_insert_eq, Hflag by done. right. by left.
    + by rewrite lookup_insert_ne.
Qed.

Lemma fill_fields_cloudless (v : variant) (file : string) :
  preserves cloudless (fill_fields v file).
Proof.
  unfold fill_fields. apply preserves_bind; [apply preserves_eval|intros records].
  apply preserves_for_eachM. intros record.
  apply preserves_bind; [apply preserves_eval|intros names].
  apply preserves_for_eachM. intros name.
  apply set_default_cloudless; by intros ->.
Qed.

Lemma cloud_fields_need_LAY (v : variant) :
  raises_on cloudless
    (for_eachM ["INFLAG"] (fun name => set_default (Name name) (Scalar (SInt 0)));;
     fill_fields v "in_cld_rrtm").
Proof.
  intros w [Hl Hf].
  assert (Hrun : ∃ x, (x = int 0 ∨ x = int 10)
            ∧ for_eachM ["INFLAG"]
                (fun name => set_default (Name name) (Scalar (SInt 0))) w
              = (Ok tt, set_attrs (<["INFLAG" := x]> (attrs w)) w)).
  { cbn [for_eachM]. unfold set_default, hasattr, bind, eval.
    destruct Hf as [Hf|[Hf|Hf]].
    - exists (int 0). split; [by left|].
      rewrite bool_decide_eq_false_2 by (rewrite Hf; by intros [? ?]). done.
    - exists (int 0). split; [by left|].
      rewrite bool_decide_eq_true_2 by (rewrite Hf; eauto).
      cbn [ret]. by rewrite insert_id, set_attrs_id.
    - exists (int 10). split; [by right|].
      rewrite bool_decide_eq_true_2 by (rewrite Hf; eauto).
      cbn [ret]. by rewrite insert_id, set_attrs_id. }
  destruct Hrun as (x & Hx & Hrun). unfold bind at 1. rewrite Hrun.
  unfold fill_fields, bind, eval, get_logical_record_order.
  cbn [attrs store set_attrs String.eqb Ascii.eqb Bool.eqb].
  unfold getattr. rewrite lookup_insert_eq. cbn [rbind].
  rewrite (lookup_insert_ne _ "INFLAG" "LAY") by done.
  destruct Hx as [-> | ->]; cbn [py_eq int Z.eqb orb Pos.eqb];
    (destruct Hl as [-> | ->]; cbn [rbind py_len int fst]; eauto).
Qed.

(** X7: [from_dict] with file='cld' (its default) or 'aercld' never returns
    for an instance without cloudy layers: when LAY is neither in [args] nor
    an attribute, and INFLAG is missing, 0 or 10, the cloud block asks for the
    logical order of the cloud file, which takes [len(self.LAY)]. *)
Theorem from_dict_cloud_needs_LAY (v : variant) (args : list (string * pyval))
    (file : string) (w : world) :
  file ∈ ["cld"; "aercld"] →
  supplied (attrs w) args !! "LAY" = None →
  supplied (attrs w) args !! "INFLAG" = None
  ∨ supplied (attrs w) args !! "INFLAG" = Some (int 0)
  ∨ supplied (attrs w) args !! "INFLAG" = Some (int 10) →
  ∃ e, (from_dict v args file false w).1 = Raise e.
Proof.
  intros Hfile Hlay Hflag. unfold from_dict, bind at 1. rewrite supplied_run.
  assert (Hraises : raises_on cloudless (fill_defaults v file)).
  { unfold fill_defaults.
    apply raises_on_bind_r; [|intros _].
    { cbn [for_eachM].
      repeat first
        [ (apply set_default_cloudless; intros [=])
        | (apply preserves_bind; [|intros ?])
        | (by intros ?) ]. }
    apply raises_on_bind_r; [apply fill_fields_cloudless|intros _].
    apply raises_on_bind_l. rewrite bool_decide_eq_true_2 by done.
    apply cloud_fields_need_LAY. }
  apply Hraises. cbn [attrs set_attrs]. split; [by left|done].
Qed.

Lemma from_dict_cloud_needs_LAY_witness :
  "cld" ∈ ["cld"; "aercld"]
  ∧ supplied (attrs empty_world) [("NLAYRS", int 2)] !! "LAY" = None
  ∧ ∃ e, (from_dict LW [("NLAYRS", int 2)] "cld" false empty_world).1 = Raise e.
Proof.
  assert (H1 : "cld" ∈ ["cld"; "aercld"]) by left.
  assert (H2 : supplied (attrs empty_world) [("NLAYRS", int 2)] !! "LAY" = None)
    by reflexivity.
  split; [exact H1|]. split; [exact H2|].
  apply (from_dict_cloud_needs_LAY LW [("NLAYRS", int 2)] "cld" empty_world H1 H2).
  left. reflexivity.
Defined.

Lemma aerosol_fields_raise (v : variant) :
  always_raises
    (for_eachM ["INFLAG"] (fun name => set_default (Name name) (Scalar (SInt 0)));;
     fill_fields v "in_aer_rrtm").
Proof.
  intros w. unfold bind at 1.
  destruct (for_eachM ["INFLAG"] _ w) as [[[]|e] w1]; [|by exists e].
  exists UnboundLocalError. reflexivity.
Qed.

Lemma always_raises_bind_l {A B} (m : M A) (k : A → M B) :
  always_raises m → always_raises (bind m k).
Proof.
  intros Hm w. destruct (Hm w) as [e He]. exists e. unfold bind.
  destruct (m w) as [[x|e'] w1]; cbn [fst snd] in *; [discriminate|congruence].
Qed.

Lemma always_raises_bind_r {A B} (m : M A) (k : A → M B) :
  (∀ x, always_raises (k x)) → always_raises (bind m k).
Proof.
  intros Hk w. unfold bind.
  destruct (m w) as [[x|e] w1]; cbn [fst snd] in *; [by apply Hk|by exists e].
Qed.

(** X8: [from_dict] with file='aer' or 'aercld' never returns: after the
    other blocks it asks for the logical order of 'in_aer_rrtm', a kind of
    file the order methods do not know. *)
Theorem from_dict_aerosol_raises (v : variant) (args : list (string * pyval))
    (file : string) (w : world) :
  file ∈ ["aer"; "aercld"] → ∃ e, (from_dict v args file false w).1 = Raise e.
Proof.
  intros Hfile. revert w. change (always_raises (from_dict v args file false)).
  unfold from_dict. apply always_raises_bind_r. intros _.
  unfold fill_defaults. rewrite (bool_decide_eq_true_2 (file ∈ ["aer"; "aercld"])) by done.
  do 3 (apply always_raises_bind_r; intros _).
  apply always_raises_bind_l, aerosol_fields_raise.
Qed.

Lemma from_dict_aerosol_raises_witness :
  "aer" ∈ ["aer"; "aercld"]
  ∧ ∃ e, (from_dict LW [("NLAYRS", int 2)] "aer" false empty_world).1 = Raise e.
Proof.
  assert (H1 : "aer" ∈ ["aer"; "aercld"]) by left.
  split; [exact H1|].
  apply (from_dict_aerosol_raises LW [("NLAYRS", int 2)] "aer" empty_world H1).
Defined.

(** ** [broadcast_scalars] *)

(** X9: [broadcast_scalars] with file='gas' or file='aercld' raises
    UnboundLocalError and changes nothing, whatever the instance: for 'gas'
    the loop runs over the characters of the str 'input_rrtm' and asks for
    the logical order of the file kind 'i'; for 'aercld' the name [files] is
    read before it is bound. *)
Theorem broadcast_scalars_gas_raises (v : variant) (w : world) :
  broadcast_scalars v "gas" w = (Raise UnboundLocalError, w)
  ∧ broadcast_scalars v "aercld" w = (Raise UnboundLocalError, w).
Proof. split; reflexivity. Qed.

Lemma broadcast_of_refl (w : world) : broadcast_of w w.
Proof.
  split; [done|]. split; [done|].
  intros name. destruct (attrs w !! name) as [[x|p]|]; auto.
Qed.

Lemma broadcast_field_step (w0 w : world) (length : pyval) (name : key) :
  broadcast_of w0 w → broadcast_of w0 (broadcast_field length name w).2.
Proof.
  intros H. pose proof H as (Hst & Hlen & Hat). unfold broadcast_field, bind, getattr_key.
  destruct name as [n|]; [|exact H].
  unfold eval, getattr. destruct (attrs w !! n) as [[y|q]|] eqn:Hn; cbn [is_list fst snd];
    [|exact H..].
  unfold repeat_list. destruct length as [[k| |]|]; [|exact H..].
  cbn [alloc setattr modify fst snd attrs store set_attrs set_store].
  unfold broadcast_of. cbn [attrs store set_attrs set_store].
  split; [|split].
  - intros p xs Hp. rewrite lookup_app_l; [by apply Hst|].
    apply Hst in Hp. by apply lookup_lt_Some in Hp.
  - rewrite length_app. lia.
  - intros name. specialize (Hat name). destruct (decide (name = n)) as [->|Hne].
    + rewrite lookup_insert_eq. rewrite Hn in Hat.
      destruct (attrs w0 !! n) as [[x|p]|]; [|done..].
      destruct Hat as [[= ->]|(p & m & [=] & _)]. right.
      exists (List.length (store w)), (Z.to_nat k). split; [done|]. split; [done|].
      by rewrite lookup_app_r, Nat.sub_diag by done.
    + rewrite lookup_insert_ne by done.
      destruct (attrs w0 !! name) as [[x|p]|]; [|done..].
      destruct Hat as [Hat|(p & m & Hp & Hle & Hcontent)]; [by left|right].
      exists p, m. split; [done|]. split; [done|].
      rewrite lookup_app_l; [done|]. by apply lookup_lt_Some in Hcontent.
Qed.

Lemma broadcast_of_for_eachM {X} (w0 : world) (xs : list X) (body : X → M unit) :
  (∀ x w, broadcast_of w0 w → broadcast_of w0 (body x w).2) →
  ∀ w, broadcast_of w0 w → broadcast_of w0 (for_eachM xs body w).2.
Proof.
  intros Hbody. induction xs as [|x xs IH]; intros w Hw; [done|].
  cbn [for_eachM]. unfold bind. specialize (Hbody x w Hw).
  destruct (body x w) as [[[]|e] w1]; cbn [fst snd] in *; [by apply IH|done].
Qed.

(** X10: whatever its outcome, [broadcast_scalars] leaves every list object
    of the instance as it was, adds no field, leaves every field that holds
    a list with that same list, and leaves every field that holds a scalar
    either unchanged or holding a new list whose elements are all that
    scalar. *)
Theorem broadcast_scalars_keeps_values (v : variant) (file : string) (w : world) :
  let w' := (broadcast_scalars v file w).2 in
  (∀ p xs, store w !! p = Some xs → store w' !! p = Some xs)
  ∧ ∀ name,
      match attrs w !! name with
      | None => attrs w' !! name = None
      | Some (Ref p) => attrs w' !! name = Some (Ref p)
      | Some (Scalar x) =>
        attrs w' !! name = Some (Scalar x)
        ∨ ∃ p n, attrs w' !! name = Some (Ref p)
                 ∧ (length (store w) ≤ p)%nat
                 ∧ store w' !! p = Some (replicate n (Scalar x))
      end.
Proof.
  intros w'.
  assert (H : broadcast_of w w'); [|destruct H as (H1 & _ & H2); by split].
  subst w'. unfold broadcast_scalars, bind at 1, lift.
  destruct (broadcast_files file) as [files|]; [|apply broadcast_of_refl].
  apply broadcast_of_for_eachM; [|apply broadcast_of_refl].
  intros file' w1 Hw1. unfold bind at 1, eval at 1.
  destruct (get_logical_record_order (attrs w1) (store w1) file') as [records|]; [|done].
  apply broadcast_of_for_eachM; [|done].
  intros record w2 Hw2. destruct (islist record); [|done].
  unfold bind at 1, eval at 1.
  destruct (record_len (attrs w2) (store w2) record) as [length|]; [|done].
  unfold bind at 1, eval at 1.
  destruct (get_fields v (attrs w2) record) as [names|]; [|done].
  apply broadcast_of_for_eachM; [|done].
  intros name w3 Hw3. by apply broadcast_field_step.
Qed.

(** ** What the file bounds are *)

Lemma sentinel_lines_Ok (c : ascii) (ls : list string) (i0 : nat) (l : list nat) :
  sentinel_lines c i0 ls = Ok l →
  (∀ s, s ∈ ls → s ≠ "")
  ∧ NoDup l
  ∧ ∀ x, x ∈ l ↔ ∃ j s, x = (i0 + j)%nat ∧ ls !! j = Some s ∧ starts_with c s.
Proof.
  revert i0 l. induction ls as [|[|c0 s0] ls IH]; intros i0 l; cbn [sentinel_lines].
  - intros [= <-]. split; [by intros s Hs%elem_of_nil|]. split; [constructor|].
    intros x. split; [by intros Hx%elem_of_nil|]. by intros (j & s & _ & Hj & _).
  - discriminate.
  - destruct (sentinel_lines c (S i0) ls) as [r|] eqn:Hr; cbn [rbind]; [|discriminate].
    destruct (IH _ _ Hr) as (Hne & Hnd & Hin). intros [= <-].
    split; [|split].
    + intros s [->|Hs]%elem_of_cons; [done|by apply Hne].
    + destruct (Ascii.eqb c0 c); [|done]. apply NoDup_cons. split; [|done].
      intros (j & s & Hx & _)%Hin. lia.
    + intros x. destruct (Ascii.eqb_spec c0 c) as [->|Hc].
      * rewrite elem_of_cons, Hin. split.
        -- intros [->|(j & s & -> & Hj & Hs)].
           ++ exists 0%nat, (String c s0). split; [lia|]. by split.
           ++ exists (S j), s. split; [lia|]. by split.
        -- intros ([|j] & s & -> & Hj & Hs); [left; lia|right].
           exists j, s. split; [lia|]. by split.
      * rewrite Hin. split.
        -- intros (j & s & -> & Hj & Hs). exists (S j), s. split; [lia|]. by split.
        -- intros ([|j] & s & -> & Hj & Hs).
           ++ cbn in Hj. injection Hj as <-. by cbn in Hs.
           ++ exists j, s. split; [lia|]. by split.
Qed.

Lemma sentinel_lines_total (c : ascii) (ls : list string) (i0 : nat) :
  (∀ s, s ∈ ls → s ≠ "") → ∃ l, sentinel_lines c i0 ls = Ok l.
Proof.
  revert i0. induction ls as [|[|c0 s0] ls IH]; intros i0 Hne; cbn [sentinel_lines].
  - eauto.
  - destruct (Hne ""); [left|done].
  - destruct (IH (S i0)) as [r ->]; [intros s Hs; apply Hne; by right|].
    cbn [rbind]. eauto.
Qed.

Lemma NoDup_only {A} (l : list A) (x : A) :
  NoDup l → (∀ y, y ∈ l ↔ y = x) → l = [x].
Proof.
  intros Hnd Hin. destruct l as [|a l];
    [pose proof (proj2 (Hin x) eq_refl) as H; by apply elem_of_nil in H|].
  assert (a = x) as -> by (apply Hin; left).
  destruct l as [|b l]; [done|].
  assert (b = x) as -> by (apply Hin; right; left).
  apply NoDup_cons in Hnd as [Hnd _]. destruct Hnd. left.
Qed.

Lemma sentinel_lines_one (c : ascii) (ls : list string) (l : list nat) (x : nat) :
  sentinel_lines c 0 ls = Ok l →
  l = [x] ↔ (x < length ls)%nat ∧ ∀ j s, ls !! j = Some s → (starts_with c s ↔ j = x).
Proof.
  intros (Hne & Hnd & Hin)%sentinel_lines_Ok. split.
  - intros ->. destruct (proj1 (Hin x)) as (j & s & Hj & Hs & Hc); [left|].
    cbn in Hj. subst j. split; [by apply lookup_lt_Some in Hs|].
    intros j s' Hj. split.
    + intros Hc'. assert (Hx : j ∈ [x]) by (apply Hin; by exists j, s').
      by apply list_elem_of_singleton in Hx.
    + intros ->. by simplify_eq.
  - intros [Hlt Hiff]. apply NoDup_only; [done|]. intros y. rewrite Hin. split.
    + intros (j & s & -> & Hj & Hc). by apply (Hiff j s).
    + intros ->. destruct (lookup_lt_is_Some_2 ls x Hlt) as [s Hs].
      exists x, s. split; [done|]. split; [done|]. by apply (Hiff x s).
Qed.

(** X11: [get_input_rrtm_file_bounds] returns [(s, e)] for a primary file
    exactly when no line is empty, line [s] is the only line that begins
    with '$', line [e] is the only line that begins with '%', and [s < e];
    for a cloud file, exactly when no line is empty, [s] is 0, line [e] is
    the only line that begins with '%', and [0 < e]. *)
Theorem get_input_rrtm_file_bounds_spec (ls : list string) (s e : nat) :
  (get_input_rrtm_file_bounds ls "input_rrtm" = Ok (s, e) ↔
     (∀ l, l ∈ ls → l ≠ "")
     ∧ (∀ j l, ls !! j = Some l → (starts_with "$" l ↔ j = s))
     ∧ (∀ j l, ls !! j = Some l → (starts_with "%" l ↔ j = e))
     ∧ (s < e < length ls)%nat)
  ∧ (get_input_rrtm_file_bounds ls "in_cld_rrtm" = Ok (s, e) ↔
       (∀ l, l ∈ ls → l ≠ "")
       ∧ s = 0%nat
       ∧ (∀ j l, ls !! j = Some l → (starts_with "%" l ↔ j = e))
       ∧ (0 < e < length ls)%nat).
Proof.
  split; split.
  - intros Hb. pose proof (get_input_rrtm_file_bounds_Ok _ _ _ _ Hb) as Hlt.
    revert Hb. unfold get_input_rrtm_file_bounds.
    destruct (sentinel_lines "$" 0 ls) as [starts|] eqn:H1; cbn [rbind]; [|discriminate].
    destruct (sentinel_lines "%" 0 ls) as [ends|] eqn:H2; cbn [rbind]; [|discriminate].
    cbn [String.eqb Ascii.eqb Bool.eqb].
    destruct starts as [|s0 [|? ?]]; destruct ends as [|e0 [|? ?]];
      cbn [length Nat.eqb andb]; rewrite ?andb_false_r; cbn [andb];
      try discriminate.
    destruct (list_lt [s0] [e0]); [|discriminate]. intros [= -> ->].
    split; [by apply (sentinel_lines_Ok _ _ _ _ H1)|].
    split; [by apply (sentinel_lines_one _ _ _ s H1)|].
    split; [by apply (sentinel_lines_one _ _ _ e H2)|done].
  - intros (Hne & Hs & He & Hlt). unfold get_input_rrtm_file_bounds.
    destruct (sentinel_lines_total "$" ls 0 Hne) as [starts H1].
    destruct (sentinel_lines_total "%" ls 0 Hne) as [ends H2].
    rewrite H1, H2. cbn [rbind String.eqb Ascii.eqb Bool.eqb].
    assert (starts = [s]) as ->
      by (apply (sentinel_lines_one "$" ls); [done|]; split; [lia|done]).
    assert (ends = [e]) as ->
      by (apply (sentinel_lines_one "%" ls); [done|]; split; [lia|done]).
    cbn [length Nat.eqb andb list_lt].
    by rewrite (proj2 (Nat.ltb_lt s e)) by lia.
  - intros Hb. pose proof (get_input_rrtm_file_bounds_Ok _ _ _ _ Hb) as Hlt.
    revert Hb. unfold get_input_rrtm_file_bounds.
    destruct (sentinel_lines "$" 0 ls) as [starts|] eqn:H1; cbn [rbind]; [|discriminate].
    destruct (sentinel_lines "%" 0 ls) as [ends|] eqn:H2; cbn [rbind]; [|discriminate].
    cbn [String.eqb Ascii.eqb Bool.eqb].
    destruct ends as [|e0 [|? ?]];
      cbn [length Nat.eqb andb]; rewrite ?andb_false_r; cbn [andb];
      try discriminate.
    destruct (list_lt [0%nat] [e0]); [|discriminate]. intros [= <- ->].
    split; [by apply (sentinel_lines_Ok _ _ _ _ H1)|].
    split; [done|].
    split; [by apply (sentinel_lines_one _ _ _ e H2)|lia].
  - intros (Hne & -> & He & Hlt). unfold get_input_rrtm_file_bounds.
    destruct (sentinel_lines_total "$" ls 0 Hne) as [starts H1].
    destruct (sentinel_lines_total "%" ls 0 Hne) as [ends H2].
    rewrite H1, H2. cbn [rbind String.eqb Ascii.eqb Bool.eqb].
    assert (ends = [e]) as ->
      by (apply (sentinel_lines_one "%" ls); [done|]; split; [lia|done]).
    cbn [length Nat.eqb andb list_lt].
    by rewrite (proj2 (Nat.ltb_lt 0 e)) by lia.
Qed.

(** ** A record read and written back *)

(** The schema of a record does not read the fields of the record. *)
Ltac own_field_neq Hn Hin :=
  let E := fresh "E" in
  intros E; subst; revert Hin;
  match goal with |- Name ?c ∈ ?names → False => change (Name c ∉ names) end;
  revert Hn; entry_lacks.

Ltac own_field_step Hn Hin :=
  first
    [ reflexivity
    | exact Hn
    | (rewrite <- Hn;
       cbn [eval_entry names_upto names_pmom fmt_by_flag]; unfold getattr;
       rewrite !lookup_insert_ne by own_field_neq Hn Hin; reflexivity)
    | (cbn [eval_entry names_upto names_pmom fmt_by_flag rbind]; unfold getattr;
       rewrite !lookup_insert_ne by own_field_neq Hn Hin; reflexivity) ].

Lemma schema_keeps_own_fields (v : variant) (rec : string) (a : obj) (names : list key)
    (n : string) (x : pyval) :
  get_fields v a rec = Ok names → Name n ∈ names →
  get_fields v (<[n := x]> a) rec = Ok names
  ∧ get_format v (<[n := x]> a) rec = get_format v a rec.
Proof.
  unfold get_fields at 1.
  destruct (dict_get (records_fields v) rec) as [entry|] eqn:H; cbn [rbind]; [|done].
  intros Hn Hin.
  assert (Hall : Forall (fun kv => ∀ a names n x,
                    eval_entry kv.2 a = Ok names → Name n ∈ names →
                    eval_entry kv.2 (<[n := x]> a) = Ok names
                    ∧ get_format v (<[n := x]> a) kv.1 = get_format v a kv.1)
                  (records_fields v)).
  { clear. destruct v; unfold records_fields;
      repeat (apply Forall_cons; split;
              [intros a names n x Hn Hin; cbn [fst snd] in *;
               unfold get_format;
               cbn [dict_get formats String.eqb Ascii.eqb Bool.eqb rbind];
               split; own_field_step Hn Hin|]);
      by apply Forall_nil. }
  pose proof H as Hget. apply dict_get_elem in H.
  destruct (proj1 (Forall_forall _ _) Hall _ H a names n x Hn Hin) as [H1 H2].
  split; [|done]. unfold get_fields. by rewrite Hget.
Qed.

Lemma schema_after_assign (v : variant) (rec : string) (names : list string)
    (kvs : list (string * scalar)) (a : obj) :
  (∀ kv, kv ∈ kvs → kv.1 ∈ names) →
  get_fields v a rec = Ok (Name <$> names) →
  get_fields v (assigned a kvs) rec = Ok (Name <$> names)
  ∧ get_format v (assigned a kvs) rec = get_format v a rec.
Proof.
  unfold assigned. revert a. induction kvs as [|[n x] kvs IH]; intros a Hin Hn; [done|].
  cbn [foldl fst snd].
  destruct (schema_keeps_own_fields v rec a (Name <$> names) n (Scalar x) Hn) as [H1 H2].
  { apply list_elem_of_fmap. exists n. split; [done|]. apply (Hin (n, x)). left. }
  destruct (IH (<[n := Scalar x]> a)) as [H3 H4]; [|done|].
  { intros kv Hkv. apply Hin. by right. }
  split; [done|]. by rewrite H4.
Qed.

Lemma mapM_take_value_scalars (names : list string) (vals : list scalar) (w : world) :
  length vals = length names →
  (∀ i name x, names !! i = Some name → vals !! i = Some x →
     attrs w !! name = Some (Scalar x)) →
  mapM take_value (Name <$> names) w = (Ok (Scalar <$> vals), w).
Proof.
  revert vals. induction names as [|n names IH]; intros [|x vals] Hlen Hall;
    try discriminate; [done|].
  cbn [fmap list_fmap mapM]. unfold bind at 1.
  assert (Hn : take_value (Name n) w = (Ok (Scalar x), w)).
  { unfold take_value, bind, getattr_key, eval, getattr.
    by rewrite (Hall 0%nat n x eq_refl eq_refl). }
  rewrite Hn. unfold bind at 1.
  change (list_fmap string key Name names) with (Name <$> names).
  rewrite (IH vals).
  - done.
  - cbn in Hlen. lia.
  - intros i name y Hi Hy. by apply (Hall (S i)).
Qed.

Section RoundTrip.

Variable reader : string → string → option (list scalar).
Variable writer : string → list pyval → option string.
Variable v : variant.

(** X12: a record read and written back.  When [read_record] in mode 'new'
    reads a line that the reader decodes to one value for each field of the
    record, the field names being distinct, [write_record] of the same
    record then returns what the writer makes, under the format the record
    had when it was read, of exactly these values in field order, and leaves
    the instance as the read left it: reading a record changes neither its
    format nor its field list. *)
Theorem read_then_write_record (rec fmt s line : string) (w : world) (ls : list string)
    (names : list string) (fields : list scalar) :
  lines w = Some ls → ls !! read_i w = Some s →
  get_format v (attrs w) rec = Ok fmt →
  get_fields v (attrs w) rec = Ok (Name <$> names) →
  NoDup names →
  reader fmt s = Some fields →
  length fields = length names →
  writer fmt (Scalar <$> fields) = Some line →
  (read_record reader v rec New;; write_record writer v rec) w
  = (Ok line, World (assigned (attrs w) (zip names fields)) (store w) (lines w)
                    (S (read_i w)) (files w) (cwd w)).
Proof.
  intros Hls Hs Hfmt Hnames Hnd Hread Hlen Hwrite.
  unfold bind at 1.
  rewrite (read_record_new_run reader v rec fmt s w ls names fields) by done.
  destruct (schema_after_assign v rec names (zip names fields) (attrs w)) as [H1 H2];
    [|done|].
  { intros [n x] Hkv. apply (zip_keys names fields).
    apply list_elem_of_fmap. by exists (n, x). }
  unfold write_record, bind at 1, eval at 1. cbn [attrs]. rewrite H2, Hfmt.
  unfold bind at 1, eval at 1. cbn [attrs]. rewrite H1.
  unfold bind at 1. rewrite (mapM_take_value_scalars names fields).
  - unfold encode, lift. by rewrite Hwrite.
  - done.
  - intros i name x Hi Hx. cbn [attrs]. by apply (assigned_lookup names fields _ i).
Qed.

End RoundTrip.

Lemma read_then_write_record_witness :
  let s := "11 12 13 14 15 16" +:+ newline in
  let w := World (<["IFORM" := int 0]> ∅) [] (Some [s]) 0 ∅ "." in
  let fields := SInt <$> [11; 12; 13; 14; 15; 16] in
  NoDup names_2_1_1
  ∧ demo_line_reader (layer_format "2.1.1" (SInt 0)) s = Some fields
  ∧ demo_writer (layer_format "2.1.1" (SInt 0)) (Scalar <$> fields)
    = Some "11 12 13 14 15 16"
  ∧ (read_record demo_line_reader LW "2.1.1" New;; write_record demo_writer LW "2.1.1") w
    = (Ok "11 12 13 14 15 16",
       World (assigned (attrs w) (zip names_2_1_1 fields)) [] (Some [s]) 1 ∅ ".").
Proof.
  intros s w fields.
  assert (Hnd : NoDup names_2_1_1) by (apply (bool_decide_unpack _); vm_compute; exact I).
  assert (Hr : demo_line_reader (layer_format "2.1.1" (SInt 0)) s = Some fields)
    by (vm_compute; reflexivity).
  assert (Hw : demo_writer (layer_format "2.1.1" (SInt 0)) (Scalar <$> fields)
               = Some "11 12 13 14 15 16") by (vm_compute; reflexivity).
  split; [exact Hnd|]. split; [exact Hr|]. split; [exact Hw|].
  apply (read_then_write_record demo_line_reader demo_writer LW "2.1.1"
           (layer_format "2.1.1" (SInt 0)) s "11 12 13 14 15 16" w [s] names_2_1_1 fields);
    [reflexivity|reflexivity|reflexivity|reflexivity|exact Hnd
    |exact Hr|reflexivity|exact Hw].
Defined.

(** ** The text of the written files *)

Lemma string_app_assoc (s1 s2 s3 : string) : (s1 +:+ s2) +:+ s3 = s1 +:+ (s2 +:+ s3).
Proof.
  induction s1 as [|c s1 IH]; [done|].
  change (String c ((s1 +:+ s2) +:+ s3) = String c (s1 +:+ (s2 +:+ s3))). by f_equal.
Qed.

Lemma string_app_empty_r (s : string) : s +:+ "" = s.
Proof.
  induction s as [|c s IH]; [done|]. change (String c (s +:+ "") = String c s). by f_equal.
Qed.

Lemma text_of_app (l1 l2 : list string) : text_of (l1 ++ l2) = text_of l1 +:+ text_of l2.
Proof.
  induction l1 as [|s l1 IH]; [done|].
  change (text_of ((s :: l1) ++ l2)) with (s +:+ text_of (l1 ++ l2)).
  change (text_of (s :: l1)) with (s +:+ text_of l1).
  rewrite IH. symmetry. apply string_app_assoc.
Qed.

Lemma fwrite_run (fpath : string * string) (text old : string) (w : world) :
  files w !! fpath = Some old →
  fwrite fpath text w = (Ok tt, set_files (<[fpath := old +:+ text]> (files w)) w).
Proof. intros H. unfold fwrite, modify. by rewrite H. Qed.

Lemma fwrite_bind {B} (fpath : string * string) (text old : string) (k : unit → M B)
    (w : world) :
  files w !! fpath = Some old →
  bind (fwrite fpath text) k w = k tt (set_files (<[fpath := old +:+ text]> (files w)) w).
Proof. intros H. unfold bind. by rewrite (fwrite_run _ _ old). Qed.

Lemma take_value_files (k : key) (w : world) : files (take_value k w).2 = files w.
Proof.
  unfold take_value, bind, getattr_key. destruct k as [n|]; [|done].
  unfold eval. destruct (getattr (attrs w) n) as [[x|p]|]; [done| |done].
  unfold list_pop0, bind, deref. destruct (store w !! p) as [[|y xs]|]; done.
Qed.

Lemma mapM_take_value_files (names : list key) (w : world) :
  files (mapM take_value names w).2 = files w.
Proof.
  revert w. induction names as [|k names IH]; intros w; [done|].
  cbn [mapM]. unfold bind at 1. pose proof (take_value_files k w) as Hk.
  destruct (take_value k w) as [[x|e] w1]; cbn [snd] in *; [|done].
  unfold bind at 1. specialize (IH w1).
  destruct (mapM take_value names w1) as [[ys|e] w2]; cbn [snd ret] in *; congruence.
Qed.

Section WrittenText.

Variable writer : string → list pyval → option string.
Variable v : variant.

Lemma write_record_files (rec : string) (w : world) :
  files (write_record writer v rec w).2 = files w.
Proof.
  unfold write_record, bind, eval, encode, lift.
  destruct (get_format v (attrs w) rec) as [fmt|]; [|done].
  destruct (get_fields v (attrs w) rec) as [names|]; [|done].
  pose proof (mapM_take_value_files names w) as H.
  by destruct (mapM take_value names w) as [[vals|e] w1].
Qed.

Lemma ignores_files_bind {A B} (m : M A) (k : A → M B) :
  ignores_files m → (∀ x, ignores_files (k x)) → ignores_files (bind m k).
Proof.
  intros Hm Hk F w. unfold bind. rewrite Hm.
  destruct (m w) as [[x|e] w1]; cbn [fst snd]; [apply Hk|done].
Qed.

Lemma ignores_files_take_value (k : key) : ignores_files (take_value k).
Proof.
  unfold take_value. apply ignores_files_bind; [by destruct k|].
  intros [x|p]; [done|]. unfold list_pop0.
  apply ignores_files_bind.
  - intros F w. unfold deref. cbn [store set_files]. by destruct (store w !! p).
  - by intros [|y xs].
Qed.

Lemma ignores_files_mapM {X Y} (f : X → M Y) (xs : list X) :
  (∀ x, ignores_files (f x)) → ignores_files (mapM f xs).
Proof.
  intros Hf. induction xs as [|x xs IH]; [done|]. cbn [mapM].
  apply ignores_files_bind; [apply Hf|intros y].
  by apply ignores_files_bind.
Qed.

Lemma ignores_files_write_record (rec : string) :
  ignores_files (write_record writer v rec).
Proof.
  unfold write_record.
  apply ignores_files_bind; [done|intros fmt].
  apply ignores_files_bind; [done|intros names].
  apply ignores_files_bind; [|done].
  apply ignores_files_mapM, ignores_files_take_value.
Qed.

Lemma write_lines_text (fpath : string * string) (records : list string)
    (rundupe : obj) (w w' : world) (old : string) :
  files w !! fpath = Some old →
  write_lines writer v fpath records rundupe w = (Ok tt, w') →
  ∃ out, (mapM (write_record writer v) records (set_attrs rundupe w)).1 = Ok out
         ∧ files w' = <[fpath := old +:+ text_of ((fun l => l +:+ newline) <$> out)]>
                        (files w).
Proof.
  revert rundupe w old. induction records as [|rec rest IH]; intros rundupe w old Hold.
  - intros [= <-]. exists []. split; [done|].
    cbn [fmap list_fmap text_of foldr]. by rewrite string_app_empty_r, insert_id.
  - cbn [write_lines mapM]. intros ([line a1] & w1 & Hrec & Hrun)%bind_Ok.
    unfold call_on in Hrec. unfold bind at 1.
    pose proof (write_record_files rec (set_attrs rundupe w)) as Hf.
    destruct (write_record writer v rec (set_attrs rundupe w)) as [[l|e] w0];
      [|discriminate].
    injection Hrec as Hl Ha Hw1. subst line a1 w1. cbn [snd files set_attrs fst] in *.
    apply bind_Ok in Hrun as ([] & w2 & Hw & Hrun).
    rewrite (fwrite_run _ _ old) in Hw by (cbn [files set_attrs]; congruence).
    injection Hw as <-.
    eapply IH in Hrun as (out & Hout & Hfiles);
      [|cbn [files set_files set_attrs]; apply lookup_insert_eq].
    exists (l :: out). split.
    + match type of Hout with
      | (mapM _ _ ?W).1 = _ =>
        change W with (set_files (<[fpath:=old +:+ l +:+ newline]> (files w0)) w0) in Hout
      end.
      rewrite (ignores_files_mapM _ rest ignores_files_write_record) in Hout.
      cbn [fst] in Hout. unfold bind at 1.
      destruct (mapM (write_record writer v) rest w0) as [[ys|e] w3]; cbn [fst] in *;
        [|discriminate].
      by injection Hout as ->.
    + rewrite Hfiles. cbn [files set_files set_attrs fmap list_fmap text_of foldr].
      rewrite insert_insert_eq, Hf. by rewrite !string_app_assoc.
Qed.

(** X13: what the file writers put in the file.  When [write_input_rrtm]
    returns, the file holds, in place of what it held before, two newlines,
    'file auto-generated by parserrtm' and a newline, then for each record
    of the explicit order of the primary file the string that [write_record]
    returns for it, followed by a newline, [write_record] being called for
    these records one after the other on a deep copy of the Document, and a
    final '%' with no newline.  When [write_in_cld_rrtm]
    returns, the file holds these strings for the explicit order of the
    cloud file, then '%' and a newline, and 'file auto-generated by
    parserrtm' with no newline.  No other file is touched. *)
Theorem written_text (fpath : string * string) (w w' : world) :
  (write_input_rrtm writer v fpath w = (Ok tt, w') →
   ∃ E out, get_explicit_record_order (attrs w) (store w) "input_rrtm" = Ok E
            ∧ (mapM (write_record writer v) E (copied w)).1 = Ok out
            ∧ files w' = <[fpath :=
                text_of ([newline; newline; "file auto-generated by parserrtm" +:+ newline]
                         ++ ((fun l => l +:+ newline) <$> out) ++ ["%"])]> (files w))
  ∧ (write_in_cld_rrtm writer v fpath w = (Ok tt, w') →
     ∃ E out, get_explicit_record_order (attrs w) (store w) "in_cld_rrtm" = Ok E
              ∧ (mapM (write_record writer v) E (copied w)).1 = Ok out
              ∧ files w' = <[fpath :=
                  text_of (((fun l => l +:+ newline) <$> out)
                           ++ ["%" +:+ newline; "file auto-generated by parserrtm"])]>
                  (files w)).
Proof.
  split.
  - unfold write_input_rrtm. intros (E & w1 & HE & Hrun)%bind_Ok.
    unfold eval in HE.
    destruct (get_explicit_record_order (attrs w) (store w) "input_rrtm") as [E'|] eqn:Ho;
      [|discriminate].
    injection HE as -> <-.
    apply bind_Ok in Hrun as (rundupe & w2 & Hcopy & Hrun).
    unfold copy in Hcopy. injection Hcopy as <- <-.
    apply bind_Ok in Hrun as ([] & w3 & [= <-] & Hrun).
    erewrite !(fwrite_bind fpath) in Hrun
      by (cbn [files set_files set_store]; apply lookup_insert_eq).
    apply bind_Ok in Hrun as ([] & w4 & Hlines & Hlast).
    eapply write_lines_text in Hlines as (out & Hout & Hfiles);
      [|cbn [files set_files set_store]; apply lookup_insert_eq].
    erewrite (fwrite_run fpath "%") in Hlast by (rewrite Hfiles; apply lookup_insert_eq).
    injection Hlast as <-. exists E, out. split; [done|]. split.
    + match type of Hout with
      | (mapM _ _ ?W).1 = _ =>
        match W with
        | context [set_files ?F _] => change W with (set_files F (copied w)) in Hout
        end
      end.
      by rewrite (ignores_files_mapM _ E ignores_files_write_record) in Hout.
    + cbn [files set_files]. rewrite Hfiles.
      cbn [files set_files set_store]. rewrite !insert_insert_eq.
      f_equal. rewrite !text_of_app. cbn [text_of foldr].
      by rewrite !string_app_assoc, ?string_app_empty_r.
  - unfold write_in_cld_rrtm. intros (E & w1 & HE & Hrun)%bind_Ok.
    unfold eval in HE.
    destruct (get_explicit_record_order (attrs w) (store w) "in_cld_rrtm") as [E'|] eqn:Ho;
      [|discriminate].
    injection HE as -> <-.
    apply bind_Ok in Hrun as (rundupe & w2 & Hcopy & Hrun).
    unfold copy in Hcopy. injection Hcopy as <- <-.
    apply bind_Ok in Hrun as ([] & w3 & [= <-] & Hrun).
    apply bind_Ok in Hrun as ([] & w4 & Hlines & Hlast).
    eapply write_lines_text in Hlines as (out & Hout & Hfiles);
      [|cbn [files set_files set_store]; apply lookup_insert_eq].
    erewrite (fwrite_bind fpath) in Hlast by (rewrite Hfiles; apply lookup_insert_eq).
    erewrite (fwrite_run fpath) in Hlast
      by (cbn [files set_files]; apply lookup_insert_eq).
    injection Hlast as <-. exists E, out. split; [done|]. split.
    + match type of Hout with
      | (mapM _ _ ?W).1 = _ =>
        match W with
        | context [set_files ?F _] => change W with (set_files F (copied w)) in Hout
        end
      end.
      by rewrite (ignores_files_mapM _ E ignores_files_write_record) in Hout.
    + cbn [files set_files]. rewrite Hfiles.
      cbn [files set_files set_store]. rewrite !insert_insert_eq.
      f_equal. rewrite !text_of_app. cbn [text_of foldr].
      by rewrite !string_app_assoc, ?string_app_empty_r.
Qed.

End WrittenText.

Lemma written_text_witness :
  let fpath := ("run", "INPUT_RRTM") in
  let out := write_input_rrtm demo_writer LW fpath two_layer_world in
  out.1 = Ok tt
  ∧ ∃ E lines,
      get_explicit_record_order (attrs two_layer_world) (store two_layer_world) "input_rrtm"
      = Ok E
      ∧ (mapM (write_record demo_writer LW) E (copied two_layer_world)).1 = Ok lines
      ∧ files out.2 = <[fpath :=
          text_of ([newline; newline; "file auto-generated by parserrtm" +:+ newline]
                   ++ ((fun l => l +:+ newline) <$> lines) ++ ["%"])]>
          (files two_layer_world).
Proof.
  intros fpath out.
  assert (Hrun : out = (Ok tt, out.2)) by (vm_compute; reflexivity).
  split; [by rewrite Hrun|].
  exact (proj1 (written_text demo_writer LW fpath two_layer_world out.2) Hrun).
Defined.
